(** * Instapaper bookmark organizer: a shallow embedding of [main.py]

    The development follows the layout of the program:
    - Python values: strings, insertion-ordered dictionaries, JSON data;
    - the world the program runs in (network, standard input, files) and
      the monad that threads it, with Python's two kinds of unwinding
      ([Exception] and [SystemExit]);
    - [api_post] and the two remote operations of the session;
    - [domain_of], [suggest_folder], [build_keymap], [pick_folder_name];
    - [load_json], [save_json];
    - the session loop of [main];
    - the theorems.

    Text is modelled by [string], one [ascii] for each character: the
    characters are the code points U+0000 to U+00FF, not the bytes of an
    encoding. The string methods used by the program ([strip], [lower],
    [startswith], [endswith]) are Python's on the texts of these
    characters. Python integers are [Z]. *)

From Stdlib Require Import List String Ascii ZArith QArith Lia Bool Arith.
From Stdlib Require Import DecimalString DecimalZ.
Import ListNotations.

Set Warnings "-register-all".

Local Open Scope string_scope.
Local Open Scope Z_scope.

(** ** Strings *)

Module Str.

(** [s.startswith(p)] *)
Definition startswith (s p : string) : bool := String.prefix p s.

(** [s.endswith(p)]: some tail of [s] is [p]. *)
Fixpoint endswith (s p : string) : bool :=
  if String.eqb s p then true
  else match s with
       | EmptyString => false
       | String _ s' => endswith s' p
       end.

(** The white space [str.strip()] removes, among the characters up to
    U+00FF: TAB, LF, VT, FF, CR, FS, GS, RS, US and SPACE, NEXT LINE
    (U+0085) and NO-BREAK SPACE (U+00A0). *)
Definition isspace (c : ascii) : bool :=
  let n := nat_of_ascii c in
  ((9 <=? n) && (n <=? 13) || (28 <=? n) && (n <=? 32)
   || (n =? 133) || (n =? 160))%nat.

Fixpoint lstrip (s : string) : string :=
  match s with
  | EmptyString => EmptyString
  | String c s' => if isspace c then lstrip s' else s
  end.

(** Drops trailing whitespace: a character is kept when it is not a
    space or when something is kept after it. *)
Fixpoint rstrip (s : string) : string :=
  match s with
  | EmptyString => EmptyString
  | String c s' =>
      match rstrip s' with
      | EmptyString => if isspace c then EmptyString else String c EmptyString
      | t => String c t
      end
  end.

(** [s.strip()] *)
Definition strip (s : string) : string := rstrip (lstrip s).

(** The capital letters up to U+00FF are A to Z, U+00C0 to U+00D6 and
    U+00D8 to U+00DE (U+00D7 is the multiplication sign); the small
    letter of each is 32 places after it. *)
Definition lower_char (c : ascii) : ascii :=
  let n := nat_of_ascii c in
  if ((65 <=? n) && (n <=? 90) || (192 <=? n) && (n <=? 214)
      || (216 <=? n) && (n <=? 222))%nat
  then ascii_of_nat (n + 32) else c.

(** [s.lower()] *)
Fixpoint lower (s : string) : string :=
  match s with
  | EmptyString => EmptyString
  | String c s' => String (lower_char c) (lower s')
  end.

(** Truthiness of a string: [bool(s)]. *)
Definition nonempty (s : string) : bool :=
  match s with EmptyString => false | _ => true end.

(** [str(n)] for an integer. *)
Definition of_Z (n : Z) : string := NilZero.string_of_int (Z.to_int n).

End Str.

(** ** Dictionaries

    A Python [dict] keeps its keys unique and iterates in insertion
    order; [items] is that order. *)

Module Dict.

Section Ops.
Context {V : Type}.

Definition t := list (string * V).

(** [d.get(k)]; [Some] exactly when [k in d], and then it is [d[k]]. *)
Fixpoint get (d : t) (k : string) : option V :=
  match d with
  | [] => None
  | (k', v) :: d' => if String.eqb k' k then Some v else get d' k
  end.

(** [k in d] *)
Definition mem (d : t) (k : string) : bool :=
  match get d k with Some _ => true | None => false end.

(** [d[k] = v]: an existing key keeps its place, a new one goes last. *)
Fixpoint set (d : t) (k : string) (v : V) : t :=
  match d with
  | [] => [(k, v)]
  | (k', v') :: d' =>
      if String.eqb k' k then (k', v) :: d' else (k', v') :: set d' k v
  end.

(** [d.setdefault(k, v)], for its effect on [d]. *)
Definition setdefault (d : t) (k : string) (v : V) : t :=
  if mem d k then d else set d k v.

Definition keys (d : t) : list string := map fst d.

(** The invariant of a Python dictionary. *)
Definition wf (d : t) : Prop := NoDup (keys d).

End Ops.

Arguments t : clear implicits.

End Dict.

(** ** Rule matching *)

Definition Rules := Dict.t Z.

(** The loop of [suggest_folder] over [rules.items()]. *)
Fixpoint first_suffix_rule (domain : string) (items : list (string * Z))
  : option Z :=
  match items with
  | [] => None
  | (k, v) :: rest =>
      if Str.startswith k "." && Str.endswith domain k then Some v
      else first_suffix_rule domain rest
  end.

Definition suggest_folder (domain : string) (rules : Rules) : option Z :=
  match Dict.get rules domain with
  | Some v => Some v
  | None => first_suffix_rule domain rules
  end.

(** ** JSON data and Python's dynamic operations on it *)

(** What [json.load] and [r.json()] return. A [JObj] is a Python [dict]
    with string keys; a [JFloat] is a finite number with a fraction. *)
Inductive json : Type :=
| JNull
| JBool (b : bool)
| JInt (n : Z)
| JFloat (q : Q)
| JStr (s : string)
| JList (l : list json)
| JObj (d : list (string * json)).

(** The exceptions the program can meet, all subclasses of [Exception]. *)
Inductive exn : Type :=
| ConnectionError            (* requests.post: the connection failed *)
| Timeout                    (* requests.post: no answer in 30 s *)
| HTTPError (status : Z)     (* r.raise_for_status() *)
| JSONDecodeError            (* r.json() *)
| KeyError (k : string)
| AttributeError
| TypeError
| ValueError
| EOFError.                  (* input() at end of input *)

(** [SystemExit] carries a message; the program builds two of them in
    the part modelled here. *)
Inductive exit_msg : Type :=
| ApiRequestFailed (path : string) (last_err : option exn)
    (* f"API request failed: {path}: {last_err}" *)
| NoFolders.
    (* "No user-created folders. Create folders in Instapaper first." *)

(** Unwinding: an [Exception], which [except Exception] catches, or
    [SystemExit], a [BaseException] that it does not catch. *)
Inductive unwinding : Type :=
| Raise (e : exn)
| SystemExit (m : exit_msg).

(** Library functions of Python that the program calls and whose code
    is not part of it. *)
Class Library : Type := {
  (** [urlparse(url).netloc], or the exception it raises *)
  urlparse_netloc : string -> exn + string;
  (** [int(s)] for a string [s] *)
  int_of_str : string -> exn + Z;
  (** the text [json.dump(data, f, ensure_ascii=False, indent=2)] writes *)
  json_dump : json -> string;
  (** [json.load(f)] on a file holding the given text *)
  json_load : string -> exn + json
}.

Module Py.

(** [bool(x)] *)
Definition truthy (x : json) : bool :=
  match x with
  | JNull => false
  | JBool b => b
  | JInt n => negb (n =? 0)
  | JFloat q => negb (Qnum q =? 0)
  | JStr s => Str.nonempty s
  | JList l => match l with [] => false | _ => true end
  | JObj d => match d with [] => false | _ => true end
  end.

(** [x.get(k)]: only a [dict] has the method; a missing key gives [None]. *)
Definition get (x : json) (k : string) : exn + json :=
  match x with
  | JObj d => inr (match Dict.get d k with Some v => v | None => JNull end)
  | _ => inl AttributeError
  end.

(** [x.get(k, default)] *)
Definition get_default (x : json) (k : string) (default : json) : exn + json :=
  match x with
  | JObj d => inr (match Dict.get d k with Some v => v | None => default end)
  | _ => inl AttributeError
  end.

(** [x[k]] for a string [k] *)
Definition getitem (x : json) (k : string) : exn + json :=
  match x with
  | JObj d => match Dict.get d k with Some v => inr v | None => inl (KeyError k) end
  | _ => inl TypeError
  end.

(** [int(x)] *)
Definition int `{L : Library} (x : json) : exn + Z :=
  match x with
  | JInt n => inr n
  | JBool b => inr (if b then 1 else 0)
  | JFloat q => inr (Z.quot (Qnum q) (Zpos (Qden q)))
  | JStr s => int_of_str s
  | JNull | JList _ | JObj _ => inl TypeError
  end.

(** [x.strip()]: a method of strings only *)
Definition strip (x : json) : exn + string :=
  match x with
  | JStr s => inr (Str.strip s)
  | _ => inl AttributeError
  end.

Fixpoint chars (s : string) : list json :=
  match s with
  | EmptyString => []
  | String c s' => JStr (String c EmptyString) :: chars s'
  end.

(** The elements [for b in x] goes through. *)
Definition iter (x : json) : exn + list json :=
  match x with
  | JList l => inr l
  | JObj d => inr (map (fun kv => JStr (fst kv)) d)
  | JStr s => inr (chars s)
  | JNull | JBool _ | JInt _ | JFloat _ => inl TypeError
  end.

(** [x == s] for a string literal [s] *)
Definition eq_str (x : json) (s : string) : bool :=
  match x with
  | JStr t => String.eqb t s
  | _ => false
  end.

End Py.

(** ** The world and the monad of effects *)

(** One HTTP response, as far as [api_post] looks at it. *)
Record response : Type := mkResponse {
  status_code : Z;
  text : string;
  (** what [r.json()] does: the parsed body or the exception *)
  body_json : exn + json
}.

(** What one call of [requests.post] does. *)
Inductive outcome : Type :=
| Responded (r : response)
| Faulted (e : exn).

(** What the program prints, one constructor per [print] of the session. *)
Inductive message : Type :=
| MsgFoldersHeader                        (* "Folders (1..9):" *)
| MsgFolderKey (k title : string) (id : Z) (* f"  {k}: {f.title} (id={f.folder_id})" *)
| MsgControls                             (* "\nControls: [1-9]=move ..." *)
| MsgNoUnread                             (* "No unread bookmarks." *)
| MsgItem (bid : Z) (title : string)      (* f"[{bid}] {title}" *)
| MsgSource (s : string)                  (* f"  {dom or url}" *)
| MsgSuggestion (name : string)           (* f"  suggestion: {sug_name}" *)
| MsgBlank                                (* print() *)
| MsgNoSuggestion                         (* "  no suggestion\n" *)
| MsgMoved (name : option string)         (* f"  moved -> {...}\n" *)
| MsgMoveFailed (e : exn)                 (* f"  move failed: {e}\n" *)
| MsgNoDomain                             (* "  no domain; cannot save rule\n" *)
| MsgPickFolder                           (* "Pick folder key to bind this domain to:" *)
| MsgKey (k title : string)               (* f"  {k}: {f.title}" *)
| MsgInvalidKey                           (* "  invalid key\n" *)
| MsgSaved (dom title : string)           (* f"  saved: {dom} -> {title}\n" *)
| MsgUnknown.                             (* "  unknown command\n" *)

(** The effects of a run, in the order they happen. *)
Inductive event : Type :=
| EvPost (url : string) (data : Dict.t string)   (* requests.post *)
| EvSleep (seconds : Q)                          (* time.sleep *)
| EvPrint (m : message)                          (* print *)
| EvInput (prompt line : string)                 (* input, and what was read *)
| EvMkdir (path : string)                        (* Path.mkdir *)
| EvWrite (path content : string)                (* open("w") and write *)
| EvReplace (src dst : string)                   (* Path.replace *)
| EvChmod (path : string).                       (* os.chmod *)

Record world : Type := mkWorld {
  (** the outcome of the [n]-th call of [requests.post] *)
  net : nat -> outcome;
  (** how many calls were made *)
  posts : nat;
  (** the lines still to be read from standard input *)
  stdin : list string;
  (** the files, by path *)
  fs : Dict.t string;
  (** the effects so far, oldest first *)
  log : list event
}.

Definition emit (e : event) (w : world) : world :=
  mkWorld (net w) (posts w) (stdin w) (fs w) (log w ++ [e]).

Definition M (A : Type) : Type := world -> (unwinding + A) * world.

Definition ret {A} (a : A) : M A := fun w => (inr a, w).

Definition bind {A B} (c : M A) (k : A -> M B) : M B :=
  fun w => match c w with
           | (inr a, w') => k a w'
           | (inl u, w') => (inl u, w')
           end.

Definition throw {A} (u : unwinding) : M A := fun w => (inl u, w).

(** A pure operation that may raise. *)
Definition lift {A} (r : exn + A) : M A :=
  match r with
  | inr a => ret a
  | inl e => throw (Raise e)
  end.

(** [try: c  except Exception as e: h e]. [SystemExit] passes through. *)
Definition try_except {A} (c : M A) (h : exn -> M A) : M A :=
  fun w => match c w with
           | (inl (Raise e), w') => h e w'
           | r => r
           end.

Declare Scope py_scope.
Delimit Scope py_scope with py.
Notation "x <- c ;; k" := (bind c (fun x => k))
  (at level 61, c at next level, right associativity) : py_scope.
Notation "c ;; k" := (bind c (fun _ => k))
  (at level 61, right associativity) : py_scope.
Local Open Scope py_scope.

Definition print (m : message) : M unit :=
  fun w => (inr tt, emit (EvPrint m) w).

(** [time.sleep(d)] *)
Definition sleep (d : Q) : M unit :=
  fun w => (inr tt, emit (EvSleep d) w).

(** [input(prompt)]: the next line, or [EOFError] when there is none. *)
Definition input (prompt : string) : M string :=
  fun w => match stdin w with
           | line :: rest =>
               (inr line,
                mkWorld (net w) (posts w) rest (fs w)
                        (log w ++ [EvInput prompt line]))
           | [] => (inl (Raise EOFError), w)
           end.

(** [requests.post(url, auth=auth, data=payload, timeout=30)] *)
Definition requests_post (url : string) (payload : Dict.t string) : M response :=
  fun w =>
    let w' := mkWorld (net w) (S (posts w)) (stdin w) (fs w)
                      (log w ++ [EvPost url payload]) in
    match net w (posts w) with
    | Responded r => (inr r, w')
    | Faulted e => (inl (Raise e), w')
    end.

(** ** The API operation wrapper *)

Definition API_BASE : string := "https://www.instapaper.com/api/1".

(** [r.status_code in (429, 500, 502, 503, 504)] *)
Definition transient (status : Z) : bool :=
  existsb (Z.eqb status) [429; 500; 502; 503; 504].

(** [r.raise_for_status()]: [HTTPError] for a 4xx or 5xx status. *)
Definition raise_for_status (r : response) : M unit :=
  if (400 <=? status_code r) && (status_code r <? 600)
  then throw (Raise (HTTPError (status_code r)))
  else ret tt.

(** [0.6 * (2**attempt)], as an exact rational. In binary floating point
    the product by a power of two is exact, so the delays double exactly
    as they do here. *)
Definition backoff (attempt : nat) : Q :=
  ((6 # 10) * inject_Z (2 ^ Z.of_nat attempt))%Q.

(** How the body of the [try] leaves one turn of the loop. *)
Inductive attempt_exit : Type :=
| Continue                (* [continue] *)
| Return (v : json).      (* [return] *)

(** The body of the [try] in [api_post]. *)
Definition attempt_body (url : string) (payload : Dict.t string)
  (attempt : nat) : M attempt_exit :=
  r <- requests_post url payload ;;
  if transient (status_code r) then
    sleep (backoff attempt) ;;
    ret Continue
  else
    raise_for_status r ;;
    v <- (if Str.nonempty (text r) then lift (body_json r)
          else ret (JObj [])) ;;
    ret (Return v).

(** The [for attempt in range(6)] loop, over the attempts still to make,
    and the [raise SystemExit] after it. *)
Fixpoint api_post_loop (path url : string) (payload : Dict.t string)
  (last_err : option exn) (attempts : list nat) : M json :=
  match attempts with
  | [] => throw (SystemExit (ApiRequestFailed path last_err))
  | attempt :: rest =>
      x <- try_except
             (e <- attempt_body url payload attempt ;; ret (e, last_err))
             (fun e => sleep (backoff attempt) ;; ret (Continue, Some e)) ;;
      match x with
      | (Return v, _) => ret v
      | (Continue, last_err') => api_post_loop path url payload last_err' rest
      end
  end.

(** [api_post(auth, path, data)]. The credentials [auth] only sign the
    request and are left out. *)
Definition api_post (path : string) (data : option (Dict.t string)) : M json :=
  let url := API_BASE ++ path in
  let payload := match data with Some d => d | None => [] end in
  api_post_loop path url payload None (seq 0 6).

(** [list_unread_bookmarks(auth, limit)] *)
Definition list_unread_bookmarks (limit : Z) : M json :=
  res <- api_post "/bookmarks/list"
           (Some [("folder_id", "unread"); ("limit", Str.of_Z limit)]) ;;
  lift (Py.get_default res "bookmarks" (JList [])).

(** [move_bookmark(auth, bookmark_id, folder_id)] *)
Definition move_bookmark (bookmark_id folder_id : Z) : M unit :=
  api_post "/bookmarks/move"
    (Some [("bookmark_id", Str.of_Z bookmark_id);
           ("folder_id", Str.of_Z folder_id)]) ;;
  ret tt.

(** ** Domains, folders and key bindings *)

Record Folder : Type := mkFolder {
  folder_id : Z;
  title : string
}.

Definition domain_of `{L : Library} (url : string) : string :=
  match urlparse_netloc url with
  | inr netloc => Str.lower netloc
  | inl _ => ""
  end.

(** [{str(i + 1): folders[i] for i in range(min(max_keys, len(folders)))}] *)
Definition build_keymap (folders : list Folder) (max_keys : nat)
  : Dict.t Folder :=
  map (fun i => (Str.of_Z (Z.of_nat i + 1), nth i folders (mkFolder 0 "")))
      (seq 0 (Nat.min max_keys (List.length folders))).

Fixpoint pick_folder_name (folders : list Folder) (id : Z) : option string :=
  match folders with
  | [] => None
  | f :: rest =>
      if folder_id f =? id then Some (title f) else pick_folder_name rest id
  end.

(** ** Configuration files *)

Definition CFG_DIR : string := "~/.config/instapaper-cli".
Definition RULES_PATH : string := CFG_DIR ++ "/rules.json".

(** [path.with_suffix(path.suffix + ".tmp")] *)
Definition tmp_of (path : string) : string := path ++ ".tmp".

Fixpoint fs_remove (files : Dict.t string) (path : string) : Dict.t string :=
  match files with
  | [] => []
  | (p, c) :: rest =>
      if String.eqb p path then fs_remove rest path
      else (p, c) :: fs_remove rest path
  end.

(** [src.replace(dst)]: [dst] takes the content of [src], which goes. *)
Definition fs_replace (files : Dict.t string) (src dst : string)
  : Dict.t string :=
  match Dict.get files src with
  | Some c => Dict.set (fs_remove files src) dst c
  | None => files
  end.

Definition write_file (path content : string) : M unit :=
  fun w => (inr tt,
            mkWorld (net w) (posts w) (stdin w)
                    (Dict.set (fs w) path content)
                    (log w ++ [EvWrite path content])).

Definition replace_file (src dst : string) : M unit :=
  fun w => (inr tt,
            mkWorld (net w) (posts w) (stdin w)
                    (fs_replace (fs w) src dst)
                    (log w ++ [EvReplace src dst])).

(** [ensure_private_file(path)]: the mode is not part of the model, and a
    failure of [os.chmod] is swallowed. *)
Definition ensure_private_file (path : string) : M unit :=
  fun w => (inr tt, emit (EvChmod path) w).

Definition mkdir (path : string) : M unit :=
  fun w => (inr tt, emit (EvMkdir path) w).

Definition load_json `{L : Library} (path : string) (default : json) : M json :=
  fun w => match Dict.get (fs w) path with
           | None => (inr default, w)
           | Some content => lift (json_load content) w
           end.

Definition save_json `{L : Library} (path : string) (data : json) : M unit :=
  mkdir CFG_DIR ;;
  let tmp := tmp_of path in
  write_file tmp (json_dump data) ;;
  replace_file tmp path ;;
  ensure_private_file path.

(** The rule table as the JSON object it is. *)
Definition rules_json (rules : Rules) : json :=
  JObj (map (fun kv => (fst kv, JInt (snd kv))) rules).

(** ** The session *)

(** The three values the loop body reads from a bookmark. *)
Record Item : Type := mkItem {
  item_id : Z;
  item_title : string;
  item_url : string
}.

(** [x or d] *)
Definition py_or (x d : json) : json := if Py.truthy x then x else d.

(** [bid = int(b["bookmark_id"])],
    [title = (b.get("title") or "").strip() or "(no title)"],
    [url = (b.get("url") or "").strip()], in this order. *)
Definition read_item `{L : Library} (b : json) : exn + Item :=
  match Py.getitem b "bookmark_id" with
  | inl e => inl e
  | inr x =>
  match Py.int x with
  | inl e => inl e
  | inr bid =>
  match Py.get b "title" with
  | inl e => inl e
  | inr t =>
  match Py.strip (py_or t (JStr "")) with
  | inl e => inl e
  | inr t' =>
  match Py.get b "url" with
  | inl e => inl e
  | inr u =>
  match Py.strip (py_or u (JStr "")) with
  | inl e => inl e
  | inr url =>
      inr (mkItem bid (if Str.nonempty t' then t' else "(no title)") url)
  end end end end end end.

(** [[b for b in bookmarks if b.get("type") == "bookmark"]] on the
    elements of [bookmarks] *)
Fixpoint select_bookmarks (elements : list json) : exn + list json :=
  match elements with
  | [] => inr []
  | b :: rest =>
      match Py.get b "type" with
      | inl e => inl e
      | inr ty =>
          match select_bookmarks rest with
          | inl e => inl e
          | inr items =>
              inr (if Py.eq_str ty "bookmark" then b :: items else items)
          end
      end
  end.

(** The suggested id when it passes [if suggested_id], that is when it is
    neither [None] nor [0]. *)
Definition if_id (suggested_id : option Z) : option Z :=
  match suggested_id with
  | Some i => if i =? 0 then None else Some i
  | None => None
  end.

(** [for k, f in keymap.items(): print(f"  {k}: {f.title}")] *)
Fixpoint print_keys (items : list (string * Folder)) : M unit :=
  match items with
  | [] => ret tt
  | (k, f) :: rest => print (MsgKey k (title f)) ;; print_keys rest
  end.

(** How one turn of [for b in items] ends. *)
Inductive control : Type :=
| Next (rules : Rules)   (* on to the next item; the table as it is now *)
| Quit (rules : Rules).  (* [return] from [main]; the table as it is then *)

Section Session.
Context `{L : Library}.
Variable folders : list Folder.
Variable keymap : Dict.t Folder.

(** The [a] command. *)
Definition cmd_auto (it : Item) (rules : Rules) (suggested_id : option Z)
  (sug_name : option string) : M control :=
  match if_id suggested_id with
  | None =>
      print MsgNoSuggestion ;;
      ret (Next rules)
  | Some id =>
      try_except
        (move_bookmark (item_id it) id ;;
         print (MsgMoved sug_name))
        (fun e => print (MsgMoveFailed e)) ;;
      ret (Next rules)
  end.

(** The [s] command. *)
Definition cmd_save (rules : Rules) (dom : string) : M control :=
  if negb (Str.nonempty dom) then
    print MsgNoDomain ;;
    ret (Next rules)
  else
    print MsgPickFolder ;;
    print_keys keymap ;;
    line <- input "folder key> " ;;
    let k := Str.strip line in
    match Dict.get keymap k with
    | None =>
        print MsgInvalidKey ;;
        ret (Next rules)
    | Some f =>
        let rules' := Dict.set rules dom (folder_id f) in
        save_json RULES_PATH (rules_json rules') ;;
        print (MsgSaved dom (title f)) ;;
        ret (Next rules')
    end.

(** A key of the key map: move, then learn the rule if the domain has
    none yet. *)
Definition cmd_move (it : Item) (rules : Rules) (dom : string) (f : Folder)
  : M control :=
  try_except
    (move_bookmark (item_id it) (folder_id f) ;;
     let rules' := if Str.nonempty dom
                   then Dict.setdefault rules dom (folder_id f)
                   else rules in
     print (MsgMoved (Some (title f))) ;;
     ret (Next rules'))
    (fun e => print (MsgMoveFailed e) ;; ret (Next rules)).

(** [suggested_id = suggest_folder(dom, rules) if dom else None] *)
Definition suggestion_for (dom : string) (rules : Rules) : option Z :=
  if Str.nonempty dom then suggest_folder dom rules else None.

(** [sug_name = pick_folder_name(folders, suggested_id) if suggested_id
    else None] *)
Definition suggestion_name (suggested_id : option Z) : option string :=
  match if_id suggested_id with
  | Some id => pick_folder_name folders id
  | None => None
  end.

(** The three [print]s that present an item; the third one is under
    [if sug_name]. *)
Definition show_item (it : Item) (dom : string) (sug_name : option string)
  : M unit :=
  print (MsgItem (item_id it) (item_title it)) ;;
  print (MsgSource (if Str.nonempty dom then dom else item_url it)) ;;
  match sug_name with
  | Some name =>
      if Str.nonempty name then print (MsgSuggestion name) else ret tt
  | None => ret tt
  end.

(** The chain of [if cmd ...] that follows the prompt. *)
Definition run_command (it : Item) (rules : Rules) (dom : string)
  (suggested_id : option Z) (sug_name : option string) (cmd : string)
  : M control :=
  if String.eqb cmd "q" then
    save_json RULES_PATH (rules_json rules) ;;
    ret (Quit rules)
  else if String.eqb cmd "n" || String.eqb cmd "" then
    print MsgBlank ;;
    ret (Next rules)
  else if String.eqb cmd "a" then
    cmd_auto it rules suggested_id sug_name
  else if String.eqb cmd "s" then
    cmd_save rules dom
  else
    match Dict.get keymap cmd with
    | Some f => cmd_move it rules dom f
    | None =>
        print MsgUnknown ;;
        ret (Next rules)
    end.

(** The body of [for b in items]. *)
Definition process_item (rules : Rules) (b : json) : M control :=
  it <- lift (read_item b) ;;
  let dom := domain_of (item_url it) in
  let suggested_id := suggestion_for dom rules in
  let sug_name := suggestion_name suggested_id in
  show_item it dom sug_name ;;
  line <- input "> " ;;
  run_command it rules dom suggested_id sug_name (Str.lower (Str.strip line)).

(** [for b in items: ...] *)
Fixpoint for_items (rules : Rules) (items : list json) : M control :=
  match items with
  | [] => ret (Next rules)
  | b :: rest =>
      c <- process_item rules b ;;
      match c with
      | Quit rules' => ret (Quit rules')
      | Next rules' => for_items rules' rest
      end
  end.

(** [while True: ...] and the [save_json] after it. The loop can go on
    for ever in Python; here it takes [fuel] turns and answers [None]
    when they are used up. A run that ends answers with the rule table
    as the session leaves it. *)
Fixpoint session (fuel : nat) (rules : Rules) : M (option Rules) :=
  match fuel with
  | O => ret None
  | S fuel' =>
      bookmarks <- list_unread_bookmarks 25 ;;
      elements <- lift (Py.iter bookmarks) ;;
      items <- lift (select_bookmarks elements) ;;
      match items with
      | [] =>
          print MsgNoUnread ;;
          save_json RULES_PATH (rules_json rules) ;;
          ret (Some rules)
      | _ :: _ =>
          c <- for_items rules items ;;
          match c with
          | Quit rules' => ret (Some rules')
          | Next rules' => session fuel' rules'
          end
      end
  end.

End Session.

(** [for k, f in keymap.items(): print(f"  {k}: {f.title} (id=...)")] *)
Fixpoint print_folder_keys (items : list (string * Folder)) : M unit :=
  match items with
  | [] => ret tt
  | (k, f) :: rest =>
      print (MsgFolderKey k (title f) (folder_id f)) ;;
      print_folder_keys rest
  end.

(** [main], from the check of the folder list on. Its arguments are what
    [list_folders(auth)] and [load_json(RULES_PATH, default={})] gave. *)
Definition main `{L : Library} (fuel : nat) (folders : list Folder) (rules : Rules)
  : M (option Rules) :=
  match folders with
  | [] => throw (SystemExit NoFolders)
  | _ :: _ =>
      let keymap := build_keymap folders 9 in
      print MsgFoldersHeader ;;
      print_folder_keys keymap ;;
      print MsgControls ;;
      session folders keymap fuel rules
  end.

(** ** Vocabulary of the specification *)

(** [d] ends with [p]. *)
Definition ends_with (d p : string) : Prop := exists s, d = s ++ p.

(** [p] is a suffix pattern: it begins with a dot. *)
Definition suffix_pattern (p : string) : Prop := exists t, p = "." ++ t.

(** The suffix pattern [p] matches the domain [d]. *)
Definition suffix_match (d p : string) : Prop :=
  suffix_pattern p /\ ends_with d p.

(** No pattern among the keys of [items] matches [d]. *)
Definition no_suffix_match (d : string) (items : list (string * Z)) : Prop :=
  Forall (fun kv => ~ suffix_match d (fst kv)) items.

(** What the code makes of the outcome of one attempt. *)
Inductive verdict : Type :=
| Success (v : json)     (* the value [api_post] returns *)
| RetrySilent            (* transient status: sleep, [continue] *)
| RetryError (e : exn).  (* an exception: remembered in [last_err], sleep *)

Definition verdict_of (o : outcome) : verdict :=
  match o with
  | Faulted e => RetryError e
  | Responded r =>
      if transient (status_code r) then RetrySilent
      else if (400 <=? status_code r) && (status_code r <? 600)
           then RetryError (HTTPError (status_code r))
      else if Str.nonempty (text r) then
             match body_json r with
             | inr v => Success v
             | inl e => RetryError e
             end
      else Success (JObj [])
  end.

(** [last_err] after a run of failed attempts. *)
Definition last_error (last_err : option exn) (vs : list verdict) : option exn :=
  fold_left (fun acc v => match v with RetryError e => Some e | _ => acc end)
            vs last_err.

(** A transient failure: a transient status or a fault of the transport. *)
Definition transient_failure (o : outcome) : Prop :=
  match o with
  | Responded r => transient (status_code r) = true
  | Faulted _ => True
  end.

(** The attempt answered with a transient status. *)
Definition transient_status (o : outcome) : Prop :=
  exists r, o = Responded r /\ transient (status_code r) = true.

(** A success with result [v]: a status that is neither transient nor an
    error, and a body that is empty ([v] is then the empty object) or
    parses to [v]. *)
Definition succeeds_with (o : outcome) (v : json) : Prop :=
  match o with
  | Responded r =>
      transient (status_code r) = false /\
      (status_code r < 400 \/ 600 <= status_code r) /\
      (if Str.nonempty (text r) then body_json r = inr v else v = JObj [])
  | Faulted _ => False
  end.

(** A status of the 4xx class other than 429. *)
Definition client_error (status : Z) : Prop :=
  400 <= status < 500 /\ status <> 429.

(** The world after [n] more calls of [requests.post] and the given
    effects. *)
Definition advance (w : world) (n : nat) (events : list event) : world :=
  mkWorld (net w) (n + posts w) (stdin w) (fs w) (log w ++ events).

(** The effects of failed attempts: the request, then the sleep. *)
Definition retry_events (url : string) (payload : Dict.t string)
  (attempts : list nat) : list event :=
  flat_map (fun a => [EvPost url payload; EvSleep (backoff a)]) attempts.

(** The outcome of the [j]-th call of [requests.post] from now. *)
Definition upcoming (w : world) (j : nat) : outcome := net w (j + posts w).

(** The number of attempts a call of [api_post] makes. *)
Definition attempts_made (path : string) (data : option (Dict.t string))
  (w : world) : nat :=
  (posts (snd (api_post path data w)) - posts w)%nat.

(** The command a line of input stands for: [input("> ").strip().lower()]. *)
Definition command_of (line : string) : string := Str.lower (Str.strip line).

(** The effects of [save_json(RULES_PATH, rules)]. *)
Definition save_events `{L : Library} (rules : Rules) : list event :=
  [EvMkdir CFG_DIR;
   EvWrite (tmp_of RULES_PATH) (json_dump (rules_json rules));
   EvReplace (tmp_of RULES_PATH) RULES_PATH;
   EvChmod RULES_PATH].

(** What is printed to present an item. *)
Definition presentation (it : Item) (dom : string) (sug_name : option string)
  : list event :=
  [EvPrint (MsgItem (item_id it) (item_title it));
   EvPrint (MsgSource (if Str.nonempty dom then dom else item_url it))]
  ++ match sug_name with
     | Some name =>
         if Str.nonempty name then [EvPrint (MsgSuggestion name)] else []
     | None => []
     end.

(** What the [s] command prints to list the keys. *)
Definition key_listing (keymap : Dict.t Folder) : list event :=
  map (fun kf => EvPrint (MsgKey (fst kf) (title (snd kf)))) keymap.

(** The files after [save_json(path, data)]. *)
Definition fs_saved `{L : Library} (files : Dict.t string) (path : string)
  (data : json) : Dict.t string :=
  fs_replace (Dict.set files (tmp_of path) (json_dump data)) (tmp_of path) path.

(** A command that is none of [q], [n], the empty line, [a] and [s]. *)
Definition other_command (cmd : string) : Prop :=
  cmd <> "q" /\ cmd <> "n" /\ cmd <> "" /\ cmd <> "a" /\ cmd <> "s".

(** The world with one more line read and the given effects logged. *)
Definition consume (w : world) (rest : list string) (events : list event)
  : world :=
  mkWorld (net w) (posts w) rest (fs w) (log w ++ events).

(** The rule file is renamed into place. *)
Definition is_persist (e : event) : bool :=
  match e with
  | EvReplace _ dst => String.eqb dst RULES_PATH
  | _ => false
  end.

(** The report of the [s] command that a rule was saved. *)
Definition is_saved_report (e : event) : bool :=
  match e with
  | EvPrint (MsgSaved _ _) => true
  | _ => false
  end.

(** A request for a move. *)
Definition is_move (e : event) : bool :=
  match e with
  | EvPost url _ => String.eqb url (API_BASE ++ "/bookmarks/move")
  | _ => false
  end.

Definition count (p : event -> bool) (events : list event) : nat :=
  List.length (filter p events).

(** Requests and sleeps: the only effects of [api_post]. *)
Definition network_event (e : event) : Prop :=
  match e with
  | EvPost _ _ | EvSleep _ => True
  | _ => False
  end.

(** Every write of the rule file so far belongs to a report of the [s]
    command. *)
Definition balanced (events : list event) : Prop :=
  count is_persist events = count is_saved_report events.

(** The session went from [w] to [w'] without terminating: it read some
    lines, and what it wrote of the rule file it wrote for [s]
    commands. *)
Definition going (w w' : world) : Prop :=
  (exists events, log w' = (log w ++ events)%list /\ balanced events) /\
  (List.length (stdin w') <= List.length (stdin w))%nat.

(** The two ways the session comes to its end: the empty page, and the
    [q] command. *)
Definition termination_trigger (e : event) : Prop :=
  e = EvPrint MsgNoUnread \/
  exists line, e = EvInput "> " line /\ command_of line = "q".

(** The session went from [w] to its end in [w'] with the table
    [rules]: the last effects are a trigger of termination and one
    [save_json] of [rules], which the rule file then holds. *)
Definition terminated `{L : Library} (rules : Rules) (w w' : world) : Prop :=
  exists events trigger,
    log w' = (log w ++ events ++ trigger :: save_events rules)%list /\
    termination_trigger trigger /\
    balanced events /\
    Dict.get (fs w') RULES_PATH = Some (json_dump (rules_json rules)).

(** A computation that does not terminate the session. *)
Definition quiet {A} (c : M A) : Prop := forall w, going w (snd (c w)).

(** A turn of the loop that goes on to the next one. *)
Definition carries_on (c : M control) : Prop :=
  forall w, going w (snd (c w)) /\ forall rules, fst (c w) <> inr (Quit rules).

(** ** A concrete library, for running the model

    The library functions of [Library], made concrete: the network
    location of a URL of the form [scheme://host/...], decimal integers,
    and the JSON text of a rule file, an object from strings to
    integers: it is written as
    [json.dump(data, f, ensure_ascii=False, indent=2)] writes it, and
    read as [json.load] reads a text of that form. *)

Module Demo.

Definition dquote : ascii := "034"%char.
Definition backslash : ascii := "092"%char.
Definition newline : ascii := "010"%char.

(** *** URLs *)

Definition scheme_char (c : ascii) : bool :=
  let n := nat_of_ascii c in
  ((97 <=? n) && (n <=? 122) || (65 <=? n) && (n <=? 90)
   || (48 <=? n) && (n <=? 57)
   || (n =? 43) || (n =? 45) || (n =? 46))%nat.

(** The text after [scheme:], when the URL begins with a scheme. *)
Fixpoint after_scheme (s : string) : option string :=
  match s with
  | EmptyString => None
  | String c rest =>
      if Ascii.eqb c ":" then Some rest
      else if scheme_char c then after_scheme rest
      else None
  end.

(** Up to the first [/], [?] or [#]. *)
Fixpoint authority (s : string) : string :=
  match s with
  | EmptyString => EmptyString
  | String c rest =>
      if Ascii.eqb c "/" || Ascii.eqb c "?" || Ascii.eqb c "#"
      then EmptyString
      else String c (authority rest)
  end.

Definition netloc (url : string) : exn + string :=
  let rest := match after_scheme url with Some r => r | None => url end in
  match rest with
  | String "/" (String "/" r) => inr (authority r)
  | _ => inr ""
  end.

(** *** Integers *)

Definition parse_int (s : string) : exn + Z :=
  match s with
  | EmptyString => inl ValueError
  | _ =>
      match NilEmpty.int_of_string s with
      | Some (Decimal.Pos Decimal.Nil) | Some (Decimal.Neg Decimal.Nil) | None =>
          inl ValueError
      | Some i => inr (Z.of_int i)
      end
  end.

(** *** JSON text of a rule file *)

Definition hex_digit (n : nat) : ascii :=
  nth n ["0"; "1"; "2"; "3"; "4"; "5"; "6"; "7";
         "8"; "9"; "a"; "b"; "c"; "d"; "e"; "f"]%char "0"%char.

Definition hex_value (c : ascii) : option nat :=
  let n := nat_of_ascii c in
  if ((48 <=? n) && (n <=? 57))%nat then Some (n - 48)%nat
  else if ((97 <=? n) && (n <=? 102))%nat then Some (n - 87)%nat
  else if ((65 <=? n) && (n <=? 70))%nat then Some (n - 55)%nat
  else None.

(** A character inside a JSON string, as [json.dump] writes it with
    [ensure_ascii=False]. *)
Definition escape_char (c : ascii) : string :=
  let n := nat_of_ascii c in
  if Ascii.eqb c dquote then String backslash (String dquote "")
  else if Ascii.eqb c backslash then String backslash (String backslash "")
  else if (n =? 10)%nat then String backslash "n"
  else if (n =? 13)%nat then String backslash "r"
  else if (n =? 9)%nat then String backslash "t"
  else if (n =? 8)%nat then String backslash "b"
  else if (n =? 12)%nat then String backslash "f"
  else if (n <? 32)%nat then
    String backslash
      (String "u" (String "0" (String "0"
         (String (hex_digit (n / 16)) (String (hex_digit (n mod 16)) "")))))
  else String c "".

Fixpoint escape (s : string) : string :=
  match s with
  | EmptyString => EmptyString
  | String c rest => escape_char c ++ escape rest
  end.

Definition quote (s : string) : string :=
  String dquote (escape s ++ String dquote "").

(** The character a one-letter escape stands for. *)
Definition unescape (e : ascii) : option ascii :=
  let n := nat_of_ascii e in
  if Ascii.eqb e dquote then Some dquote
  else if Ascii.eqb e backslash then Some backslash
  else if Ascii.eqb e "/" then Some "/"%char
  else if Ascii.eqb e "n" then Some (ascii_of_nat 10)
  else if Ascii.eqb e "r" then Some (ascii_of_nat 13)
  else if Ascii.eqb e "t" then Some (ascii_of_nat 9)
  else if Ascii.eqb e "b" then Some (ascii_of_nat 8)
  else if Ascii.eqb e "f" then Some (ascii_of_nat 12)
  else None.

(** [\uXXXX], for the code points a [string] can hold. *)
Definition unhex4 (a b c d : ascii) : option ascii :=
  match hex_value a, hex_value b, hex_value c, hex_value d with
  | Some 0%nat, Some 0%nat, Some h, Some l => Some (ascii_of_nat (16 * h + l))
  | _, _, _, _ => None
  end.

Definition cons_char (c : ascii) (r : option (string * string))
  : option (string * string) :=
  match r with
  | Some (s, rest) => Some (String c s, rest)
  | None => None
  end.

(** The characters of a JSON string up to its closing quote, and the
    text after it. *)
Fixpoint parse_chars (s : string) : option (string * string) :=
  match s with
  | EmptyString => None
  | String c rest =>
      if Ascii.eqb c dquote then Some (EmptyString, rest)
      else if Ascii.eqb c backslash then
        match rest with
        | String e rest1 =>
            if Ascii.eqb e "u" then
              match rest1 with
              | String h1 (String h2 (String h3 (String h4 rest2))) =>
                  match unhex4 h1 h2 h3 h4 with
                  | Some ch => cons_char ch (parse_chars rest2)
                  | None => None
                  end
              | _ => None
              end
            else
              match unescape e with
              | Some ch => cons_char ch (parse_chars rest1)
              | None => None
              end
        | EmptyString => None
        end
      else if (nat_of_ascii c <? 32)%nat then None
      else cons_char c (parse_chars rest)
  end.

Definition parse_string (s : string) : option (string * string) :=
  match s with
  | String c rest => if Ascii.eqb c dquote then parse_chars rest else None
  | EmptyString => None
  end.

Definition digit_char (c : ascii) : bool :=
  let n := nat_of_ascii c in ((48 <=? n) && (n <=? 57))%nat.

(** The leading digits of a text and what follows them. *)
Fixpoint span_digits (s : string) : string * string :=
  match s with
  | EmptyString => (EmptyString, EmptyString)
  | String c rest =>
      if digit_char c then
        let (ds, r) := span_digits rest in (String c ds, r)
      else (EmptyString, s)
  end.

(** A JSON integer: an optional minus sign and digits. *)
Definition parse_number (s : string) : option (Z * string) :=
  let (neg, body) :=
    match s with
    | String c rest => if Ascii.eqb c "-" then (true, rest) else (false, s)
    | EmptyString => (false, s)
    end in
  let (ds, rest) := span_digits body in
  match ds with
  | EmptyString => None
  | _ =>
      match NilEmpty.uint_of_string ds with
      | Some u =>
          Some (Z.of_int (if neg then Decimal.Neg u else Decimal.Pos u), rest)
      | None => None
      end
  end.

Definition json_space (c : ascii) : bool :=
  let n := nat_of_ascii c in
  ((n =? 32) || (n =? 10) || (n =? 13) || (n =? 9))%nat.

Fixpoint skip_ws (s : string) : string :=
  match s with
  | EmptyString => EmptyString
  | String c rest => if json_space c then skip_ws rest else s
  end.

(** [c], then white space. *)
Definition expect (c : ascii) (s : string) : option string :=
  match s with
  | String c' rest => if Ascii.eqb c' c then Some (skip_ws rest) else None
  | EmptyString => None
  end.

(** The members of an object, the first one known to be there:
    [key: number], then a comma and more, or the closing brace. *)
Fixpoint parse_members (fuel : nat) (s : string)
  : option (list (string * Z) * string) :=
  match fuel with
  | O => None
  | S fuel' =>
      match parse_string s with
      | None => None
      | Some (k, s1) =>
      match expect ":" (skip_ws s1) with
      | None => None
      | Some s2 =>
      match parse_number s2 with
      | None => None
      | Some (v, s3) =>
      match skip_ws s3 with
      | String c s4 =>
          if Ascii.eqb c "}" then Some ([(k, v)], s4)
          else if Ascii.eqb c "," then
            match parse_members fuel' (skip_ws s4) with
            | Some (more, s5) => Some ((k, v) :: more, s5)
            | None => None
            end
          else None
      | EmptyString => None
      end end end end
  end.

(** The dictionary built from the members in the order they are read:
    a repeated key keeps its first place and takes its last value. *)
Definition of_pairs (pairs : list (string * Z)) : Rules :=
  fold_left (fun d kv => Dict.set d (fst kv) (snd kv)) pairs [].

Definition at_end (s : string) : bool :=
  match skip_ws s with EmptyString => true | _ => false end.

Definition parse_rules (text : string) : option Rules :=
  match expect "{" (skip_ws text) with
  | None => None
  | Some s1 =>
      match s1 with
      | EmptyString => None
      | String c s2 =>
          if Ascii.eqb c "}" then
            if at_end s2 then Some [] else None
          else
            match parse_members (String.length text) s1 with
            | Some (pairs, s3) =>
                if at_end s3 then Some (of_pairs pairs) else None
            | None => None
            end
      end
  end.

Definition dump_member (kv : string * Z) : string :=
  "  " ++ quote (fst kv) ++ ": " ++ Str.of_Z (snd kv).

(** The members after the first one, each after a comma and a line
    break, and the closing brace on a line of its own. *)
Fixpoint dump_more (items : list (string * Z)) : string :=
  match items with
  | [] => String newline "}"
  | kv :: rest =>
      String "," (String newline (dump_member kv ++ dump_more rest))
  end.

Definition dump_rules (rules : Rules) : string :=
  match rules with
  | [] => "{}"
  | kv :: rest => String "{" (String newline (dump_member kv ++ dump_more rest))
  end.

(** The text of the members from a key on. *)
Definition member_text (k : string) (v : Z) (rest : list (string * Z)) : string :=
  quote k ++ (": " ++ (Str.of_Z v ++ dump_more rest)).

(** The text does not go on with a digit. *)
Definition no_digit_ahead (tail : string) : Prop :=
  match tail with
  | EmptyString => True
  | String c _ => digit_char c = false
  end.

Fixpoint rules_of_members (d : list (string * json)) : option Rules :=
  match d with
  | [] => Some []
  | (k, JInt v) :: rest =>
      match rules_of_members rest with
      | Some r => Some ((k, v) :: r)
      | None => None
      end
  | _ => None
  end.

Definition rules_of_json (x : json) : option Rules :=
  match x with
  | JObj d => rules_of_members d
  | _ => None
  end.

Definition dump (x : json) : string :=
  match rules_of_json x with
  | Some rules => dump_rules rules
  | None => "null"
  end.

Definition load (text : string) : exn + json :=
  match parse_rules text with
  | Some rules => inr (rules_json rules)
  | None => inl JSONDecodeError
  end.

Definition library : Library :=
  {| urlparse_netloc := netloc;
     int_of_str := parse_int;
     json_dump := dump;
     json_load := load |}.

(** *** Worlds *)

(** A response with status 200 and the given body. *)
Definition ok (body : json) : outcome :=
  Responded (mkResponse 200 "body" (inr body)).

(** A response with the given status and an empty body. *)
Definition status (code : Z) : outcome :=
  Responded (mkResponse code "" (inl JSONDecodeError)).

(** The network answers with the listed outcomes, then fails to connect. *)
Definition script (outcomes : list outcome) : nat -> outcome :=
  fun n => nth n outcomes (Faulted ConnectionError).

Definition start (outcomes : list outcome) (lines : list string) : world :=
  mkWorld (script outcomes) 0 lines [] [].

(** A bookmark as the service lists it. *)
Definition bookmark (id : Z) (ttl url : string) : json :=
  JObj [("type", JStr "bookmark"); ("bookmark_id", JInt id);
        ("title", JStr ttl); ("url", JStr url)].

(** The answer to [/bookmarks/list]. *)
Definition page (items : list json) : outcome :=
  ok (JObj [("bookmarks", JList items)]).

(** The catalog of the scenarios of the specification. *)
Definition folders3 : list Folder :=
  [mkFolder 1 "Tech"; mkFolder 2 "News"; mkFolder 3 "Archive"].

End Demo.

(** ** More of Python's strings and values *)

Module Text.

(** [s.split(sep)] for a separator of one character: the pieces between
    the separators, at least one. *)
Fixpoint split (sep : ascii) (s : string) : list string :=
  match s with
  | EmptyString => [EmptyString]
  | String c rest =>
      if Ascii.eqb c sep then EmptyString :: split sep rest
      else match split sep rest with
           | piece :: more => String c piece :: more
           | [] => [String c EmptyString]
           end
  end.

(** [s.split(sep, 1)]: cut at the first separator only. *)
Fixpoint split1 (sep : ascii) (s : string) : list string :=
  match s with
  | EmptyString => [EmptyString]
  | String c rest =>
      if Ascii.eqb c sep then [EmptyString; rest]
      else match split1 sep rest with
           | piece :: more => String c piece :: more
           | [] => [String c EmptyString]
           end
  end.

(** [sub in s] for two strings. *)
Fixpoint contains (s sub : string) : bool :=
  if String.prefix sub s then true
  else match s with
       | EmptyString => false
       | String _ rest => contains rest sub
       end.

(** [dict(items)] for an iterable of lists: each must have two elements;
    a key met again keeps its place and takes the new value. *)
Fixpoint dict_of (items : list (list string)) (acc : Dict.t string)
  : exn + Dict.t string :=
  match items with
  | [] => inr acc
  | [k; v] :: rest => dict_of rest (Dict.set acc k v)
  | _ :: _ => inl ValueError
  end.

(** [d[k]] for a dictionary of strings. *)
Definition getitem (d : Dict.t string) (k : string) : exn + string :=
  match Dict.get d k with
  | Some v => inr v
  | None => inl (KeyError k)
  end.

End Text.

(** [k in x] for a string [k]: a key of a dictionary, an element of a
    list, a part of a string; other values are not containers. *)
Definition py_in (k : string) (x : json) : exn + bool :=
  match x with
  | JObj d => inr (Dict.mem d k)
  | JList l => inr (existsb (fun y => Py.eq_str y k) l)
  | JStr s => inr (Text.contains s k)
  | JNull | JBool _ | JInt _ | JFloat _ => inl TypeError
  end.

(** [str(x)]: the text of a string is the string, of an integer its
    decimal digits; [repr] stands for Python's text of a float, a list
    or a dictionary. *)
Definition py_str (repr : json -> string) (x : json) : string :=
  match x with
  | JStr s => s
  | JInt n => Str.of_Z n
  | JBool true => "True"
  | JBool false => "False"
  | JNull => "None"
  | JFloat _ | JList _ | JObj _ => repr x
  end.

(** ** The folder catalog *)

(** The loop of [list_folders] over the entries still to see; [out] is
    the list built so far. *)
Fixpoint collect_folders `{L : Library} (repr : json -> string)
  (entries : list json) (out : list Folder) : exn + list Folder :=
  match entries with
  | [] => inr out
  | x :: rest =>
      match Py.get x "type" with
      | inl e => inl e
      | inr ty =>
          if Py.eq_str ty "folder" then
            match Py.getitem x "folder_id" with
            | inl e => inl e
            | inr i =>
            match Py.int i with
            | inl e => inl e
            | inr id =>
            match Py.getitem x "title" with
            | inl e => inl e
            | inr t =>
                collect_folders repr rest
                  (out ++ [mkFolder id (py_str repr t)])
            end end end
          else collect_folders repr rest out
      end
  end.

(** [list_folders(auth)] *)
Definition list_folders `{L : Library} (repr : json -> string)
  : M (list Folder) :=
  raw <- api_post "/folders/list" (Some []) ;;
  entries <- lift (Py.iter raw) ;;
  lift (collect_folders repr entries []).

(** ** Credentials *)

Definition CRED_PATH : string := CFG_DIR ++ "/credentials.json".

(** [dict(kv.split("=", 1) for kv in r.text.strip().split("&"))] *)
Definition parse_token_body (body : string) : exn + Dict.t string :=
  Text.dict_of (map (Text.split1 "=") (Text.split "&" (Str.strip body))) [].

(** [oauth_access_token_xauth(consumer_key, consumer_secret, username,
    password)]. The consumer key and secret only sign the request and
    are left out. *)
Definition oauth_access_token_xauth (username password : string)
  : M (string * string) :=
  r <- requests_post (API_BASE ++ "/oauth/access_token")
         [("x_auth_username", username);
          ("x_auth_password", password);
          ("x_auth_mode", "client_auth")] ;;
  raise_for_status r ;;
  parts <- lift (parse_token_body (text r)) ;;
  token <- lift (Text.getitem parts "oauth_token") ;;
  secret <- lift (Text.getitem parts "oauth_token_secret") ;;
  ret (token, secret).

(** The environment of the process: [os.getenv]. *)
Definition Env : Type := string -> option string.

(** The messages of the two [SystemExit] raised before the session. *)
Inductive setup_msg : Type :=
| MissingEnv (name : string)   (* f"Missing env: {name}" *)
| NoCachedToken.               (* "No cached token. Set INSTAPAPER_USERNAME ..." *)

(** How the part of the program before the session stops early: by the
    unwinding of something it called, or by a [SystemExit] of its own. *)
Inductive stop : Type :=
| Unwound (u : unwinding)
| SetupExit (m : setup_msg).

Definition Setup (A : Type) : Type := world -> (stop + A) * world.

Definition setup_ret {A} (a : A) : Setup A := fun w => (inr a, w).

Definition setup_bind {A B} (c : Setup A) (k : A -> Setup B) : Setup B :=
  fun w => match c w with
           | (inr a, w') => k a w'
           | (inl s, w') => (inl s, w')
           end.

Definition setup_exit {A} (m : setup_msg) : Setup A :=
  fun w => (inl (SetupExit m), w).

(** A computation of the session's monad, run before the session. *)
Definition call {A} (c : M A) : Setup A :=
  fun w => match c w with
           | (inr a, w') => (inr a, w')
           | (inl u, w') => (inl (Unwound u), w')
           end.

Declare Scope setup_scope.
Delimit Scope setup_scope with setup.
Notation "x <- c ;; k" := (setup_bind c (fun x => k))
  (at level 61, c at next level, right associativity) : setup_scope.
Notation "c ;; k" := (setup_bind c (fun _ => k))
  (at level 61, right associativity) : setup_scope.

(** [require_env(name)] *)
Definition require_env (env : Env) (name : string) : Setup string :=
  match env name with
  | Some v => if Str.nonempty v then setup_ret v else setup_exit (MissingEnv name)
  | None => setup_exit (MissingEnv name)
  end.

(** [cred and "oauth_token" in cred and "oauth_token_secret" in cred] *)
Definition has_tokens (cred : json) : exn + bool :=
  if Py.truthy cred then
    match py_in "oauth_token" cred with
    | inl e => inl e
    | inr false => inr false
    | inr true => py_in "oauth_token_secret" cred
    end
  else inr false.

(** The dictionary [ensure_credentials] saves. *)
Definition token_json (token secret : string) : json :=
  JObj [("oauth_token", JStr token); ("oauth_token_secret", JStr secret)].

(** [ensure_credentials(consumer_key, consumer_secret)] *)
Definition ensure_credentials `{L : Library} (env : Env) : Setup (json * json) :=
  (cred <- call (load_json CRED_PATH JNull) ;;
   cached <- call (lift (has_tokens cred)) ;;
   if cached then
     token <- call (lift (Py.getitem cred "oauth_token")) ;;
     secret <- call (lift (Py.getitem cred "oauth_token_secret")) ;;
     setup_ret (token, secret)
   else
     let username := env "INSTAPAPER_USERNAME" in
     let password := env "INSTAPAPER_PASSWORD" in
     match username, password with
     | Some u, Some p =>
         if Str.nonempty u then
           ts <- call (oauth_access_token_xauth u p) ;;
           call (save_json CRED_PATH (token_json (fst ts) (snd ts))) ;;
           setup_ret (JStr (fst ts), JStr (snd ts))
         else setup_exit NoCachedToken
     | _, _ => setup_exit NoCachedToken
     end)%setup.

(** [main] up to the folder list: the two keys of the consumer, the
    credentials, the catalog. *)
Definition main_setup `{L : Library} (repr : json -> string) (env : Env)
  : Setup (list Folder) :=
  (_ <- require_env env "INSTAPAPER_CONSUMER_KEY" ;;
   _ <- require_env env "INSTAPAPER_CONSUMER_SECRET" ;;
   _ <- ensure_credentials env ;;
   call (list_folders repr))%setup.

(** ** Vocabulary for the properties of the code *)

(** The seconds slept in a run of effects. *)
Fixpoint slept (events : list event) : Q :=
  match events with
  | [] => 0%Q
  | EvSleep d :: rest => (d + slept rest)%Q
  | _ :: rest => slept rest
  end.

(** An effect of a call of [api_post] for [url] and [payload]: that
    request, or one of the six delays. *)
Definition call_event (url : string) (payload : Dict.t string) (e : event)
  : Prop :=
  e = EvPost url payload \/ exists j, (j < 6)%nat /\ e = EvSleep (backoff j).

Definition is_post (e : event) : bool :=
  match e with EvPost _ _ => true | _ => false end.

Definition is_sleep (e : event) : bool :=
  match e with EvSleep _ => true | _ => false end.

(** Every character of [s] passes [p]. *)
Fixpoint all_chars (p : ascii -> bool) (s : string) : bool :=
  match s with
  | EmptyString => true
  | String c rest => p c && all_chars p rest
  end.

(** An entry of a page that the session takes for a bookmark. *)
Definition typed_bookmark (x : json) : bool :=
  match Py.get x "type" with
  | inr ty => Py.eq_str ty "bookmark"
  | inl _ => false
  end.

(** A value that has the method [get]: a dictionary. *)
Definition is_object (x : json) : Prop :=
  match x with JObj _ => True | _ => False end.

(** The table a turn of the loop leaves. *)
Definition table_of (c : control) : Rules :=
  match c with Next rules | Quit rules => rules end.

(** From the table [r] to the table [r']: the keys stay different from
    one another, and no key is lost. *)
Definition table_kept (r r' : Rules) : Prop :=
  (Dict.wf r -> Dict.wf r') /\
  (forall k, Dict.mem r k = true -> Dict.mem r' k = true).

(** After [c], the effects are the ones before and new ones that all
    satisfy [P]. *)
Definition emits (P : event -> Prop) {A} (c : M A) : Prop :=
  forall w, exists ev, log (snd (c w)) = (log w ++ ev)%list /\ Forall P ev.

(** What the session may do: ask for the unread page, ask for a move,
    sleep a delay of the schedule, print, read at one of its two
    prompts, and write the rule file through its temporary file. *)
Definition session_event `{L : Library} (e : event) : Prop :=
  match e with
  | EvPost url data =>
      (url = API_BASE ++ "/bookmarks/list" /\
       data = [("folder_id", "unread"); ("limit", "25")]) \/
      (url = API_BASE ++ "/bookmarks/move" /\
       exists bid fid,
         data = [("bookmark_id", Str.of_Z bid); ("folder_id", Str.of_Z fid)])
  | EvSleep d => exists j, (j < 6)%nat /\ d = backoff j
  | EvPrint _ => True
  | EvInput prompt _ => prompt = "> " \/ prompt = "folder key> "
  | EvMkdir path => path = CFG_DIR
  | EvWrite path content =>
      path = tmp_of RULES_PATH /\
      exists rules, content = json_dump (rules_json rules)
  | EvReplace src dst => src = tmp_of RULES_PATH /\ dst = RULES_PATH
  | EvChmod path => path = RULES_PATH
  end.

(** The character [c] does not occur in [s]. *)
Definition no_char (c : ascii) (s : string) : Prop :=
  all_chars (fun x => negb (Ascii.eqb x c)) s = true.

(** The request of [oauth_access_token_xauth]. *)
Definition token_request (username password : string) : event :=
  EvPost (API_BASE ++ "/oauth/access_token")
    [("x_auth_username", username);
     ("x_auth_password", password);
     ("x_auth_mode", "client_auth")].

(** A folder that [list_folders] makes of an entry of the answer. *)
Definition folder_of_entry `{L : Library} (repr : json -> string)
  (x : json) (f : Folder) : Prop :=
  exists d i t,
    x = JObj d /\
    Dict.get d "folder_id" = Some i /\ Py.int i = inr (folder_id f) /\
    Dict.get d "title" = Some t /\ title f = py_str repr t.

(** An entry of the answer that [list_folders] takes for a folder. *)
Definition typed_folder (x : json) : bool :=
  match Py.get x "type" with
  | inr ty => Py.eq_str ty "folder"
  | inl _ => false
  end.

(** The variable [name] is not set, or set to the empty text. *)
Definition unset (env : Env) (name : string) : Prop :=
  env name = None \/ env name = Some EmptyString.

(** ** A JSON library for the credentials of the examples *)

Module DemoCred.

(** The members of an object of strings, the first one known to be
    there. *)
Fixpoint parse_members (fuel : nat) (s : string)
  : option (list (string * string) * string) :=
  match fuel with
  | O => None
  | S fuel' =>
      match Demo.parse_string s with
      | None => None
      | Some (k, s1) =>
      match Demo.expect ":" (Demo.skip_ws s1) with
      | None => None
      | Some s2 =>
      match Demo.parse_string s2 with
      | None => None
      | Some (v, s3) =>
      match Demo.skip_ws s3 with
      | String c s4 =>
          if Ascii.eqb c "}" then Some ([(k, v)], s4)
          else if Ascii.eqb c "," then
            match parse_members fuel' (Demo.skip_ws s4) with
            | Some (more, s5) => Some ((k, v) :: more, s5)
            | None => None
            end
          else None
      | EmptyString => None
      end end end end
  end.

Definition of_pairs (pairs : list (string * string)) : Dict.t json :=
  fold_left (fun d kv => Dict.set d (fst kv) (JStr (snd kv))) pairs [].

Definition parse_object (text : string) : option json :=
  match Demo.expect "{" (Demo.skip_ws text) with
  | None => None
  | Some s1 =>
      match parse_members (String.length text) s1 with
      | Some (pairs, s3) =>
          if Demo.at_end s3 then Some (JObj (of_pairs pairs)) else None
      | None => None
      end
  end.

Definition dump_member (kv : string * string) : string :=
  "  " ++ Demo.quote (fst kv) ++ ": " ++ Demo.quote (snd kv).

Fixpoint dump_more (items : list (string * string)) : string :=
  match items with
  | [] => String Demo.newline "}"
  | kv :: rest =>
      String "," (String Demo.newline (dump_member kv ++ dump_more rest))
  end.

Fixpoint strings_of_members (d : list (string * json))
  : option (list (string * string)) :=
  match d with
  | [] => Some []
  | (k, JStr v) :: rest =>
      match strings_of_members rest with
      | Some r => Some ((k, v) :: r)
      | None => None
      end
  | _ => None
  end.

(** An object of strings that is not empty is written here; the rest is
    left to the library of the rule tables. *)
Definition dump (x : json) : string :=
  match x with
  | JObj ((k, JStr v) :: rest) =>
      match strings_of_members rest with
      | Some more =>
          String "{" (String Demo.newline
                        (dump_member (k, v) ++ dump_more more))
      | None => Demo.dump x
      end
  | _ => Demo.dump x
  end.

Definition load (text : string) : exn + json :=
  match parse_object text with
  | Some x => inr x
  | None => Demo.load text
  end.

Definition library : Library :=
  {| urlparse_netloc := Demo.netloc;
     int_of_str := Demo.parse_int;
     json_dump := dump;
     json_load := load |}.

(** The answer of the token endpoint. *)
Definition token_answer (body : string) : outcome :=
  Responded (mkResponse 200 body (inl JSONDecodeError)).

(** An environment with the four variables set. *)
Definition env : Env :=
  fun name =>
    if String.eqb name "INSTAPAPER_CONSUMER_KEY" then Some "key"
    else if String.eqb name "INSTAPAPER_CONSUMER_SECRET" then Some "secret"
    else if String.eqb name "INSTAPAPER_USERNAME" then Some "me@example.org"
    else if String.eqb name "INSTAPAPER_PASSWORD" then Some "pw"
    else None.

(** An environment with the two variables of the consumer only. *)
Definition env_consumer : Env :=
  fun name =>
    if String.eqb name "INSTAPAPER_CONSUMER_KEY" then Some "key"
    else if String.eqb name "INSTAPAPER_CONSUMER_SECRET" then Some "secret"
    else None.

(** An entry of the answer to [/folders/list]. *)
Definition entry (type : string) (id : Z) (ttl : string) : json :=
  JObj [("type", JStr type); ("folder_id", JInt id); ("title", JStr ttl)].

(** [repr] of the values the examples do not meet. *)
Definition repr (x : json) : string := "?".

End DemoCred.

(** The field [k] of a bookmark is blank: missing, null, or a text of
    white space only. *)
Definition blank_field (d : Dict.t json) (k : string) : Prop :=
  Dict.get d k = None \/ Dict.get d k = Some JNull \/
  exists s, Dict.get d k = Some (JStr s) /\ all_chars Str.isspace s = true.

(** The field [k] of a bookmark is missing, null or a text. *)
Definition text_field (d : Dict.t json) (k : string) : Prop :=
  Dict.get d k = None \/ Dict.get d k = Some JNull \/
  exists s, Dict.get d k = Some (JStr s).

(** The characters NEXT LINE (U+0085), NO-BREAK SPACE (U+00A0) and
    LATIN CAPITAL LETTER E WITH ACUTE (U+00C9) and its small letter
    (U+00E9). *)
Definition NEL : ascii := "133"%char.
Definition NBSP : ascii := "160"%char.
Definition E_ACUTE : ascii := "201"%char.
Definition e_acute : ascii := "233"%char.

(** * Theorems *)

(** ** Strings and dictionaries *)

Lemma startswith_dot (k : string) :
  Str.startswith k "." = true <-> suffix_pattern k.
Proof.
  unfold Str.startswith, suffix_pattern. split.
  - destruct k as [|c k']; [discriminate|].
    cbn [String.prefix].
    destruct (Ascii.ascii_dec "."%char c) as [<-|n]; [|discriminate].
    intros _. exists k'. reflexivity.
  - intros [t ->]. cbn [append String.prefix].
    destruct (Ascii.ascii_dec "."%char "."%char) as [_|n]; [|congruence].
    destruct t; reflexivity.
Qed.

Lemma endswith_ends_with (s p : string) :
  Str.endswith s p = true <-> ends_with s p.
Proof.
  unfold ends_with. split.
  - induction s as [|c s' IH]; cbn [Str.endswith].
    + destruct (String.eqb_spec "" p) as [<-|]; [|discriminate].
      intros _. exists "". reflexivity.
    + destruct (String.eqb_spec (String c s') p) as [<-|_].
      * intros _. exists "". reflexivity.
      * intros E. destruct (IH E) as [pre ->].
        exists (String c pre). reflexivity.
  - intros [pre E]. revert s E.
    induction pre as [|c pre' IH]; intros s E; simpl in E; subst s.
    + destruct p; cbn [append Str.endswith]; rewrite String.eqb_refl; reflexivity.
    + cbn [append Str.endswith].
      destruct (String.eqb (String c (pre' ++ p)) p); [reflexivity|].
      apply IH. reflexivity.
Qed.

Lemma suffix_match_dec (d k : string) :
  Str.startswith k "." && Str.endswith d k = true <-> suffix_match d k.
Proof.
  unfold suffix_match.
  rewrite andb_true_iff, startswith_dot, endswith_ends_with. tauto.
Qed.

(** The scan of [suggest_folder] stops at the first matching pattern. *)
Lemma first_suffix_rule_some (d : string) (items : list (string * Z)) (v : Z) :
  first_suffix_rule d items = Some v ->
  exists pre p post,
    items = (pre ++ (p, v) :: post)%list /\ suffix_match d p /\ no_suffix_match d pre.
Proof.
  induction items as [|[k u] rest IH]; simpl; [discriminate|].
  destruct (Str.startswith k "." && Str.endswith d k) eqn:E.
  - intros [= <-]. exists [], k, rest.
    split; [reflexivity|]. split; [apply suffix_match_dec; exact E|constructor].
  - intros F. destruct (IH F) as (pre & p & post & -> & Hm & Hn).
    exists ((k, u) :: pre), p, post.
    split; [reflexivity|]. split; [exact Hm|].
    constructor; [|exact Hn].
    simpl. intros Hk. apply suffix_match_dec in Hk. congruence.
Qed.

Lemma first_suffix_rule_none (d : string) (items : list (string * Z)) :
  first_suffix_rule d items = None -> no_suffix_match d items.
Proof.
  induction items as [|[k u] rest IH]; simpl; [constructor|].
  destruct (Str.startswith k "." && Str.endswith d k) eqn:E; [discriminate|].
  intros F. constructor; [|exact (IH F)].
  simpl. intros Hk. apply suffix_match_dec in Hk. congruence.
Qed.

(** ** Rule matching *)

(** C4. An exact key of the rule table decides the suggestion, whatever
    suffix patterns also match; without an exact key the suggestion is
    the folder of the first suffix pattern, in the order of the table,
    that the domain ends with, and there is none when no pattern
    matches. *)
Theorem suggest_folder_exact_then_first_suffix (d : string) (R : Rules) :
  (forall v, Dict.get R d = Some v -> suggest_folder d R = Some v) /\
  (Dict.get R d = None ->
   (exists pre p v post,
       R = (pre ++ (p, v) :: post)%list /\ suffix_match d p /\
       no_suffix_match d pre /\ suggest_folder d R = Some v)
   \/ (no_suffix_match d R /\ suggest_folder d R = None)).
Proof.
  unfold suggest_folder. split.
  - intros v ->. reflexivity.
  - intros ->. destruct (first_suffix_rule d R) as [v|] eqn:E.
    + left. destruct (first_suffix_rule_some _ _ _ E) as (pre & p & post & HR & Hm & Hn).
      exists pre, p, v, post. auto.
    + right. split; [apply first_suffix_rule_none; exact E|reflexivity].
Qed.

Lemma suggest_folder_exact_then_first_suffix_witness :
  let d := "blog.example.com" in
  let R1 := [(".example.com", 3); ("blog.example.com", 2)] in
  let R2 := [(".com", 1); (".example.com", 3)] in
  (Dict.get R1 d = Some 2 /\ suggest_folder d R1 = Some 2) /\
  (Dict.get R2 d = None /\
   ((exists pre p v post,
        R2 = (pre ++ (p, v) :: post)%list /\ suffix_match d p /\
        no_suffix_match d pre /\ suggest_folder d R2 = Some v)
    \/ (no_suffix_match d R2 /\ suggest_folder d R2 = None))).
Proof.
  intros d R1 R2. split; (split; [reflexivity|]).
  - apply (proj1 (suggest_folder_exact_then_first_suffix d R1)). reflexivity.
  - apply (proj2 (suggest_folder_exact_then_first_suffix d R2)). reflexivity.
Defined.

(** ** The API operation wrapper *)

Lemma advance_advance (w : world) (a b : nat) (e1 e2 : list event) :
  advance (advance w a e1) b e2 = advance w (a + b) (e1 ++ e2).
Proof.
  unfold advance; simpl. f_equal; [lia|]. rewrite app_assoc. reflexivity.
Qed.

Lemma advance_zero (w : world) : advance w 0 [] = w.
Proof. destruct w. unfold advance; simpl. rewrite app_nil_r. reflexivity. Qed.

(** One turn of the loop of [api_post]. *)
Lemma attempt_step (url : string) (payload : Dict.t string) (attempt : nat)
  (le : option exn) (w : world) :
  try_except
    (e <- attempt_body url payload attempt ;; ret (e, le))
    (fun e => sleep (backoff attempt) ;; ret (Continue, Some e)) w
  = match verdict_of (net w (posts w)) with
    | Success v => (inr (Return v, le), advance w 1 [EvPost url payload])
    | RetrySilent =>
        (inr (Continue, le),
         advance w 1 [EvPost url payload; EvSleep (backoff attempt)])
    | RetryError e =>
        (inr (Continue, Some e),
         advance w 1 [EvPost url payload; EvSleep (backoff attempt)])
    end.
Proof.
  unfold try_except, attempt_body, bind, requests_post, verdict_of,
    raise_for_status, sleep, ret, throw, lift, emit, advance.
  destruct (net w (posts w)) as [r|e]; simpl.
  - destruct (transient (status_code r)); simpl.
    + rewrite <- app_assoc. reflexivity.
    + destruct ((400 <=? status_code r) && (status_code r <? 600)); simpl.
      * rewrite <- app_assoc. reflexivity.
      * destruct (Str.nonempty (text r)); simpl; [|reflexivity].
        destruct (body_json r); simpl; [|reflexivity].
        rewrite <- app_assoc. reflexivity.
  - rewrite <- app_assoc. reflexivity.
Qed.

Section ApiPostLoop.
Variables (path url : string) (payload : Dict.t string).

Lemma upcoming_advance (w : world) (n : nat) (ev : list event) (j : nat) :
  upcoming (advance w n ev) j = upcoming w (n + j).
Proof. unfold upcoming, advance; simpl. f_equal. lia. Qed.

Lemma api_post_loop_cons (le : option exn) (attempt : nat) (rest : list nat)
  (w : world) :
  api_post_loop path url payload le (attempt :: rest) w
  = match verdict_of (upcoming w 0) with
    | Success v => (inr v, advance w 1 [EvPost url payload])
    | RetrySilent =>
        api_post_loop path url payload le rest
          (advance w 1 [EvPost url payload; EvSleep (backoff attempt)])
    | RetryError e =>
        api_post_loop path url payload (Some e) rest
          (advance w 1 [EvPost url payload; EvSleep (backoff attempt)])
    end.
Proof.
  cbn [api_post_loop]. unfold bind at 1. rewrite attempt_step.
  unfold upcoming. simpl.
  destruct (verdict_of (net w (posts w))); reflexivity.
Qed.

(** The loop never makes more calls than it has attempts, leaves the
    input and the files alone, and only sends requests and sleeps. *)
Lemma api_post_loop_frame (attempts : list nat) :
  forall (le : option exn) (w : world),
    let w' := snd (api_post_loop path url payload le attempts w) in
    exists n ev,
      w' = advance w n ev /\ (n <= List.length attempts)%nat /\
      Forall network_event ev.
Proof.
  induction attempts as [|a rest IH]; intros le w.
  - simpl. exists 0%nat, []. rewrite advance_zero. auto.
  - cbv zeta. rewrite api_post_loop_cons.
    destruct (verdict_of (upcoming w 0)) as [v| |e].
    + exists 1%nat, [EvPost url payload]. simpl.
      repeat split; [lia|repeat constructor].
    + destruct (IH le (advance w 1 [EvPost url payload; EvSleep (backoff a)]))
        as (n & ev & -> & Hn & Hev).
      rewrite advance_advance. eexists _, _. split; [reflexivity|].
      split; [simpl; lia|]. repeat constructor. exact Hev.
    + destruct (IH (Some e) (advance w 1 [EvPost url payload; EvSleep (backoff a)]))
        as (n & ev & -> & Hn & Hev).
      rewrite advance_advance. eexists _, _. split; [reflexivity|].
      split; [simpl; lia|]. repeat constructor. exact Hev.
Qed.

(** Whatever happens, the loop returns a value or leaves by
    [SystemExit]: no [Exception] comes out of it. *)
Lemma api_post_loop_no_exception (attempts : list nat) :
  forall (le : option exn) (w : world) (e : exn),
    fst (api_post_loop path url payload le attempts w) <> inl (Raise e).
Proof.
  induction attempts as [|a rest IH]; intros le w e.
  - simpl. discriminate.
  - rewrite api_post_loop_cons.
    destruct (verdict_of (upcoming w 0)); [simpl; discriminate|apply IH..].
Qed.

(** The first [k] attempts fail, the next one succeeds. *)
Lemma api_post_loop_success (attempts : list nat) :
  forall (le : option exn) (w : world) (k : nat) (v : json),
    (k < List.length attempts)%nat ->
    (forall j, (j < k)%nat -> forall u, verdict_of (upcoming w j) <> Success u) ->
    verdict_of (upcoming w k) = Success v ->
    api_post_loop path url payload le attempts w
    = (inr v,
       advance w (S k)
         (retry_events url payload (firstn k attempts) ++ [EvPost url payload])).
Proof.
  induction attempts as [|a rest IH]; intros le w k v Hk Hfail Hok.
  - simpl in Hk. lia.
  - rewrite api_post_loop_cons. destruct k as [|k].
    + rewrite Hok. reflexivity.
    + assert (H0 := Hfail 0%nat ltac:(lia)).
      assert (Hrest : forall le',
        api_post_loop path url payload le' rest
          (advance w 1 [EvPost url payload; EvSleep (backoff a)])
        = (inr v,
           advance w (S (S k))
             (retry_events url payload (firstn (S k) (a :: rest))
              ++ [EvPost url payload]))).
      { intros le'. rewrite (IH le' _ k v).
        - rewrite advance_advance. reflexivity.
        - simpl in Hk. lia.
        - intros j Hj u. rewrite upcoming_advance. apply Hfail. lia.
        - rewrite upcoming_advance. exact Hok. }
      destruct (verdict_of (upcoming w 0)) as [u| |e];
        [exfalso; exact (H0 u eq_refl)|apply Hrest..].
Qed.

(** Every attempt fails. *)
Lemma api_post_loop_exhausted (attempts : list nat) :
  forall (le : option exn) (w : world),
    (forall j, (j < List.length attempts)%nat ->
               forall u, verdict_of (upcoming w j) <> Success u) ->
    api_post_loop path url payload le attempts w
    = (inl (SystemExit
              (ApiRequestFailed path
                 (last_error le
                    (map (fun j => verdict_of (upcoming w j))
                         (seq 0 (List.length attempts)))))),
       advance w (List.length attempts) (retry_events url payload attempts)).
Proof.
  induction attempts as [|a rest IH]; intros le w Hfail.
  - simpl. unfold throw. rewrite advance_zero. reflexivity.
  - rewrite api_post_loop_cons.
    assert (H0 := Hfail 0%nat ltac:(simpl; lia)).
    assert (Hrest : forall le',
      api_post_loop path url payload le' rest
        (advance w 1 [EvPost url payload; EvSleep (backoff a)])
      = (inl (SystemExit
                (ApiRequestFailed path
                   (last_error le'
                      (map (fun j => verdict_of (upcoming w j))
                           (seq 1 (List.length rest)))))),
         advance w (List.length (a :: rest))
           (retry_events url payload (a :: rest)))).
    { intros le'. rewrite IH.
      - rewrite advance_advance, <- seq_shift, map_map.
        rewrite (map_ext _ (fun x => verdict_of (upcoming w (S x)))).
        + reflexivity.
        + intros j. rewrite upcoming_advance. reflexivity.
      - intros j Hj u. rewrite upcoming_advance. apply Hfail. simpl. lia. }
    cbn [List.length seq map]. unfold last_error at 1. cbn [fold_left].
    destruct (verdict_of (upcoming w 0)) as [u| |e];
      [exfalso; exact (H0 u eq_refl)|apply Hrest..].
Qed.

End ApiPostLoop.

Lemma transient_failure_verdict (o : outcome) :
  transient_failure o -> forall u, verdict_of o <> Success u.
Proof.
  destruct o as [r|e]; simpl; [|discriminate].
  intros -> u. discriminate.
Qed.

Lemma succeeds_with_verdict (o : outcome) (v : json) :
  succeeds_with o v -> verdict_of o = Success v.
Proof.
  destruct o as [r|e]; simpl; [|tauto].
  intros (-> & Hs & Hb).
  replace ((400 <=? status_code r) && (status_code r <? 600)) with false
    by (symmetry; apply andb_false_iff; lia).
  destruct (Str.nonempty (text r)); [rewrite Hb|subst v]; reflexivity.
Qed.

Lemma last_error_silent (vs : list verdict) (le : option exn) :
  Forall (fun v => v = RetrySilent) vs -> last_error le vs = le.
Proof.
  unfold last_error. revert le.
  induction vs as [|v vs IH]; intros le Hall; [reflexivity|].
  inversion Hall as [|? ? -> Hvs]; subst. simpl. apply IH. exact Hvs.
Qed.

(** [last_err] is the exception of the last attempt that raised one. *)
Lemma last_error_last_raised (vs : list verdict) :
  forall (le : option exn) (j : nat) (e : exn),
    nth_error vs j = Some (RetryError e) ->
    (forall i v, (j < i)%nat -> nth_error vs i = Some v -> v = RetrySilent) ->
    last_error le vs = Some e.
Proof.
  induction vs as [|v vs IH]; intros le j e Hj Hafter.
  - destruct j; discriminate.
  - destruct j as [|j]; simpl in Hj.
    + injection Hj as ->. unfold last_error. simpl.
      apply (last_error_silent vs (Some e)).
      apply Forall_forall. intros x Hx.
      destruct (In_nth_error _ _ Hx) as [i Hi].
      apply (Hafter (S i) x); [lia|exact Hi].
    + unfold last_error. simpl. apply IH with (j := j); [exact Hj|].
      intros i x Hi Hx. apply (Hafter (S i) x); [lia|exact Hx].
Qed.

Lemma nth_error_map_seq {A} (f : nat -> A) (n j : nat) :
  (j < n)%nat -> nth_error (map f (seq 0 n)) j = Some (f j).
Proof.
  intros Hj. rewrite nth_error_map, nth_error_seq.
  destruct (Nat.ltb_spec j n); [reflexivity|lia].
Qed.

Lemma firstn_seq_le (k : nat) :
  forall s n, (k <= n)%nat -> firstn k (seq s n) = seq s k.
Proof.
  induction k as [|k IH]; intros s n Hk; [reflexivity|].
  destruct n as [|n]; [lia|]. simpl. f_equal. apply IH. lia.
Qed.

(** The six delays in seconds: 0.6, 1.2, 2.4, 4.8, 9.6 and 19.2. *)
Lemma backoff_values :
  Forall2 Qeq (map backoff (seq 0 6))
    [6 # 10; 12 # 10; 24 # 10; 48 # 10; 96 # 10; 192 # 10]%Q.
Proof. repeat constructor. Qed.

(** [api_post] returns a value or leaves by [SystemExit]; no
    [Exception] comes out of it. *)
Lemma api_post_no_exception (path : string) (data : option (Dict.t string))
  (w : world) (e : exn) :
  fst (api_post path data w) <> inl (Raise e).
Proof. apply api_post_loop_no_exception. Qed.

(** C1, amended. A call of [api_post] makes at most 6 attempts. An
    attempt that meets a transient status (429, 500, 502, 503, 504) or a
    fault of the transport is followed by a sleep of [0.6 * 2^n] seconds,
    [n] being its 0-based index, and, if it was not the sixth, by a new
    attempt. When attempts [0..k-1] fail in this way and attempt [k < 6]
    succeeds, the call returns the parsed result of attempt [k] (the
    empty object for an empty body) after exactly [k + 1] attempts. When
    all six fail in this way, the call ends in [SystemExit] after exactly
    six attempts and six sleeps, and the message carries the exception of
    the last attempt that raised one. *)
Theorem api_post_bounded_retry (path : string) (data : option (Dict.t string))
  (w : world) :
  let url := API_BASE ++ path in
  let payload := match data with Some d => d | None => [] end in
  (attempts_made path data w <= 6)%nat /\
  (forall k v,
      (k < 6)%nat ->
      (forall j, (j < k)%nat -> transient_failure (upcoming w j)) ->
      succeeds_with (upcoming w k) v ->
      api_post path data w
      = (inr v,
         advance w (S k)
           (retry_events url payload (seq 0 k) ++ [EvPost url payload]))) /\
  ((forall j, (j < 6)%nat -> transient_failure (upcoming w j)) ->
   exists last_err,
     api_post path data w
     = (inl (SystemExit (ApiRequestFailed path last_err)),
        advance w 6 (retry_events url payload (seq 0 6))) /\
     forall j e,
       (j < 6)%nat -> upcoming w j = Faulted e ->
       (forall i, (j < i < 6)%nat -> transient_status (upcoming w i)) ->
       last_err = Some e) /\
  (forall n, backoff n == (6 # 10) * inject_Z (2 ^ Z.of_nat n))%Q.
Proof.
  intros url payload. split; [|split; [|split]].
  - unfold attempts_made, api_post. fold url payload.
    destruct (api_post_loop_frame path url payload (seq 0 6) None w)
      as (n & ev & -> & Hn & _).
    rewrite length_seq in Hn. simpl. lia.
  - intros k v Hk Hfail Hok. unfold api_post. fold url payload.
    rewrite (api_post_loop_success path url payload (seq 0 6) None w k v).
    + rewrite firstn_seq_le by lia. reflexivity.
    + rewrite length_seq. exact Hk.
    + intros j Hj. apply transient_failure_verdict, Hfail, Hj.
    + apply succeeds_with_verdict, Hok.
  - intros Hfail. unfold api_post. fold url payload.
    rewrite (api_post_loop_exhausted path url payload (seq 0 6) None w).
    + rewrite length_seq. eexists. split; [reflexivity|].
      intros j e Hj Hje Hafter.
      apply last_error_last_raised with (j := j).
      * rewrite nth_error_map_seq by exact Hj. rewrite Hje. reflexivity.
      * intros i v Hi Hv.
        destruct (Nat.lt_ge_cases i 6) as [Hi6|Hi6].
        -- rewrite nth_error_map_seq in Hv by exact Hi6.
           injection Hv as <-.
           destruct (Hafter i ltac:(lia)) as (r & -> & Ht).
           simpl. rewrite Ht. reflexivity.
        -- assert (Hn : nth_error
                          (map (fun j0 => verdict_of (upcoming w j0)) (seq 0 6)) i
                        = None)
             by (apply nth_error_None; rewrite length_map, length_seq; exact Hi6).
           rewrite Hn in Hv. discriminate.
    + rewrite length_seq. intros j Hj.
      apply transient_failure_verdict, Hfail, Hj.
  - intros n. reflexivity.
Qed.

Lemma api_post_bounded_retry_witness :
  let w := Demo.start [Demo.status 503; Faulted Timeout; Demo.ok (JInt 7)] [] in
  let url := API_BASE ++ "/folders/list" in
  api_post "/folders/list" None w
  = (inr (JInt 7),
     advance w 3 (retry_events url [] (seq 0 2) ++ [EvPost url []])).
Proof.
  intros w url.
  apply (proj1 (proj2 (api_post_bounded_retry "/folders/list" None w)) 2%nat).
  - lia.
  - intros [|[|j]] Hj; [reflexivity|exact I|lia].
  - simpl. split; [reflexivity|]. split; [left; lia|reflexivity].
Defined.

(** C1, as stated, fails in three places. A 404 answer is neither a
    transient status nor a fault of the transport, and the attempt is
    retried all the same. Nothing is slept before attempt 0, and the
    sleep before attempt 1 is 0.6 s, not [0.6 * 2^1]. After six transient
    statuses the exit carries no error. *)
Lemma api_post_retry_claim_fails :
  let path := "/bookmarks/move" in
  let url := API_BASE ++ path in
  (let w := Demo.start [Demo.status 404; Demo.ok (JObj [])] [] in
   ~ transient_failure (upcoming w 0) /\ attempts_made path None w = 2%nat) /\
  (let w := Demo.start [Demo.status 503; Demo.ok (JObj [])] [] in
   log (snd (api_post path None w))
   = [EvPost url []; EvSleep (backoff 0); EvPost url []] /\
   ~ (backoff 0 == (6 # 10) * inject_Z (2 ^ 1))%Q) /\
  (let w := Demo.start (repeat (Demo.status 503) 6) [] in
   fst (api_post path None w) = inl (SystemExit (ApiRequestFailed path None))).
Proof.
  split; [|split].
  - split; [simpl; discriminate|vm_compute; reflexivity].
  - split; [vm_compute; reflexivity|].
    unfold backoff, Qeq. simpl. lia.
  - vm_compute. reflexivity.
Qed.

(** C2 at its failing input. The first answer to a move request is 404,
    a client error other than 429: [api_post] sleeps 0.6 s and sends the
    request again, and returns what the second attempt brings. Six 404
    answers in a row end in [SystemExit] after six attempts. *)
Theorem api_post_client_error_retried :
  let path := "/bookmarks/move" in
  let url := API_BASE ++ path in
  let payload := [("bookmark_id", "1"); ("folder_id", "2")] in
  client_error 404 /\
  (let w := Demo.start [Demo.status 404; Demo.ok (JObj [])] [] in
   api_post path (Some payload) w
   = (inr (JObj []),
      advance w 2 [EvPost url payload; EvSleep (backoff 0); EvPost url payload])) /\
  (let w := Demo.start (repeat (Demo.status 404) 6) [] in
   fst (api_post path (Some payload) w)
   = inl (SystemExit (ApiRequestFailed path (Some (HTTPError 404)))) /\
   attempts_made path (Some payload) w = 6%nat).
Proof.
  split; [unfold client_error; lia|].
  split; [vm_compute; reflexivity|].
  split; vm_compute; reflexivity.
Qed.

(** ** Dictionaries *)

Lemma dict_get_set_same {V} (d : Dict.t V) (k : string) (v : V) :
  Dict.get (Dict.set d k v) k = Some v.
Proof.
  induction d as [|[k' v'] d IH]; simpl.
  - rewrite String.eqb_refl. reflexivity.
  - destruct (String.eqb k' k) eqn:E; simpl; rewrite E; [reflexivity|exact IH].
Qed.

Lemma dict_get_set_other {V} (d : Dict.t V) (k k0 : string) (v : V) :
  k0 <> k -> Dict.get (Dict.set d k v) k0 = Dict.get d k0.
Proof.
  intros Hk. induction d as [|[k' v'] d IH]; simpl.
  - destruct (String.eqb_spec k k0); [congruence|reflexivity].
  - destruct (String.eqb_spec k' k) as [->|Hk']; simpl.
    + destruct (String.eqb_spec k k0); [congruence|reflexivity].
    + destruct (String.eqb k' k0); [reflexivity|exact IH].
Qed.

Lemma dict_setdefault_present {V} (d : Dict.t V) (k : string) (v v0 : V) :
  Dict.get d k = Some v0 -> Dict.setdefault d k v = d.
Proof. unfold Dict.setdefault, Dict.mem. intros ->. reflexivity. Qed.

Lemma dict_setdefault_absent {V} (d : Dict.t V) (k : string) (v : V) :
  Dict.get d k = None ->
  Dict.setdefault d k v = (d ++ [(k, v)])%list.
Proof.
  unfold Dict.setdefault, Dict.mem. intros E. rewrite E.
  induction d as [|[k' v'] d IH]; simpl in *; [reflexivity|].
  destruct (String.eqb k' k); [discriminate|]. rewrite (IH E). reflexivity.
Qed.

(** ** Counting effects *)

Lemma count_app (p : event -> bool) (l1 l2 : list event) :
  count p (l1 ++ l2) = (count p l1 + count p l2)%nat.
Proof. unfold count. rewrite filter_app, length_app. reflexivity. Qed.

Lemma count_network_zero (p : event -> bool) (ev : list event) :
  (forall e, network_event e -> p e = false) ->
  Forall network_event ev -> count p ev = 0%nat.
Proof.
  intros Hp Hev. induction Hev as [|e ev He _ IH]; [reflexivity|].
  unfold count in *. simpl. rewrite (Hp e He). exact IH.
Qed.

Lemma persist_not_network (e : event) : network_event e -> is_persist e = false.
Proof. destruct e; simpl; tauto. Qed.

Lemma saved_report_not_network (e : event) :
  network_event e -> is_saved_report e = false.
Proof. destruct e; simpl; tauto. Qed.

(** ** The session *)

Lemma api_post_frame (path : string) (data : option (Dict.t string))
  (w : world) :
  exists n ev,
    snd (api_post path data w) = advance w n ev /\ (n <= 6)%nat /\
    Forall network_event ev.
Proof.
  unfold api_post.
  destruct (api_post_loop_frame path (API_BASE ++ path)
              match data with Some d => d | None => [] end
              (seq 0 6) None w) as (n & ev & Hw & Hn & Hev).
  rewrite length_seq in Hn. exists n, ev. auto.
Qed.

Lemma consume_consume (w : world) (r1 r2 : list string) (e1 e2 : list event) :
  consume (consume w r1 e1) r2 e2 = consume w r2 (e1 ++ e2).
Proof. unfold consume; simpl. rewrite app_assoc. reflexivity. Qed.

Lemma bind_print {A} (m : message) (k : unit -> M A) (w : world) :
  bind (print m) k w = k tt (consume w (stdin w) [EvPrint m]).
Proof. reflexivity. Qed.

Lemma bind_print_consume {A} (m : message) (k : unit -> M A) (w : world)
  (rest : list string) (ev : list event) :
  bind (print m) k (consume w rest ev)
  = k tt (consume w rest (ev ++ [EvPrint m])).
Proof. rewrite bind_print, consume_consume. reflexivity. Qed.

(** A move returns or leaves by [SystemExit]; it only sends requests and
    sleeps. *)
Lemma move_bookmark_cases (bid fid : Z) (w : world) :
  exists n ev,
    (n <= 6)%nat /\ Forall network_event ev /\
    (move_bookmark bid fid w = (inr tt, advance w n ev) \/
     exists m, move_bookmark bid fid w = (inl (SystemExit m), advance w n ev)).
Proof.
  unfold move_bookmark, bind.
  set (data := Some _).
  pose proof (api_post_no_exception "/bookmarks/move" data w) as Hne.
  destruct (api_post_frame "/bookmarks/move" data w) as (n & ev & Hw & Hn & Hev).
  destruct (api_post "/bookmarks/move" data w) as [[[e|m]|v] w'];
    simpl in Hw; subst w'; exists n, ev; (split; [exact Hn|split; [exact Hev|]]).
  - exfalso. exact (Hne e eq_refl).
  - right. exists m. reflexivity.
  - left. reflexivity.
Qed.

(** After [save_json(path, data)] the file at [path] holds the text of
    [data]. *)
Lemma fs_saved_get `{Library} (files : Dict.t string) (path : string)
  (data : json) :
  Dict.get (fs_saved files path data) path = Some (json_dump data).
Proof.
  unfold fs_saved, fs_replace.
  rewrite dict_get_set_same. apply dict_get_set_same.
Qed.

Section SessionFacts.
Context `{L : Library}.
Variable folders : list Folder.
Variable keymap : Dict.t Folder.

Lemma show_item_run (it : Item) (dom : string) (sug_name : option string)
  (w : world) :
  show_item it dom sug_name w
  = (inr tt, consume w (stdin w) (presentation it dom sug_name)).
Proof.
  unfold show_item, presentation, bind, print, emit, ret, consume.
  destruct sug_name as [name|]; simpl.
  - destruct (Str.nonempty name); simpl; rewrite <- ?app_assoc; reflexivity.
  - rewrite <- app_assoc. reflexivity.
Qed.

(** The loop body up to the prompt: the item is read and presented, and
    one line is taken from the input. *)
Lemma process_item_prompted (rules : Rules) (b : json) (it : Item)
  (line : string) (rest : list string) (w : world) :
  read_item b = inr it ->
  stdin w = line :: rest ->
  let dom := domain_of (item_url it) in
  let sid := suggestion_for dom rules in
  let sname := suggestion_name folders sid in
  process_item folders keymap rules b w
  = run_command keymap it rules dom sid sname (command_of line)
      (consume w rest (presentation it dom sname ++ [EvInput "> " line])).
Proof.
  intros Hit Hin dom sid sname.
  unfold process_item. rewrite Hit. unfold bind at 1. simpl.
  fold dom. fold sid. fold sname.
  unfold bind at 1. rewrite show_item_run.
  unfold bind at 1. unfold input at 1. simpl. rewrite Hin.
  unfold command_of, consume. simpl. rewrite <- app_assoc. reflexivity.
Qed.

Lemma save_json_run (path : string) (data : json) (w : world) :
  save_json path data w
  = (inr tt,
     mkWorld (net w) (posts w) (stdin w) (fs_saved (fs w) path data)
       (log w ++ [EvMkdir CFG_DIR; EvWrite (tmp_of path) (json_dump data);
                  EvReplace (tmp_of path) path; EvChmod path])).
Proof.
  unfold save_json, bind, mkdir, write_file, replace_file, ensure_private_file,
    emit, fs_saved. simpl. rewrite <- !app_assoc. reflexivity.
Qed.

Lemma print_keys_run (items : list (string * Folder)) (w : world) :
  print_keys items w = (inr tt, consume w (stdin w) (key_listing items)).
Proof.
  revert w. induction items as [|[k f] items IH]; intros w.
  - unfold consume. simpl. rewrite app_nil_r. destruct w; reflexivity.
  - cbn [print_keys]. unfold bind at 1, print at 1. rewrite IH.
    unfold consume, emit. simpl. rewrite <- app_assoc. reflexivity.
Qed.

(** The branch of [run_command] an unlisted command takes. *)
Lemma run_command_other (it : Item) (rules : Rules) (dom : string)
  (sid : option Z) (sname : option string) (cmd : string) :
  other_command cmd ->
  run_command keymap it rules dom sid sname cmd
  = match Dict.get keymap cmd with
    | Some f => cmd_move it rules dom f
    | None => print MsgUnknown ;; ret (Next rules)
    end.
Proof.
  intros (Hq & Hn & He & Ha & Hs). unfold run_command.
  apply String.eqb_neq in Hq, Hn, He, Ha, Hs.
  rewrite Hq, Hn, He, Ha, Hs. reflexivity.
Qed.

(** The [s] command on a domain and a key of the key map. *)
Lemma cmd_save_run (rules : Rules) (dom key : string) (rest : list string)
  (f : Folder) (w : world) :
  dom <> "" ->
  stdin w = key :: rest ->
  Dict.get keymap (Str.strip key) = Some f ->
  let rules' := Dict.set rules dom (folder_id f) in
  cmd_save keymap rules dom w
  = (inr (Next rules'),
     mkWorld (net w) (posts w) rest
       (fs_saved (fs w) RULES_PATH (rules_json rules'))
       (log w ++ [EvPrint MsgPickFolder] ++ key_listing keymap
        ++ [EvInput "folder key> " key] ++ save_events rules'
        ++ [EvPrint (MsgSaved dom (title f))])).
Proof.
  intros Hdom Hin Hkey rules'. unfold cmd_save.
  destruct dom as [|c dom]; [congruence|]. cbn [Str.nonempty negb].
  unfold bind at 1, print at 1. unfold bind at 1. rewrite print_keys_run.
  unfold bind at 1, input at 1. cbn [stdin consume emit]. rewrite Hin.
  rewrite Hkey. fold rules'.
  unfold bind at 1. rewrite save_json_run.
  unfold bind, print, emit, ret, save_events. simpl.
  rewrite <- !app_assoc. reflexivity.
Qed.

(** A move command: the move succeeds and the rule is learnt if the
    domain has none, or the process leaves by [SystemExit]. The handler
    of [except Exception] never runs. *)
Lemma cmd_move_cases (it : Item) (rules : Rules) (dom : string) (f : Folder)
  (w : world) :
  exists n ev,
    (n <= 6)%nat /\ Forall network_event ev /\
    move_bookmark (item_id it) (folder_id f) w
    = (fst (move_bookmark (item_id it) (folder_id f) w), advance w n ev) /\
    (fst (move_bookmark (item_id it) (folder_id f) w) = inr tt /\
     cmd_move it rules dom f w
     = (inr (Next (if Str.nonempty dom
                   then Dict.setdefault rules dom (folder_id f)
                   else rules)),
        advance w n (ev ++ [EvPrint (MsgMoved (Some (title f)))]))
     \/
     exists m,
       fst (move_bookmark (item_id it) (folder_id f) w) = inl (SystemExit m) /\
       cmd_move it rules dom f w = (inl (SystemExit m), advance w n ev)).
Proof.
  destruct (move_bookmark_cases (item_id it) (folder_id f) w)
    as (n & ev & Hn & Hev & [E|[m E]]);
    exists n, ev; (split; [exact Hn|split; [exact Hev|]]);
    unfold cmd_move, try_except, bind; rewrite E; simpl.
  - split; [reflexivity|]. left. split; [reflexivity|].
    unfold print, emit, ret, advance. simpl. rewrite <- app_assoc. reflexivity.
  - split; [reflexivity|]. right. exists m. split; reflexivity.
Qed.

(** C5. On an item with a domain, the [s] command followed by a key of
    the key map binds the domain to the folder of that key whatever the
    table held for the domain before, and writes the table to the rule
    file; every other entry is kept. A move by a key of the key map
    either leaves by [SystemExit] or, when the move succeeded, goes on
    with the table after [setdefault]: an existing binding of the domain
    is kept as it is, and the folder is bound only when the domain had no
    binding. *)
Theorem save_overwrites_learn_keeps (rules : Rules) (b : json) (it : Item)
  (line : string) (rest : list string) (w : world) :
  read_item b = inr it ->
  stdin w = line :: rest ->
  let dom := domain_of (item_url it) in
  let run := process_item folders keymap rules b w in
  dom <> "" ->
  (forall key rest' f,
      command_of line = "s" ->
      rest = key :: rest' ->
      Dict.get keymap (Str.strip key) = Some f ->
      let rules' := Dict.set rules dom (folder_id f) in
      fst run = inr (Next rules') /\
      Dict.get rules' dom = Some (folder_id f) /\
      (forall k, k <> dom -> Dict.get rules' k = Dict.get rules k) /\
      Dict.get (fs (snd run)) RULES_PATH = Some (json_dump (rules_json rules'))) /\
  (forall f,
      other_command (command_of line) ->
      Dict.get keymap (command_of line) = Some f ->
      let rules' := Dict.setdefault rules dom (folder_id f) in
      let moved :=
        fst (move_bookmark (item_id it) (folder_id f)
               (consume w rest
                  (presentation it dom
                     (suggestion_name folders (suggestion_for dom rules))
                   ++ [EvInput "> " line]))) in
      (moved = inr tt /\ fst run = inr (Next rules') \/
       exists m, moved = inl (SystemExit m) /\ fst run = inl (SystemExit m)) /\
      (forall v, Dict.get rules dom = Some v -> rules' = rules) /\
      (Dict.get rules dom = None ->
       Dict.get rules' dom = Some (folder_id f) /\
       forall k, k <> dom -> Dict.get rules' k = Dict.get rules k)).
Proof.
  intros Hit Hin dom run Hdom.
  pose proof (process_item_prompted rules b it line rest w Hit Hin) as Hrun.
  cbv zeta in Hrun. fold dom in Hrun. fold run in Hrun.
  split.
  - intros key rest' f Hcmd Hrest Hkey rules'.
    rewrite Hcmd in Hrun. unfold run_command in Hrun. simpl in Hrun.
    rewrite (cmd_save_run rules dom key rest' f) in Hrun;
      [|exact Hdom|subst rest; reflexivity|exact Hkey].
    fold rules' in Hrun. rewrite Hrun. simpl.
    split; [reflexivity|]. split; [apply dict_get_set_same|].
    split; [intros k Hk; apply dict_get_set_other; exact Hk|].
    apply fs_saved_get.
  - intros f Hother Hkey rules' moved.
    rewrite (run_command_other _ _ _ _ _ _ Hother), Hkey in Hrun.
    assert (Hne : Str.nonempty dom = true)
      by (destruct dom; [congruence|reflexivity]).
    split; [|split].
    + destruct (cmd_move_cases it rules dom f
                  (consume w rest
                     (presentation it dom
                        (suggestion_name folders (suggestion_for dom rules))
                      ++ [EvInput "> " line])))
        as (n & ev & _ & _ & _ & [[Hm Hc]|(m & Hm & Hc)]).
      * left. split; [exact Hm|]. rewrite Hrun, Hc, Hne. reflexivity.
      * right. exists m. split; [exact Hm|]. rewrite Hrun, Hc. reflexivity.
    + intros v Hv. apply (dict_setdefault_present _ _ _ _ Hv).
    + intros Hnone. unfold rules'. unfold Dict.setdefault, Dict.mem.
      rewrite Hnone. split; [apply dict_get_set_same|].
      intros k Hk. apply dict_get_set_other. exact Hk.
Qed.

(** The [a] command: nothing to move, a move that succeeded, or
    [SystemExit]. *)
Lemma cmd_auto_cases (it : Item) (rules : Rules) (sid : option Z)
  (sname : option string) (w : world) :
  (if_id sid = None /\
   cmd_auto it rules sid sname w
   = (inr (Next rules), consume w (stdin w) [EvPrint MsgNoSuggestion])) \/
  (exists id n ev,
      if_id sid = Some id /\ (n <= 6)%nat /\ Forall network_event ev /\
      (cmd_auto it rules sid sname w
       = (inr (Next rules), advance w n (ev ++ [EvPrint (MsgMoved sname)])) \/
       exists m,
         cmd_auto it rules sid sname w = (inl (SystemExit m), advance w n ev))).
Proof.
  unfold cmd_auto. destruct (if_id sid) as [id|]; [right|left].
  - destruct (move_bookmark_cases (item_id it) id w)
      as (n & ev & Hn & Hev & [E|[m E]]);
      exists id, n, ev; (split; [reflexivity|split; [exact Hn|split; [exact Hev|]]]);
      unfold try_except, bind; rewrite E; simpl.
    + left. unfold print, emit, ret, advance. simpl.
      rewrite <- app_assoc. reflexivity.
    + right. exists m. reflexivity.
  - split; reflexivity.
Qed.

(** Whatever the command, an item without a domain leaves the table as
    it is. *)
Lemma run_command_no_domain (it : Item) (rules rules' : Rules)
  (sid : option Z) (sname : option string) (cmd : string) (w : world) :
  fst (run_command keymap it rules "" sid sname cmd w) = inr (Next rules') ->
  rules' = rules.
Proof.
  unfold run_command.
  destruct (String.eqb cmd "q").
  { unfold bind. rewrite save_json_run. simpl. discriminate. }
  destruct (String.eqb cmd "n" || String.eqb cmd "").
  { simpl. congruence. }
  destruct (String.eqb cmd "a").
  { destruct (cmd_auto_cases it rules sid sname w)
      as [[_ E]|(id & n & ev & _ & _ & _ & [E|[m E]])];
      rewrite E; simpl; congruence. }
  destruct (String.eqb cmd "s").
  { simpl. congruence. }
  destruct (Dict.get keymap cmd) as [f|].
  - destruct (cmd_move_cases it rules "" f w)
      as (n & ev & _ & _ & _ & [[_ E]|(m & _ & E)]);
      rewrite E; simpl; congruence.
  - simpl. congruence.
Qed.

(** C6, amended. An input that is none of [q], [n], the empty line, [a],
    [s] and the keys of the key map makes the session print "unknown
    command" and go on with the next item of the page, as a skip does:
    the table is unchanged, no request is sent and no file is written. *)
Theorem unknown_command_moves_on (rules : Rules) (b : json) (it : Item)
  (line : string) (rest : list string) (more : list json) (w : world) :
  read_item b = inr it ->
  stdin w = line :: rest ->
  other_command (command_of line) ->
  Dict.get keymap (command_of line) = None ->
  let dom := domain_of (item_url it) in
  let sname := suggestion_name folders (suggestion_for dom rules) in
  let w' := consume w rest
              (presentation it dom sname
               ++ [EvInput "> " line; EvPrint MsgUnknown]) in
  process_item folders keymap rules b w = (inr (Next rules), w') /\
  for_items folders keymap rules (b :: more) w
  = for_items folders keymap rules more w'.
Proof.
  intros Hit Hin Hother Hkey dom sname w'.
  assert (E : process_item folders keymap rules b w = (inr (Next rules), w')).
  { rewrite (process_item_prompted rules b it line rest w Hit Hin).
    rewrite (run_command_other _ _ _ _ _ _ Hother), Hkey.
    rewrite bind_print_consume. unfold ret, w'.
    rewrite <- app_assoc. reflexivity. }
  split; [exact E|].
  cbn [for_items]. unfold bind at 1. rewrite E. reflexivity.
Qed.

(** C9. For an item whose URL has no domain, no suggestion is made
    whatever the table holds and none is shown: after the prompt the
    commands run with no suggested folder and no suggested name.
    Whatever the command, the table goes on unchanged; the [a] command
    reports that there is no suggestion and sends no request; the [s]
    command reports that there is no domain, reads no key and writes no
    file; a move by a key that succeeds learns no rule. *)
Theorem empty_domain_never_matched_nor_recorded (rules : Rules) (b : json)
  (it : Item) (w : world) :
  read_item b = inr it ->
  domain_of (item_url it) = "" ->
  let shown := [EvPrint (MsgItem (item_id it) (item_title it));
                EvPrint (MsgSource (item_url it))] in
  let run := process_item folders keymap rules b w in
  suggestion_for "" rules = None /\
  (forall line rest,
      stdin w = line :: rest ->
      run = run_command keymap it rules "" None None (command_of line)
              (consume w rest (shown ++ [EvInput "> " line]))) /\
  (forall rules', fst run = inr (Next rules') -> rules' = rules) /\
  (forall line rest,
      stdin w = line :: rest -> command_of line = "a" ->
      run = (inr (Next rules),
             consume w rest
               (shown ++ [EvInput "> " line; EvPrint MsgNoSuggestion]))) /\
  (forall line rest,
      stdin w = line :: rest -> command_of line = "s" ->
      run = (inr (Next rules),
             consume w rest
               (shown ++ [EvInput "> " line; EvPrint MsgNoDomain]))) /\
  (forall line rest f,
      stdin w = line :: rest ->
      other_command (command_of line) ->
      Dict.get keymap (command_of line) = Some f ->
      fst (move_bookmark (item_id it) (folder_id f)
             (consume w rest (shown ++ [EvInput "> " line]))) = inr tt ->
      fst run = inr (Next rules)).
Proof.
  intros Hit Hdom shown run.
  split; [reflexivity|].
  assert (Hrun : forall line rest, stdin w = line :: rest ->
            run = run_command keymap it rules "" None None (command_of line)
                    (consume w rest (shown ++ [EvInput "> " line]))).
  { intros line rest Hin. unfold run.
    rewrite (process_item_prompted rules b it line rest w Hit Hin).
    rewrite Hdom. reflexivity. }
  split; [exact Hrun|]. split; [|split; [|split]].
  - intros rules' Hnext. destruct (stdin w) as [|line rest] eqn:Hin.
    + unfold run, process_item in Hnext. rewrite Hit in Hnext.
      unfold bind at 1 in Hnext. simpl in Hnext.
      unfold bind at 1 in Hnext. rewrite show_item_run in Hnext.
      unfold bind, input in Hnext. simpl in Hnext. rewrite Hin in Hnext.
      discriminate.
    + rewrite (Hrun line rest eq_refl) in Hnext.
      exact (run_command_no_domain _ _ _ _ _ _ _ Hnext).
  - intros line rest Hin Hcmd. rewrite (Hrun line rest Hin), Hcmd.
    unfold run_command, cmd_auto. cbn [String.eqb Ascii.eqb Bool.eqb orb if_id].
    rewrite bind_print_consume. unfold ret.
    rewrite <- app_assoc. reflexivity.
  - intros line rest Hin Hcmd. rewrite (Hrun line rest Hin), Hcmd.
    unfold run_command, cmd_save. cbn [String.eqb Ascii.eqb Bool.eqb orb
      Str.nonempty negb].
    rewrite bind_print_consume. unfold ret.
    rewrite <- app_assoc. reflexivity.
  - intros line rest f Hin Hother Hkey Hmoved.
    rewrite (Hrun line rest Hin).
    rewrite (run_command_other _ _ _ _ _ _ Hother), Hkey.
    destruct (cmd_move_cases it rules "" f
                (consume w rest (shown ++ [EvInput "> " line])))
      as (n & ev & _ & _ & _ & [[_ E]|(m & Hm & _)]).
    + rewrite E. reflexivity.
    + rewrite Hm in Hmoved. discriminate.
Qed.

(** C10. When the table binds the domain of an item to folder 0,
    [suggest_folder] answers 0, and the session goes on as if there were
    no suggestion: none is shown, and the [a] command prints "no
    suggestion" and sends no request. *)
Theorem folder_zero_is_no_suggestion (rules : Rules) (b : json) (it : Item)
  (line : string) (rest : list string) (w : world) :
  read_item b = inr it ->
  let dom := domain_of (item_url it) in
  dom <> "" ->
  Dict.get rules dom = Some 0 ->
  let shown := [EvPrint (MsgItem (item_id it) (item_title it));
                EvPrint (MsgSource dom)] in
  suggest_folder dom rules = Some 0 /\
  presentation it dom (suggestion_name folders (suggestion_for dom rules)) = shown /\
  (stdin w = line :: rest ->
   command_of line = "a" ->
   process_item folders keymap rules b w
   = (inr (Next rules),
      consume w rest (shown ++ [EvInput "> " line; EvPrint MsgNoSuggestion]))).
Proof.
  intros Hit dom Hdom Hzero shown.
  assert (Hne : Str.nonempty dom = true)
    by (destruct dom; [congruence|reflexivity]).
  assert (Hs : suggest_folder dom rules = Some 0)
    by (unfold suggest_folder; rewrite Hzero; reflexivity).
  assert (Hsid : suggestion_for dom rules = Some 0)
    by (unfold suggestion_for; rewrite Hne; exact Hs).
  assert (Hshown : presentation it dom
                     (suggestion_name folders (suggestion_for dom rules)) = shown).
  { rewrite Hsid. unfold presentation, suggestion_name. simpl.
    rewrite Hne. reflexivity. }
  split; [exact Hs|]. split; [exact Hshown|].
  intros Hin Hcmd.
  rewrite (process_item_prompted rules b it line rest w Hit Hin).
  fold dom. rewrite Hshown, Hsid, Hcmd.
  unfold run_command, cmd_auto. cbn [String.eqb Ascii.eqb Bool.eqb orb if_id Z.eqb].
  rewrite bind_print_consume. unfold ret.
  rewrite <- app_assoc. reflexivity.
Qed.

End SessionFacts.

Lemma save_overwrites_learn_keeps_witness :
  let keymap := build_keymap Demo.folders3 9 in
  let rules := [("blog.example.com", 1)] in
  let b := Demo.bookmark 11 "A post" "https://Blog.Example.com/p" in
  fst (process_item (L := Demo.library) Demo.folders3 keymap rules b
         (Demo.start [] ["S"; " 2"]))
  = inr (Next [("blog.example.com", 2)]) /\
  fst (process_item (L := Demo.library) Demo.folders3 keymap rules b
         (Demo.start [Demo.ok (JObj [])] ["3"]))
  = inr (Next rules).
Proof.
  intros keymap rules b.
  set (it := mkItem 11 "A post" "https://Blog.Example.com/p").
  split.
  - destruct (save_overwrites_learn_keeps (L := Demo.library)
                Demo.folders3 keymap rules b it
                "S" [" 2"] (Demo.start [] ["S"; " 2"])
                eq_refl eq_refl ltac:(intro E; vm_compute in E; discriminate E)) as [Hs _].
    destruct (Hs " 2" [] (mkFolder 2 "News") eq_refl eq_refl eq_refl)
      as [Hrun _].
    exact Hrun.
  - destruct (save_overwrites_learn_keeps (L := Demo.library)
                Demo.folders3 keymap rules b it
                "3" [] (Demo.start [Demo.ok (JObj [])] ["3"])
                eq_refl eq_refl ltac:(intro E; vm_compute in E; discriminate E)) as [_ Hm].
    destruct (Hm (mkFolder 3 "Archive")
                ltac:(repeat split; intro E; vm_compute in E; discriminate E) eq_refl)
      as [[[_ Hrun]|(m & Hmv & _)] _].
    + exact Hrun.
    + vm_compute in Hmv. discriminate.
Defined.

Lemma unknown_command_moves_on_witness :
  let keymap := build_keymap Demo.folders3 9 in
  let b := Demo.bookmark 11 "First" "https://a.example.com/1" in
  let w := Demo.start [] ["x"] in
  process_item (L := Demo.library) Demo.folders3 keymap [] b w
  = (inr (Next []),
     consume w []
       [EvPrint (MsgItem 11 "First"); EvPrint (MsgSource "a.example.com");
        EvInput "> " "x"; EvPrint MsgUnknown]).
Proof.
  intros keymap b w.
  apply (proj1 (unknown_command_moves_on (L := Demo.library)
                  Demo.folders3 keymap [] b
                  (mkItem 11 "First" "https://a.example.com/1")
                  "x" [] [] w eq_refl eq_refl
                  ltac:(repeat split; intro E; vm_compute in E; discriminate E)
                  eq_refl)).
Defined.

(** C6, as stated, fails: after an unknown command the first item is not
    presented again; the prompt that follows is for the second item. *)
Lemma unknown_command_does_not_repeat_item :
  let keymap := build_keymap Demo.folders3 9 in
  let items := [Demo.bookmark 11 "First" "https://a.example.com/1";
                Demo.bookmark 12 "Second" "https://b.example.com/2"] in
  let w := Demo.start [Demo.page items] ["x"; "q"] in
  let run := session (L := Demo.library) Demo.folders3 keymap 3 [] w in
  fst run = inr (Some []) /\
  log (snd run)
  = ([EvPost (API_BASE ++ "/bookmarks/list")
        [("folder_id", "unread"); ("limit", "25")];
      EvPrint (MsgItem 11 "First"); EvPrint (MsgSource "a.example.com");
      EvInput "> " "x"; EvPrint MsgUnknown;
      EvPrint (MsgItem 12 "Second"); EvPrint (MsgSource "b.example.com");
      EvInput "> " "q"]
     ++ save_events (L := Demo.library) [])%list.
Proof. split; vm_compute; reflexivity. Qed.

(** C3 at its failing input. The page has two items, the user answers
    [1] to the first one and the service answers 404 to the move: the
    request is sent six times, then the process leaves by [SystemExit].
    Nothing is reported for the item, the second item is never
    presented, its line of input is never read, and the rule file is
    not written. *)
Theorem failed_move_aborts_session :
  let keymap := build_keymap Demo.folders3 9 in
  let items := [Demo.bookmark 11 "First" "https://a.example.com/1";
                Demo.bookmark 12 "Second" "https://b.example.com/2"] in
  let w := Demo.start (Demo.page items :: repeat (Demo.status 404) 6)
                      ["1"; "n"] in
  let run := session (L := Demo.library) Demo.folders3 keymap 3 [] w in
  fst run
  = inl (SystemExit (ApiRequestFailed "/bookmarks/move" (Some (HTTPError 404)))) /\
  log (snd run)
  = ([EvPost (API_BASE ++ "/bookmarks/list")
        [("folder_id", "unread"); ("limit", "25")];
      EvPrint (MsgItem 11 "First"); EvPrint (MsgSource "a.example.com");
      EvInput "> " "1"]
     ++ retry_events (API_BASE ++ "/bookmarks/move")
          [("bookmark_id", "11"); ("folder_id", "1")] (seq 0 6))%list /\
  stdin (snd run) = ["n"] /\
  fs (snd run) = [].
Proof. repeat split; vm_compute; reflexivity. Qed.

Lemma empty_domain_never_matched_nor_recorded_witness :
  let keymap := build_keymap Demo.folders3 9 in
  let b := Demo.bookmark 12 "Note" "no-address" in
  let w := Demo.start [] ["s"; "2"] in
  process_item (L := Demo.library) Demo.folders3 keymap [("", 3)] b w
  = (inr (Next [("", 3)]),
     consume w ["2"]
       [EvPrint (MsgItem 12 "Note"); EvPrint (MsgSource "no-address");
        EvInput "> " "s"; EvPrint MsgNoDomain]).
Proof.
  intros keymap b w.
  destruct (empty_domain_never_matched_nor_recorded (L := Demo.library)
              Demo.folders3 keymap [("", 3)] b
              (mkItem 12 "Note" "no-address") w eq_refl eq_refl)
    as (_ & _ & _ & _ & Hs & _).
  exact (Hs "s" ["2"] eq_refl eq_refl).
Defined.

Lemma folder_zero_is_no_suggestion_witness :
  let keymap := build_keymap Demo.folders3 9 in
  let folders := mkFolder 0 "Inbox" :: Demo.folders3 in
  let b := Demo.bookmark 11 "First" "https://a.example.com/1" in
  let w := Demo.start [] ["a"] in
  process_item (L := Demo.library) folders keymap [("a.example.com", 0)] b w
  = (inr (Next [("a.example.com", 0)]),
     consume w []
       [EvPrint (MsgItem 11 "First"); EvPrint (MsgSource "a.example.com");
        EvInput "> " "a"; EvPrint MsgNoSuggestion]).
Proof.
  intros keymap folders b w.
  destruct (folder_zero_is_no_suggestion (L := Demo.library)
              folders keymap [("a.example.com", 0)] b
              (mkItem 11 "First" "https://a.example.com/1") "a" [] w
              eq_refl ltac:(intro E; vm_compute in E; discriminate E) eq_refl)
    as (_ & _ & Ha).
  exact (Ha eq_refl eq_refl).
Defined.

(** ** Termination and persistence *)

Lemma balanced_nil : balanced [].
Proof. reflexivity. Qed.

Lemma balanced_app (e1 e2 : list event) :
  balanced e1 -> balanced e2 -> balanced (e1 ++ e2).
Proof. unfold balanced. rewrite !count_app. lia. Qed.

Lemma balanced_network (ev : list event) :
  Forall network_event ev -> balanced ev.
Proof.
  intros Hev. unfold balanced.
  rewrite (count_network_zero is_persist ev persist_not_network Hev).
  rewrite (count_network_zero is_saved_report ev saved_report_not_network Hev).
  reflexivity.
Qed.

Lemma going_refl (w : world) : going w w.
Proof.
  split; [|lia]. exists []. rewrite app_nil_r. split; [reflexivity|apply balanced_nil].
Qed.

Lemma going_trans (w1 w2 w3 : world) : going w1 w2 -> going w2 w3 -> going w1 w3.
Proof.
  intros [(e1 & H1 & B1) L1] [(e2 & H2 & B2) L2]. split; [|lia].
  exists (e1 ++ e2)%list. rewrite H2, H1, app_assoc.
  split; [reflexivity|apply balanced_app; assumption].
Qed.

Lemma going_terminated `{L : Library} (r : Rules) (w1 w2 w3 : world) :
  going w1 w2 -> terminated r w2 w3 -> terminated r w1 w3.
Proof.
  intros [(e1 & H1 & B1) _] (e2 & t & H2 & Ht & B2 & Hf).
  exists (e1 ++ e2)%list, t. rewrite H2, H1, <- !app_assoc.
  repeat split; [exact Ht|apply balanced_app; assumption|exact Hf].
Qed.

(** Effects that are neither a write of the rule file nor a report of a
    saved rule. *)
Lemma going_consume (w : world) (rest : list string) (ev : list event) :
  (List.length rest <= List.length (stdin w))%nat ->
  count is_persist ev = 0%nat -> count is_saved_report ev = 0%nat ->
  going w (consume w rest ev).
Proof.
  intros Hr Hp Hs. split; [|exact Hr].
  exists ev. split; [reflexivity|]. unfold balanced. congruence.
Qed.

Lemma going_advance (w : world) (n : nat) (ev : list event) :
  Forall network_event ev -> going w (advance w n ev).
Proof.
  intros Hev. split; [|simpl; lia].
  exists ev. split; [reflexivity|apply balanced_network; exact Hev].
Qed.

Lemma quiet_ret {A} (a : A) : quiet (ret a).
Proof. intros w. apply going_refl. Qed.

Lemma quiet_throw {A} (u : unwinding) : quiet (@throw A u).
Proof. intros w. apply going_refl. Qed.

Lemma quiet_lift {A} (r : exn + A) : quiet (lift r).
Proof. destruct r; [apply quiet_throw|apply quiet_ret]. Qed.

Lemma quiet_bind {A B} (c : M A) (k : A -> M B) :
  quiet c -> (forall a, quiet (k a)) -> quiet (bind c k).
Proof.
  intros Hc Hk w. unfold bind. specialize (Hc w).
  destruct (c w) as [[u|a] w1]; simpl in *; [exact Hc|].
  apply (going_trans _ _ _ Hc), Hk.
Qed.

Lemma quiet_try {A} (c : M A) (h : exn -> M A) :
  quiet c -> (forall e, quiet (h e)) -> quiet (try_except c h).
Proof.
  intros Hc Hh w. unfold try_except. specialize (Hc w).
  destruct (c w) as [[[e|m]|a] w1]; simpl in *; try exact Hc.
  apply (going_trans _ _ _ Hc), Hh.
Qed.

Lemma quiet_print (m : message) :
  is_saved_report (EvPrint m) = false -> quiet (print m).
Proof.
  intros Hm w. unfold print, emit; simpl.
  apply (going_consume w (stdin w) [EvPrint m]); [lia|reflexivity|].
  unfold count. cbn [filter]. rewrite Hm. reflexivity.
Qed.

Lemma quiet_input (prompt : string) : quiet (input prompt).
Proof.
  intros w. unfold input. destruct (stdin w) as [|line rest] eqn:E; simpl.
  - apply going_refl.
  - split; [|simpl; rewrite E; simpl; lia].
    exists [EvInput prompt line]. split; reflexivity.
Qed.

Lemma quiet_api_post (path : string) (data : option (Dict.t string)) :
  quiet (api_post path data).
Proof.
  intros w. destruct (api_post_frame path data w) as (n & ev & -> & _ & Hev).
  apply going_advance, Hev.
Qed.

Lemma quiet_move_bookmark (bid fid : Z) : quiet (move_bookmark bid fid).
Proof.
  unfold move_bookmark. apply quiet_bind; [apply quiet_api_post|].
  intros _. apply quiet_ret.
Qed.

Lemma quiet_list_unread_bookmarks (limit : Z) :
  quiet (list_unread_bookmarks limit).
Proof.
  unfold list_unread_bookmarks. apply quiet_bind; [apply quiet_api_post|].
  intros res. apply quiet_lift.
Qed.

Lemma quiet_print_keys (items : list (string * Folder)) : quiet (print_keys items).
Proof.
  induction items as [|[k f] items IH]; simpl; [apply quiet_ret|].
  apply quiet_bind; [apply quiet_print; reflexivity|]. intros _. exact IH.
Qed.

Lemma quiet_print_folder_keys (items : list (string * Folder)) :
  quiet (print_folder_keys items).
Proof.
  induction items as [|[k f] items IH]; simpl; [apply quiet_ret|].
  apply quiet_bind; [apply quiet_print; reflexivity|]. intros _. exact IH.
Qed.

Lemma carries_on_ret_next (rules : Rules) : carries_on (ret (Next rules)).
Proof. intros w. split; [apply going_refl|intros r; simpl; discriminate]. Qed.

Lemma carries_on_bind {A} (c : M A) (k : A -> M control) :
  quiet c -> (forall a, carries_on (k a)) -> carries_on (bind c k).
Proof.
  intros Hc Hk w. unfold bind. specialize (Hc w).
  destruct (c w) as [[u|a] w1]; simpl in *;
    [split; [exact Hc|intros r; discriminate]|].
  destruct (Hk a w1) as [Hg Hq]. split; [|exact Hq].
  apply (going_trans _ _ _ Hc), Hg.
Qed.

Lemma carries_on_try (c : M control) (h : exn -> M control) :
  carries_on c -> (forall e, carries_on (h e)) -> carries_on (try_except c h).
Proof.
  intros Hc Hh w. unfold try_except. destruct (Hc w) as [Hg Hq].
  destruct (c w) as [[[e|m]|a] w1]; simpl in *;
    try (split; [exact Hg|assumption || discriminate]).
  destruct (Hh e w1) as [Hg' Hq']. split; [|exact Hq'].
  apply (going_trans _ _ _ Hg), Hg'.
Qed.

Arguments presentation : simpl never.
Arguments save_events : simpl never.

Section SessionTrace.
Context `{L : Library}.
Variable folders : list Folder.
Variable keymap : Dict.t Folder.

Lemma presentation_counts (it : Item) (dom : string) (sname : option string) :
  count is_persist (presentation it dom sname) = 0%nat /\
  count is_saved_report (presentation it dom sname) = 0%nat.
Proof.
  unfold presentation. destruct sname as [name|]; [destruct (Str.nonempty name)|];
    split; reflexivity.
Qed.

Lemma save_events_counts (rules : Rules) :
  count is_persist (save_events rules) = 1%nat /\
  count is_saved_report (save_events rules) = 0%nat.
Proof. split; reflexivity. Qed.

(** The tail of the [s] command: the table is written and the rule is
    reported, once each. *)
Lemma carries_on_save_report (rules : Rules) (dom ttl : string) :
  carries_on (save_json RULES_PATH (rules_json rules) ;;
              print (MsgSaved dom ttl) ;;
              ret (Next rules)).
Proof.
  intros w. unfold bind at 1. rewrite save_json_run.
  unfold bind, print, emit, ret. simpl. split; [|intros r; discriminate].
  split; [|simpl; lia]. simpl.
  exists (save_events rules ++ [EvPrint (MsgSaved dom ttl)])%list.
  split; [rewrite <- app_assoc; reflexivity|reflexivity].
Qed.

Lemma carries_on_cmd_auto (it : Item) (rules : Rules) (sid : option Z)
  (sname : option string) :
  carries_on (cmd_auto it rules sid sname).
Proof.
  unfold cmd_auto. destruct (if_id sid) as [id|].
  - apply carries_on_bind; [|intros _; apply carries_on_ret_next].
    apply quiet_try.
    + apply quiet_bind; [apply quiet_move_bookmark|].
      intros _. apply quiet_print. reflexivity.
    + intros e. apply quiet_print. reflexivity.
  - apply carries_on_bind; [apply quiet_print; reflexivity|].
    intros _. apply carries_on_ret_next.
Qed.

Lemma carries_on_cmd_move (it : Item) (rules : Rules) (dom : string)
  (f : Folder) :
  carries_on (cmd_move it rules dom f).
Proof.
  unfold cmd_move. apply carries_on_try.
  - apply carries_on_bind; [apply quiet_move_bookmark|]. intros _.
    apply carries_on_bind; [apply quiet_print; reflexivity|].
    intros _. apply carries_on_ret_next.
  - intros e. apply carries_on_bind; [apply quiet_print; reflexivity|].
    intros _. apply carries_on_ret_next.
Qed.

Lemma carries_on_cmd_save (rules : Rules) (dom : string) :
  carries_on (cmd_save keymap rules dom).
Proof.
  unfold cmd_save. destruct (negb (Str.nonempty dom)).
  - apply carries_on_bind; [apply quiet_print; reflexivity|].
    intros _. apply carries_on_ret_next.
  - apply carries_on_bind; [apply quiet_print; reflexivity|]. intros _.
    apply carries_on_bind; [apply quiet_print_keys|]. intros _.
    apply carries_on_bind; [apply quiet_input|]. intros line.
    destruct (Dict.get keymap (Str.strip line)) as [f|].
    + apply carries_on_save_report.
    + apply carries_on_bind; [apply quiet_print; reflexivity|].
      intros _. apply carries_on_ret_next.
Qed.

(** Every command but [q] goes on to the next item. *)
Lemma carries_on_run_command (it : Item) (rules : Rules) (dom : string)
  (sid : option Z) (sname : option string) (cmd : string) :
  cmd <> "q" -> carries_on (run_command keymap it rules dom sid sname cmd).
Proof.
  intros Hq. unfold run_command.
  apply String.eqb_neq in Hq. rewrite Hq.
  destruct (String.eqb cmd "n" || String.eqb cmd "").
  { apply carries_on_bind; [apply quiet_print; reflexivity|].
    intros _. apply carries_on_ret_next. }
  destruct (String.eqb cmd "a"); [apply carries_on_cmd_auto|].
  destruct (String.eqb cmd "s"); [apply carries_on_cmd_save|].
  destruct (Dict.get keymap cmd) as [f|]; [apply carries_on_cmd_move|].
  apply carries_on_bind; [apply quiet_print; reflexivity|].
  intros _. apply carries_on_ret_next.
Qed.

Lemma process_item_eof (rules : Rules) (b : json) (it : Item) (w : world) :
  read_item b = inr it ->
  stdin w = [] ->
  let dom := domain_of (item_url it) in
  process_item folders keymap rules b w
  = (inl (Raise EOFError),
     consume w []
       (presentation it dom (suggestion_name folders (suggestion_for dom rules)))).
Proof.
  intros Hit Hin dom. unfold process_item. rewrite Hit.
  unfold bind at 1. simpl. fold dom.
  unfold bind at 1. rewrite show_item_run.
  unfold bind, input. simpl. rewrite Hin. reflexivity.
Qed.

(** One turn of [for b in items]: it ends the session by the [q]
    command, or goes on having read at least one line, or unwinds. *)
Lemma process_item_trace (rules : Rules) (b : json) (w : world) :
  let r := process_item folders keymap rules b w in
  match fst r with
  | inr (Quit rules') => terminated rules' w (snd r)
  | inr (Next _) =>
      going w (snd r) /\
      (List.length (stdin (snd r)) < List.length (stdin w))%nat
  | inl _ => going w (snd r)
  end.
Proof.
  cbv zeta. destruct (read_item b) as [e|it] eqn:Hit.
  { unfold process_item. rewrite Hit. simpl. apply going_refl. }
  set (dom := domain_of (item_url it)).
  set (sname := suggestion_name folders (suggestion_for dom rules)).
  destruct (presentation_counts it dom sname) as [Hp Hs].
  destruct (stdin w) as [|line rest] eqn:Hin.
  { rewrite (process_item_eof rules b it w Hit Hin). simpl.
    fold dom. fold sname. rewrite <- Hin.
    apply going_consume; [lia|exact Hp|exact Hs]. }
  rewrite (process_item_prompted folders keymap rules b it line rest w Hit Hin).
  fold dom. fold sname.
  set (w1 := consume w rest (presentation it dom sname ++ [EvInput "> " line])).
  assert (Hw1 : going w w1).
  { apply going_consume; [rewrite Hin; simpl; lia|..];
      rewrite count_app; [rewrite Hp|rewrite Hs]; reflexivity. }
  destruct (String.eqb_spec (command_of line) "q") as [Hq|Hq].
  - rewrite Hq. unfold run_command. cbn [String.eqb Ascii.eqb Bool.eqb].
    unfold bind. rewrite save_json_run.
    unfold ret, w1, consume. cbn [fst snd log fs net posts stdin].
    exists (presentation it dom sname), (EvInput "> " line).
    split; [unfold save_events; rewrite <- !app_assoc; reflexivity|].
    split; [right; exists line; auto|].
    split; [unfold balanced; congruence|].
    apply fs_saved_get.
  - destruct (carries_on_run_command it rules dom (suggestion_for dom rules)
                sname (command_of line) Hq w1) as [Hg Hnq].
    destruct (run_command keymap it rules dom (suggestion_for dom rules)
                sname (command_of line) w1) as [[u|[rules'|rules']] w2];
      simpl in *.
    + apply (going_trans _ _ _ Hw1 Hg).
    + split; [apply (going_trans _ _ _ Hw1 Hg)|].
      destruct Hg as [_ Hl]. unfold w1 in Hl. simpl in Hl.
      rewrite ?Hin. simpl. lia.
    + exfalso. exact (Hnq _ eq_refl).
Qed.

Lemma for_items_trace (items : list json) :
  forall (rules : Rules) (w : world),
    let r := for_items folders keymap rules items w in
    match fst r with
    | inr (Quit rules') => terminated rules' w (snd r)
    | inr (Next _) =>
        going w (snd r) /\
        (items <> [] ->
         (List.length (stdin (snd r)) < List.length (stdin w))%nat)
    | inl _ => going w (snd r)
    end.
Proof.
  induction items as [|b items IH]; intros rules w; cbv zeta.
  - simpl. split; [apply going_refl|congruence].
  - cbn [for_items]. unfold bind.
    pose proof (process_item_trace rules b w) as Hb. cbv zeta in Hb.
    destruct (process_item folders keymap rules b w) as [[u|[rules'|rules']] w1];
      cbn [fst snd] in Hb |- *; try exact Hb.
    destruct Hb as [Hg Hl].
    specialize (IH rules' w1). cbv zeta in IH.
    destruct (for_items folders keymap rules' items w1)
      as [[u|[rules2|rules2]] w2]; cbn [fst snd] in IH |- *.
    + apply (going_trans _ _ _ Hg IH).
    + destruct IH as [Hg2 _]. split; [apply (going_trans _ _ _ Hg Hg2)|].
      intros _. destruct Hg2 as [_ Hl2]. lia.
    + apply (going_terminated _ _ _ _ Hg IH).
Qed.

(** The end of the session on an empty page. *)
Lemma empty_page_run (rules : Rules) (w : world) :
  (print MsgNoUnread ;;
   save_json RULES_PATH (rules_json rules) ;;
   ret (Some rules)) w
  = (inr (Some rules),
     mkWorld (net w) (posts w) (stdin w)
       (fs_saved (fs w) RULES_PATH (rules_json rules))
       (log w ++ EvPrint MsgNoUnread :: save_events rules)).
Proof.
  rewrite bind_print. unfold bind. rewrite save_json_run.
  unfold ret, consume, save_events. cbn [fst snd log fs net posts stdin].
  rewrite <- app_assoc. reflexivity.
Qed.

(** The loop over the pages: it ends by an empty page or the [q]
    command, or unwinds, or uses up its fuel, which takes at least as
    many lines of input as it had turns. *)
Lemma session_trace (fuel : nat) :
  forall (rules : Rules) (w : world),
    let r := session folders keymap fuel rules w in
    match fst r with
    | inr (Some rules') => terminated rules' w (snd r)
    | inr None =>
        going w (snd r) /\ (fuel <= List.length (stdin w))%nat
    | inl _ => going w (snd r)
    end.
Proof.
  induction fuel as [|fuel IH]; intros rules w; cbv zeta.
  - simpl. split; [apply going_refl|lia].
  - destruct (session folders keymap (S fuel) rules w) as [r w'] eqn:E.
    cbn [fst snd]. cbn [session] in E. unfold bind at 1 in E.
    pose proof (quiet_list_unread_bookmarks 25 w) as H0.
    destruct (list_unread_bookmarks 25 w) as [[u|bookmarks] w1];
      cbn [fst snd] in H0; [injection E as <- <-; exact H0|].
    unfold bind at 1 in E.
    destruct (Py.iter bookmarks) as [e|elements]; cbn [lift throw ret] in E;
      [injection E as <- <-; exact H0|].
    unfold bind at 1 in E.
    destruct (select_bookmarks elements) as [e|items];
      cbn [lift throw ret] in E; [injection E as <- <-; exact H0|].
    destruct items as [|b items].
    + rewrite empty_page_run in E. injection E as <- <-.
      apply (going_terminated _ _ _ _ H0).
      exists [], (EvPrint MsgNoUnread). cbn [log fs].
      split; [reflexivity|]. split; [left; reflexivity|].
      split; [apply balanced_nil|apply fs_saved_get].
    + unfold bind in E.
      pose proof (for_items_trace (b :: items) rules w1) as Hf. cbv zeta in Hf.
      destruct (for_items folders keymap rules (b :: items) w1)
        as [[u|[rules'|rules']] w2]; cbn [fst snd] in Hf.
      * injection E as <- <-. apply (going_trans _ _ _ H0 Hf).
      * destruct Hf as [Hg Hl]. specialize (Hl ltac:(discriminate)).
        specialize (IH rules' w2). cbv zeta in IH. rewrite E in IH.
        cbn [fst snd] in IH. destruct r as [u|[rules2|]].
        -- apply (going_trans _ _ _ H0), (going_trans _ _ _ Hg IH).
        -- apply (going_terminated _ _ _ _ H0), (going_terminated _ _ _ _ Hg IH).
        -- destruct IH as [Hg3 Hfuel]. split.
           ++ apply (going_trans _ _ _ H0), (going_trans _ _ _ Hg Hg3).
           ++ destruct H0 as [_ Hl0]. lia.
      * injection E as <- <-. apply (going_terminated _ _ _ _ H0 Hf).
Qed.

End SessionTrace.

(** [main] goes through [session], after the three headers. *)
Lemma main_trace `{L : Library} (fuel : nat) (folders : list Folder)
  (rules : Rules) (w : world) :
  let r := main fuel folders rules w in
  match fst r with
  | inr (Some rules') => terminated rules' w (snd r)
  | inr None => (fuel <= List.length (stdin w))%nat
  | inl _ => going w (snd r)
  end.
Proof.
  cbv zeta. destruct (main fuel folders rules w) as [r w'] eqn:E.
  cbn [fst snd]. unfold main in E. destruct folders as [|f folders].
  { injection E as <- <-. apply going_refl. }
  set (keymap := build_keymap (f :: folders) 9) in E.
  assert (Hq : quiet (print MsgFoldersHeader ;;
                      print_folder_keys keymap ;;
                      print MsgControls)).
  { apply quiet_bind; [apply quiet_print; reflexivity|]. intros _.
    apply quiet_bind; [apply quiet_print_folder_keys|]. intros _.
    apply quiet_print; reflexivity. }
  specialize (Hq w). unfold bind in Hq, E.
  destruct (print MsgFoldersHeader w) as [[u|[]] w1];
    [injection E as <- <-; exact Hq|].
  destruct (print_folder_keys keymap w1) as [[u|[]] w2];
    [injection E as <- <-; exact Hq|].
  destruct (print MsgControls w2) as [[u|[]] w3];
    [injection E as <- <-; exact Hq|].
  cbn [fst snd] in Hq.
  pose proof (session_trace (f :: folders) keymap fuel rules w3) as Hs.
  cbv zeta in Hs. rewrite E in Hs. cbn [fst snd] in Hs.
  destruct r as [u|[rules2|]].
  - apply (going_trans _ _ _ Hq Hs).
  - apply (going_terminated _ _ _ _ Hq Hs).
  - destruct Hs as [_ Hfuel]. destruct Hq as [_ Hl]. lia.
Qed.

(** With more fuel than lines of input, the run comes to an end: each
    turn of [while True] that does not end the run reads a line. *)
Lemma main_total `{L : Library} (fuel : nat) (folders : list Folder)
  (rules : Rules) (w : world) :
  (List.length (stdin w) < fuel)%nat ->
  fst (main fuel folders rules w) <> inr None.
Proof.
  intros Hfuel E. pose proof (main_trace fuel folders rules w) as Ht.
  cbv zeta in Ht. rewrite E in Ht. lia.
Qed.

(** C7, amended. On every run that comes to its end, by the [q] command
    or by an empty page, the rule table is persisted exactly once at the
    termination: the last effects of the run are the trigger of the
    termination and one [save_json] of the table the session ends with,
    and the rule file then holds that table. The other writes of the
    run are those of the [s] command, one for each rule it reported
    saved: a run that saved [n] rules has written the rule file [n + 1]
    times. *)
Theorem run_persists_at_exit_and_per_save `{L : Library} (fuel : nat)
  (folders : list Folder) (rules rules' : Rules) (w : world) :
  let r := main fuel folders rules w in
  fst r = inr (Some rules') ->
  let table := JObj (map (fun kv => (fst kv, JInt (snd kv))) rules') in
  let final_save := [EvMkdir CFG_DIR;
                     EvWrite (tmp_of RULES_PATH) (json_dump table);
                     EvReplace (tmp_of RULES_PATH) RULES_PATH;
                     EvChmod RULES_PATH] in
  exists events trigger,
    log (snd r) = (log w ++ events ++ trigger :: final_save)%list /\
    termination_trigger trigger /\
    count is_persist events = count is_saved_report events /\
    count is_persist (events ++ trigger :: final_save)
    = S (count is_saved_report (events ++ trigger :: final_save)) /\
    Dict.get (fs (snd r)) RULES_PATH = Some (json_dump table).
Proof.
  intros r Hr table final_save.
  pose proof (main_trace fuel folders rules w) as Ht.
  cbv zeta in Ht. fold r in Ht. rewrite Hr in Ht.
  destruct Ht as (events & trigger & Hlog & Htr & Hbal & Hfs).
  exists events, trigger.
  split; [exact Hlog|]. split; [exact Htr|]. split; [exact Hbal|].
  split; [|exact Hfs].
  change (trigger :: final_save) with ([trigger] ++ save_events rules')%list.
  rewrite !count_app. destruct (save_events_counts rules') as [-> ->].
  assert (Hp : count is_persist [trigger] = 0%nat)
    by (destruct Htr as [->|(line & -> & _)]; reflexivity).
  assert (Hs : count is_saved_report [trigger] = 0%nat)
    by (destruct Htr as [->|(line & -> & _)]; reflexivity).
  unfold balanced in Hbal. rewrite Hbal, Hp, Hs. lia.
Qed.

Lemma run_persists_at_exit_and_per_save_witness :
  let rules := [(".example.com", 3)] in
  let b := Demo.bookmark 11 "First" "https://a.example.com/1" in
  let w := Demo.start [Demo.page [b; b]] ["s"; "2"; "Q"] in
  let r := main (L := Demo.library) 4 Demo.folders3 rules w in
  let table := JObj [(".example.com", JInt 3); ("a.example.com", JInt 2)] in
  let final_save := [EvMkdir CFG_DIR;
                     EvWrite (tmp_of RULES_PATH) (Demo.dump table);
                     EvReplace (tmp_of RULES_PATH) RULES_PATH;
                     EvChmod RULES_PATH] in
  exists events trigger,
    log (snd r) = (log w ++ events ++ trigger :: final_save)%list /\
    termination_trigger trigger /\
    count is_persist events = count is_saved_report events /\
    count is_persist (events ++ trigger :: final_save)
    = S (count is_saved_report (events ++ trigger :: final_save)) /\
    Dict.get (fs (snd r)) RULES_PATH = Some (Demo.dump table).
Proof.
  intros rules b w r table final_save.
  apply (run_persists_at_exit_and_per_save (L := Demo.library)
           4 Demo.folders3 rules
           [(".example.com", 3); ("a.example.com", 2)] w).
  vm_compute. reflexivity.
Defined.

(** C7, as stated, fails: a run may persist the table more than once
    before it exits. The user saves a rule with [s] and [2] on the first
    item and quits on the second: the run ends normally and has written
    the rule file twice, first for the saved rule and then for the
    termination. *)
Lemma persisted_twice_before_exit :
  let b := Demo.bookmark 11 "First" "https://a.example.com/1" in
  let w := Demo.start [Demo.page [b; b]] ["s"; "2"; "Q"] in
  let r := main (L := Demo.library) 4 Demo.folders3 [] w in
  fst r = inr (Some [("a.example.com", 2)]) /\
  filter is_persist (log (snd r))
  = [EvReplace (tmp_of RULES_PATH) RULES_PATH;
     EvReplace (tmp_of RULES_PATH) RULES_PATH] /\
  count is_persist (log (snd r)) <> 1%nat.
Proof.
  split; [vm_compute; reflexivity|].
  split; [vm_compute; reflexivity|].
  vm_compute. discriminate.
Qed.

(** The empty page on the first fetch: one request, one report, and the
    rule file written once with the table as it was loaded. *)
Example empty_first_page :
  let rules := [(".example.com", 3)] in
  let w := Demo.start [Demo.page []] [] in
  let r := session (L := Demo.library) Demo.folders3
             (build_keymap Demo.folders3 9) 1 rules w in
  fst r = inr (Some rules) /\
  log (snd r)
  = (EvPost (API_BASE ++ "/bookmarks/list")
       [("folder_id", "unread"); ("limit", "25")]
     :: EvPrint MsgNoUnread :: save_events (L := Demo.library) rules) /\
  count is_persist (log (snd r)) = 1%nat.
Proof. repeat split; vm_compute; reflexivity. Qed.

(** The [q] command after an [s] command: two writes, one for the saved
    rule and one for the termination. *)
Example quit_after_save :
  let b := Demo.bookmark 11 "First" "https://a.example.com/1" in
  let w := Demo.start [Demo.page [b; b]] ["s"; "2"; "Q"] in
  let r := main (L := Demo.library) 4 Demo.folders3 [] w in
  fst r = inr (Some [("a.example.com", 2)]) /\
  count is_persist (log (snd r)) = 2%nat /\
  count is_saved_report (log (snd r)) = 1%nat /\
  fs (snd r) = [(RULES_PATH, Demo.dump (rules_json [("a.example.com", 2)]))].
Proof. repeat split; vm_compute; reflexivity. Qed.

(** ** Configuration files *)

(** What [save_json] wrote at a path is what [load_json] reads there. *)
Lemma load_after_save `{L : Library} (path : string) (data default : json)
  (w : world) :
  let w' := snd (save_json path data w) in
  fst (save_json path data w) = inr tt /\
  load_json path default w' = lift (json_load (json_dump data)) w'.
Proof.
  cbv zeta. rewrite save_json_run. cbn [fst snd]. split; [reflexivity|].
  unfold load_json. cbn [fs]. rewrite fs_saved_get. reflexivity.
Qed.

(** ** The JSON text of a rule file, read back *)

Module DemoFacts.
Import Demo.

Lemma append_assoc (a b c : string) : ((a ++ b) ++ c = a ++ (b ++ c))%string.
Proof. induction a as [|x a IH]; simpl; [reflexivity|]. rewrite IH. reflexivity. Qed.

(** An escaped character is read back as the character. *)
Lemma parse_chars_escape_char (c : ascii) (rest : string) :
  parse_chars (escape_char c ++ rest) = cons_char c (parse_chars rest).
Proof.
  destruct c as [[] [] [] [] [] [] [] []]; reflexivity.
Qed.

Lemma parse_chars_escape (k tail : string) :
  parse_chars (escape k ++ String dquote tail) = Some (k, tail).
Proof.
  induction k as [|c k IH].
  - reflexivity.
  - cbn [escape]. rewrite append_assoc, parse_chars_escape_char, IH.
    reflexivity.
Qed.

Lemma parse_string_quote (k tail : string) :
  parse_string (quote k ++ tail) = Some (k, tail).
Proof.
  unfold quote. cbn [append parse_string].
  replace (Ascii.eqb dquote dquote) with true by reflexivity.
  rewrite append_assoc. apply parse_chars_escape.
Qed.

Lemma span_digits_uint (d : Decimal.uint) (tail : string) :
  no_digit_ahead tail ->
  span_digits (NilEmpty.string_of_uint d ++ tail)
  = (NilEmpty.string_of_uint d, tail).
Proof.
  intros Htail. induction d; cbn [NilEmpty.string_of_uint append span_digits];
    try (replace (digit_char _) with true by reflexivity; rewrite IHd; reflexivity).
  destruct tail as [|c tail]; [reflexivity|].
  cbn [span_digits]. simpl in Htail. rewrite Htail. reflexivity.
Qed.

Lemma uint_text_cases (d : Decimal.uint) :
  d = Decimal.Nil \/
  (NilZero.string_of_uint d = NilEmpty.string_of_uint d /\
   exists c s, NilEmpty.string_of_uint d = String c s /\ digit_char c = true).
Proof.
  destruct d; [left; reflexivity|right..];
    (split; [reflexivity|]); eexists _, _; split; reflexivity.
Qed.

(** The digits [str] writes for a number without sign: they begin with a
    digit and are read back as the number. *)
Lemma digits_read_back (d : Decimal.uint) (tail : string) :
  no_digit_ahead tail ->
  exists c s u,
    NilZero.string_of_uint d = String c s /\ digit_char c = true /\
    span_digits (String c s ++ tail) = (String c s, tail) /\
    NilEmpty.uint_of_string (String c s) = Some u /\
    Z.of_uint u = Z.of_uint d.
Proof.
  intros Htail.
  destruct (uint_text_cases d) as [->|[E (c & s & Hcs & Hc)]].
  - exists "0"%char, EmptyString, (Decimal.D0 Decimal.Nil).
    repeat split.
    destruct tail as [|c tail]; [reflexivity|].
    cbn [append span_digits]. replace (digit_char "0") with true by reflexivity.
    cbn [span_digits]. simpl in Htail. rewrite Htail. reflexivity.
  - exists c, s, d. rewrite E, <- Hcs.
    split; [reflexivity|]. split; [exact Hc|].
    split; [apply span_digits_uint; exact Htail|].
    split; [apply NilEmpty.usu|reflexivity].
Qed.

Lemma digit_not_minus (c : ascii) : digit_char c = true -> Ascii.eqb c "-" = false.
Proof.
  intros Hc. destruct (Ascii.eqb_spec c "-"%char) as [->|]; [discriminate|reflexivity].
Qed.

Lemma digit_not_space (c : ascii) : digit_char c = true -> json_space c = false.
Proof.
  unfold digit_char, json_space. intros Hc.
  apply andb_true_iff in Hc. destruct Hc as [H1 H2].
  apply Nat.leb_le in H1.
  repeat (apply orb_false_iff; split); apply Nat.eqb_neq; lia.
Qed.

(** An integer as [str] writes it is read back as that integer. *)
Lemma parse_number_of_Z (v : Z) (tail : string) :
  no_digit_ahead tail ->
  parse_number (Str.of_Z v ++ tail) = Some (v, tail).
Proof.
  intros Htail. unfold Str.of_Z.
  rewrite <- (DecimalZ.of_to v) at 2.
  destruct (Z.to_int v) as [d|d]; cbn [NilZero.string_of_int];
    destruct (digits_read_back d tail Htail) as (c & s & u & E & Hc & Hspan & Hu & Hz);
    rewrite E.
  - unfold parse_number. cbn [append].
    rewrite (digit_not_minus c Hc).
    change (String c (s ++ tail)) with (String c s ++ tail)%string.
    rewrite Hspan, Hu. cbn [Z.of_int]. rewrite Hz. reflexivity.
  - unfold parse_number. cbn [append].
    replace (Ascii.eqb "-" "-") with true by reflexivity.
    change (String c (s ++ tail)) with (String c s ++ tail)%string.
    rewrite Hspan, Hu. cbn [Z.of_int]. rewrite Hz. reflexivity.
Qed.

(** The text of an integer begins with a character that is not white
    space. *)
Lemma of_Z_head (v : Z) :
  exists c s, Str.of_Z v = String c s /\ json_space c = false.
Proof.
  unfold Str.of_Z. destruct (Z.to_int v) as [d|d]; cbn [NilZero.string_of_int].
  - destruct (digits_read_back d EmptyString I) as (c & s & _ & E & Hc & _).
    exists c, s. split; [exact E|apply digit_not_space; exact Hc].
  - eexists _, _. split; reflexivity.
Qed.

Lemma dump_more_head (rest : list (string * Z)) :
  no_digit_ahead (dump_more rest).
Proof. destruct rest; reflexivity. Qed.

Lemma dump_member_more (k : string) (v : Z) (rest : list (string * Z)) :
  dump_member (k, v) ++ dump_more rest
  = String " " (String " " (member_text k v rest)).
Proof.
  unfold dump_member, member_text. cbn [fst snd append].
  rewrite !append_assoc. reflexivity.
Qed.

Lemma skip_ws_keep (c : ascii) (s : string) :
  json_space c = false -> skip_ws (String c s) = String c s.
Proof. intros Hc. cbn [skip_ws]. rewrite Hc. reflexivity. Qed.

Lemma skip_ws_drop (c : ascii) (s : string) :
  json_space c = true -> skip_ws (String c s) = skip_ws s.
Proof. intros Hc. cbn [skip_ws]. rewrite Hc. reflexivity. Qed.

Lemma expect_hit (c : ascii) (s : string) :
  expect c (String c s) = Some (skip_ws s).
Proof. cbn [expect]. rewrite Ascii.eqb_refl. reflexivity. Qed.

Lemma skip_ws_of_Z (v : Z) (tail : string) :
  skip_ws (Str.of_Z v ++ tail) = (Str.of_Z v ++ tail)%string.
Proof.
  destruct (of_Z_head v) as (c & s & -> & Hc).
  cbn [append]. apply skip_ws_keep, Hc.
Qed.

Lemma skip_ws_member_text (k : string) (v : Z) (rest : list (string * Z)) :
  skip_ws (member_text k v rest) = member_text k v rest.
Proof. reflexivity. Qed.

(** What follows the key of a member: the colon, the number, and the
    text after the number. *)
Lemma parse_value_text (v : Z) (tail : string) :
  no_digit_ahead tail ->
  match expect ":" (skip_ws (": " ++ (Str.of_Z v ++ tail))) with
  | Some s2 => parse_number s2
  | None => None
  end = Some (v, tail).
Proof.
  intros Htail. cbn [append].
  rewrite (skip_ws_keep ":") by reflexivity.
  rewrite expect_hit, (skip_ws_drop " ") by reflexivity.
  rewrite skip_ws_of_Z. apply parse_number_of_Z, Htail.
Qed.

(** One member read: the key, the colon and the number. *)
Lemma parse_members_step (fuel : nat) (k : string) (v : Z) (tail : string) :
  no_digit_ahead tail ->
  parse_members (S fuel) (quote k ++ (": " ++ (Str.of_Z v ++ tail)))
  = match skip_ws tail with
    | String c s4 =>
        if Ascii.eqb c "}" then Some ([(k, v)], s4)
        else if Ascii.eqb c "," then
          match parse_members fuel (skip_ws s4) with
          | Some (more, s5) => Some ((k, v) :: more, s5)
          | None => None
          end
        else None
    | EmptyString => None
    end.
Proof.
  intros Htail. cbn [parse_members]. rewrite parse_string_quote.
  pose proof (parse_value_text v tail Htail) as Hv.
  destruct (expect ":" _) as [s2|]; [|discriminate].
  rewrite Hv. reflexivity.
Qed.

Lemma parse_members_text (rest : list (string * Z)) :
  forall (k : string) (v : Z) (fuel : nat),
    (List.length rest < fuel)%nat ->
    parse_members fuel (member_text k v rest) = Some ((k, v) :: rest, EmptyString).
Proof.
  induction rest as [|[k' v'] rest IH]; intros k v fuel Hfuel;
    (destruct fuel as [|fuel]; [simpl in Hfuel; lia|]);
    unfold member_text at 1;
    rewrite parse_members_step by apply dump_more_head.
  - reflexivity.
  - cbn [dump_more]. rewrite (skip_ws_keep ",") by reflexivity.
    replace (Ascii.eqb "," "}") with false by reflexivity.
    replace (Ascii.eqb "," ",") with true by reflexivity.
    rewrite dump_member_more.
    rewrite (skip_ws_drop newline), !(skip_ws_drop " ") by reflexivity.
    rewrite skip_ws_member_text, IH by (simpl in Hfuel; lia). reflexivity.
Qed.

Lemma dict_get_none_keys {V} (d : Dict.t V) (k : string) :
  ~ In k (Dict.keys d) -> Dict.get d k = None.
Proof.
  induction d as [|[k' v'] d IH]; simpl; [reflexivity|]. intros Hk.
  destruct (String.eqb_spec k' k) as [->|_]; [tauto|]. apply IH. tauto.
Qed.

Lemma dict_set_absent {V} (d : Dict.t V) (k : string) (v : V) :
  ~ In k (Dict.keys d) -> Dict.set d k v = (d ++ [(k, v)])%list.
Proof.
  intros Hk. rewrite <- (dict_setdefault_absent d k v (dict_get_none_keys d k Hk)).
  unfold Dict.setdefault, Dict.mem. rewrite (dict_get_none_keys d k Hk).
  reflexivity.
Qed.

(** Put one after the other into a dictionary, members with different
    keys give the dictionary with these members, in their order. *)
Lemma of_pairs_wf (pairs : list (string * Z)) :
  Dict.wf pairs -> of_pairs pairs = pairs.
Proof.
  unfold of_pairs, Dict.wf.
  assert (G : forall acc : Rules,
             NoDup (Dict.keys acc ++ Dict.keys pairs) ->
             fold_left (fun d kv => Dict.set d (fst kv) (snd kv)) pairs acc
             = (acc ++ pairs)%list).
  { induction pairs as [|[k v] pairs IH]; intros acc Hnd.
    - simpl. rewrite app_nil_r. reflexivity.
    - cbn [fold_left fst snd]. unfold Dict.keys in *. simpl in Hnd.
      rewrite dict_set_absent.
      + rewrite IH.
        * rewrite <- app_assoc. reflexivity.
        * rewrite map_app, <- app_assoc. exact Hnd.
      + apply NoDup_remove_2 in Hnd. intros Hin. apply Hnd.
        apply in_or_app. left. exact Hin. }
  intros Hwf. apply (G []). exact Hwf.
Qed.

Lemma length_append (a b : string) :
  String.length (a ++ b) = (String.length a + String.length b)%nat.
Proof. induction a as [|c a IH]; simpl; [reflexivity|]. rewrite IH. reflexivity. Qed.

Lemma dump_more_length (rest : list (string * Z)) :
  (List.length rest <= String.length (dump_more rest))%nat.
Proof.
  induction rest as [|kv rest IH]; simpl; [lia|].
  rewrite length_append. lia.
Qed.

(** The text of a rule table is read back as the table. *)
Lemma parse_rules_dump_rules (rules : Rules) :
  Dict.wf rules -> parse_rules (dump_rules rules) = Some rules.
Proof.
  intros Hwf. destruct rules as [|[k v] rest]; [reflexivity|].
  unfold parse_rules, dump_rules.
  set (text := String "{" _).
  assert (Hlen : (List.length rest < String.length text)%nat).
  { unfold text. cbn [String.length]. rewrite length_append.
    pose proof (dump_more_length rest). lia. }
  unfold text at 1. rewrite dump_member_more.
  rewrite (skip_ws_keep "{") by reflexivity.
  rewrite expect_hit.
  rewrite (skip_ws_drop newline), !(skip_ws_drop " ") by reflexivity.
  rewrite skip_ws_member_text.
  assert (Hhead : exists t, member_text k v rest = String dquote t)
    by (eexists; reflexivity).
  destruct Hhead as [t Ht]. rewrite Ht at 1.
  replace (Ascii.eqb dquote "}") with false by reflexivity.
  rewrite (parse_members_text rest k v _ Hlen).
  replace (at_end "") with true by reflexivity.
  rewrite (of_pairs_wf _ Hwf). reflexivity.
Qed.

Lemma rules_of_json_rules_json (rules : Rules) :
  rules_of_json (rules_json rules) = Some rules.
Proof.
  unfold rules_of_json, rules_json.
  induction rules as [|[k v] rules IH]; simpl; [reflexivity|].
  rewrite IH. reflexivity.
Qed.

(** The JSON library of [Demo] reads back every rule table it
    writes. *)
Lemma load_dump (rules : Rules) :
  Dict.wf rules ->
  load (dump (rules_json rules)) = inr (rules_json rules).
Proof.
  intros Hwf. unfold load, dump.
  rewrite rules_of_json_rules_json, (parse_rules_dump_rules rules Hwf).
  reflexivity.
Qed.

(** With this library, every rule table comes back from the rule file
    as it was saved. *)
Lemma rule_file_round_trip (rules : Rules) (default : json) (w : world) :
  Dict.wf rules ->
  let w' := snd (save_json (L := library) RULES_PATH (rules_json rules) w) in
  load_json (L := library) RULES_PATH default w' = (inr (rules_json rules), w').
Proof.
  intros Hwf w'.
  destruct (load_after_save (L := library) RULES_PATH (rules_json rules)
              default w) as [_ Hl].
  fold w' in Hl. rewrite Hl.
  change (json_load (json_dump (rules_json rules)))
    with (load (dump (rules_json rules))).
  rewrite (load_dump rules Hwf). reflexivity.
Qed.

End DemoFacts.



(** ** The scenarios of the specification *)

(** The catalog has three folders, the page one bookmark of
    [blog.example.com], the table the rule [.example.com -> 3]: the [a]
    command sends one move request, to folder 3. *)
Example scenario_auto_move :
  let b := Demo.bookmark 11 "A post" "https://blog.example.com/p" in
  let w := Demo.start [Demo.page [b]; Demo.ok (JObj []); Demo.page []] ["a"] in
  let r := main (L := Demo.library) 3 Demo.folders3 [(".example.com", 3)] w in
  fst r = inr (Some [(".example.com", 3)]) /\
  filter is_move (log (snd r))
  = [EvPost (API_BASE ++ "/bookmarks/move")
       [("bookmark_id", "11"); ("folder_id", "3")]].
Proof. split; vm_compute; reflexivity. Qed.

(** The same without a rule: [s], then the key [2], binds
    [blog.example.com] to folder 2 and writes the rule file; the
    suggestion for the domain is then 2. *)
Example scenario_save_rule :
  let b := Demo.bookmark 11 "A post" "https://blog.example.com/p" in
  let w := Demo.start [Demo.page [b]; Demo.page []] ["s"; "2"] in
  let r := main (L := Demo.library) 3 Demo.folders3 [] w in
  fst r = inr (Some [("blog.example.com", 2)]) /\
  Dict.get (fs (snd r)) RULES_PATH
  = Some (Demo.dump (rules_json [("blog.example.com", 2)])) /\
  suggest_folder "blog.example.com" [("blog.example.com", 2)] = Some 2.
Proof. repeat split; vm_compute; reflexivity. Qed.

(** * More of the code *)

(** ** The API operation wrapper, whatever the answers *)

(** The attempts of a run fail up to the first one that succeeds, if
    there is one among the first [n]. *)
Lemma first_success (w : world) (n : nat) :
  (exists k v,
      (k < n)%nat /\
      (forall j, (j < k)%nat -> forall u, verdict_of (upcoming w j) <> Success u) /\
      verdict_of (upcoming w k) = Success v)
  \/ (forall j, (j < n)%nat -> forall u, verdict_of (upcoming w j) <> Success u).
Proof.
  induction n as [|n [(k & v & Hk & Hf & Hs)|Hall]].
  - right. intros j Hj. lia.
  - left. exists k, v. split; [lia|auto].
  - destruct (verdict_of (upcoming w n)) as [v| |e] eqn:E.
    + left. exists n, v. split; [lia|]. split; [|exact E].
      intros j Hj. apply Hall, Hj.
    + right. intros j Hj u.
      destruct (Nat.eq_dec j n) as [->|]; [rewrite E; discriminate|].
      apply Hall. lia.
    + right. intros j Hj u.
      destruct (Nat.eq_dec j n) as [->|]; [rewrite E; discriminate|].
      apply Hall. lia.
Qed.

(** The two shapes of a call of [api_post]: [k] failed attempts, each
    followed by its sleep, and a successful one; or six failed attempts
    and [SystemExit]. *)
Lemma api_post_shape (path : string) (data : option (Dict.t string))
  (w : world) :
  let url := API_BASE ++ path in
  let payload := match data with Some d => d | None => [] end in
  (exists k v,
      (k < 6)%nat /\
      api_post path data w
      = (inr v,
         advance w (S k)
           (retry_events url payload (seq 0 k) ++ [EvPost url payload])))
  \/ (exists last_err,
         api_post path data w
         = (inl (SystemExit (ApiRequestFailed path last_err)),
            advance w 6 (retry_events url payload (seq 0 6)))).
Proof.
  intros url payload. unfold api_post. fold url payload.
  destruct (first_success w 6) as [(k & v & Hk & Hf & Hs)|Hall].
  - left. exists k, v. split; [exact Hk|].
    rewrite (api_post_loop_success path url payload (seq 0 6) None w k v);
      [|rewrite length_seq; exact Hk|exact Hf|exact Hs].
    rewrite firstn_seq_le by lia. reflexivity.
  - right. eexists.
    rewrite (api_post_loop_exhausted path url payload (seq 0 6) None w);
      [|rewrite length_seq; exact Hall].
    rewrite length_seq. reflexivity.
Qed.

Lemma slept_app (e1 e2 : list event) :
  (slept (e1 ++ e2) == slept e1 + slept e2)%Q.
Proof.
  induction e1 as [|e e1 IH]; simpl.
  - ring.
  - destruct e; try exact IH. rewrite IH. ring.
Qed.

(** After [k] failed attempts the call has slept [0.6 * (2^k - 1)]
    seconds. *)
Lemma slept_retry_events (url : string) (payload : Dict.t string) (k : nat) :
  (k <= 6)%nat ->
  (slept (retry_events url payload (seq 0 k))
   == (6 # 10) * (inject_Z (2 ^ Z.of_nat k) - 1))%Q /\
  (slept (retry_events url payload (seq 0 k)) <= 378 # 10)%Q.
Proof.
  intros Hk.
  do 7 (destruct k as [|k]; [split; vm_compute; congruence|]).
  lia.
Qed.

(** X1. A call of [api_post] that has [k] failed attempts sleeps
    [0.6 * (2^k - 1)] seconds in all, at most 37.8 seconds; [k] is the
    number of attempts when the call fails and one less when it
    succeeds. *)
Theorem api_post_total_delay (path : string) (data : option (Dict.t string))
  (w : world) :
  let r := api_post path data w in
  exists k ev,
    (k <= 6)%nat /\
    log (snd r) = (log w ++ ev)%list /\
    (slept ev == (6 # 10) * (inject_Z (2 ^ Z.of_nat k) - 1))%Q /\
    (slept ev <= 378 # 10)%Q /\
    attempts_made path data w
    = match fst r with inr _ => S k | inl _ => k end.
Proof.
  cbv zeta. unfold attempts_made.
  destruct (api_post_shape path data w) as [(k & v & Hk & E)|(le & E)];
    rewrite E; cbn [fst snd].
  - set (url := API_BASE ++ path). set (payload := match data with Some d => d | None => [] end).
    exists k, (retry_events url payload (seq 0 k) ++ [EvPost url payload])%list.
    destruct (slept_retry_events url payload k ltac:(lia)) as [He Hb].
    split; [lia|]. split; [reflexivity|].
    assert (Hs : (slept (retry_events url payload (seq 0 k) ++ [EvPost url payload])
                  == slept (retry_events url payload (seq 0 k)))%Q).
    { rewrite slept_app. simpl. ring. }
    split; [rewrite Hs; exact He|]. split; [rewrite Hs; exact Hb|].
    unfold advance. cbn [posts]. lia.
  - set (url := API_BASE ++ path). set (payload := match data with Some d => d | None => [] end).
    exists 6%nat, (retry_events url payload (seq 0 6)).
    destruct (slept_retry_events url payload 6 ltac:(lia)) as [He Hb].
    split; [lia|]. split; [reflexivity|]. split; [exact He|].
    split; [exact Hb|]. unfold advance. cbn [posts]. lia.
Qed.

Lemma retry_events_call_events (url : string) (payload : Dict.t string)
  (attempts : list nat) :
  Forall (fun a => (a < 6)%nat) attempts ->
  Forall (call_event url payload) (retry_events url payload attempts) /\
  count is_post (retry_events url payload attempts) = List.length attempts.
Proof.
  induction 1 as [|a attempts Ha _ [IH1 IH2]]; simpl.
  - split; [constructor|reflexivity].
  - split.
    + constructor; [left; reflexivity|].
      constructor; [right; exists a; auto|exact IH1].
    + unfold count in *. simpl. rewrite IH2. reflexivity.
Qed.

Lemma seq_below (k n : nat) :
  (k <= n)%nat -> Forall (fun a => (a < n)%nat) (seq 0 k).
Proof.
  intros Hk. apply Forall_forall. intros a Ha. apply in_seq in Ha. lia.
Qed.

(** The effects of a call: requests and sleeps of the call, in a world
    advanced by the requests made. *)
Lemma api_post_repeats_one_request_shape (path : string)
  (data : option (Dict.t string)) (w : world) :
  let url := API_BASE ++ path in
  let payload := match data with Some d => d | None => [] end in
  exists n ev,
    snd (api_post path data w) = advance w n ev /\
    Forall (call_event url payload) ev.
Proof.
  intros url payload.
  destruct (api_post_shape path data w) as [(k & v & Hk & E)|(le & E)];
    fold url payload in E; rewrite E; cbn [snd].
  - destruct (retry_events_call_events url payload (seq 0 k)
                (seq_below k 6 ltac:(lia))) as [Hf _].
    eexists _, _. split; [reflexivity|].
    apply Forall_app. split; [exact Hf|].
    constructor; [left; reflexivity|constructor].
  - destruct (retry_events_call_events url payload (seq 0 6)
                (seq_below 6 6 ltac:(lia))) as [Hf _].
    eexists _, _. split; [reflexivity|exact Hf].
Qed.

(** X2. A call of [api_post] sends one and the same request, between
    one and six times, with a sleep of the schedule after each failed
    attempt, and does nothing else: it reads no input, prints nothing
    and leaves the files as they are. *)
Theorem api_post_repeats_one_request (path : string)
  (data : option (Dict.t string)) (w : world) :
  let url := API_BASE ++ path in
  let payload := match data with Some d => d | None => [] end in
  exists n ev,
    (1 <= n <= 6)%nat /\
    snd (api_post path data w) = advance w n ev /\
    count is_post ev = n /\
    Forall (call_event url payload) ev /\
    hd_error ev = Some (EvPost url payload).
Proof.
  intros url payload.
  destruct (api_post_shape path data w) as [(k & v & Hk & E)|(le & E)];
    fold url payload in E; rewrite E; cbn [snd].
  - destruct (retry_events_call_events url payload (seq 0 k)
                (seq_below k 6 ltac:(lia))) as [Hf Hc].
    rewrite length_seq in Hc.
    exists (S k), (retry_events url payload (seq 0 k) ++ [EvPost url payload])%list.
    split; [lia|]. split; [reflexivity|].
    split; [rewrite count_app, Hc; unfold count; simpl; lia|].
    split.
    + apply Forall_app. split; [exact Hf|].
      constructor; [left; reflexivity|constructor].
    + destruct k; reflexivity.
  - destruct (retry_events_call_events url payload (seq 0 6)
                (seq_below 6 6 ltac:(lia))) as [Hf Hc].
    exists 6%nat, (retry_events url payload (seq 0 6)).
    split; [lia|]. split; [reflexivity|]. split; [exact Hc|].
    split; [exact Hf|reflexivity].
Qed.

Lemma verdict_not_success (o : outcome) (v : json) :
  verdict_of o <> Success v -> ~ succeeds_with o v.
Proof. intros Hv Hs. apply Hv, succeeds_with_verdict, Hs. Qed.

Lemma last_error_origin (e : exn) (vs : list verdict) :
  forall le, last_error le vs = Some e -> le = Some e \/ In (RetryError e) vs.
Proof.
  induction vs as [|x vs IH]; intros le Hle; [left; exact Hle|].
  unfold last_error in Hle. cbn [fold_left] in Hle.
  destruct (IH _ Hle) as [Hx|Hin]; [|right; right; exact Hin].
  destruct x; try (left; exact Hx).
  right. left. congruence.
Qed.

(** X3. A call of [api_post] fails in one way only: by [SystemExit],
    after six attempts none of which succeeded and six sleeps, the last
    one of 19.2 seconds; no [Exception] comes out of it. *)
Theorem api_post_fails_only_by_exit (path : string)
  (data : option (Dict.t string)) (w : world) (u : unwinding) :
  fst (api_post path data w) = inl u ->
  let url := API_BASE ++ path in
  let payload := match data with Some d => d | None => [] end in
  exists last_err,
    u = SystemExit (ApiRequestFailed path last_err) /\
    snd (api_post path data w)
    = advance w 6 (retry_events url payload (seq 0 6)) /\
    (forall j v, (j < 6)%nat -> ~ succeeds_with (upcoming w j) v) /\
    (forall e, last_err = Some e ->
               exists j, (j < 6)%nat /\ verdict_of (upcoming w j) = RetryError e).
Proof.
  intros Hu url payload. unfold api_post in *. fold url payload in Hu |- *.
  destruct (first_success w 6) as [(k & v & Hk & Hf & Hs)|Hall].
  - rewrite (api_post_loop_success path url payload (seq 0 6) None w k v) in Hu;
      [discriminate|rewrite length_seq; exact Hk|exact Hf|exact Hs].
  - rewrite (api_post_loop_exhausted path url payload (seq 0 6) None w) in Hu |- *;
      try (rewrite length_seq; exact Hall).
    rewrite length_seq in *. cbn [fst] in Hu. injection Hu as <-.
    cbn [snd].
    exists (last_error None (map (fun j => verdict_of (upcoming w j)) (seq 0 6))).
    split; [reflexivity|]. split; [reflexivity|]. split.
    + intros j v Hj. apply verdict_not_success, Hall, Hj.
    + intros e He.
      destruct (last_error_origin e _ _ He) as [Hn|Hin]; [discriminate|].
      apply in_map_iff in Hin. destruct Hin as (j & Hj & Hin').
      apply in_seq in Hin'. exists j. split; [lia|exact Hj].
Qed.

Lemma api_post_fails_only_by_exit_witness :
  let w := Demo.start (repeat (Demo.status 404) 6) [] in
  let url := API_BASE ++ "/folders/list" in
  exists last_err,
    SystemExit (ApiRequestFailed "/folders/list" (Some (HTTPError 404)))
    = SystemExit (ApiRequestFailed "/folders/list" last_err) /\
    snd (api_post "/folders/list" None w)
    = advance w 6 (retry_events url [] (seq 0 6)) /\
    (forall j v, (j < 6)%nat -> ~ succeeds_with (upcoming w j) v) /\
    (forall e, last_err = Some e ->
               exists j, (j < 6)%nat /\ verdict_of (upcoming w j) = RetryError e).
Proof.
  intros w url.
  apply (api_post_fails_only_by_exit "/folders/list" None w).
  vm_compute. reflexivity.
Defined.

(** ** Rules, recorded and suggested *)

(** X4. Once a rule is recorded for a domain, the suggestion for that
    domain is the recorded folder, whatever suffix patterns the table
    holds: after an explicit save it is the saved folder; after an
    implicit learning it is the folder the domain was bound to before,
    or the learnt one when it had none. *)
Theorem recorded_rule_is_suggested (R : Rules) (d : string) (v : Z) :
  suggest_folder d (Dict.set R d v) = Some v /\
  suggest_folder d (Dict.setdefault R d v)
  = Some (match Dict.get R d with Some u => u | None => v end).
Proof.
  unfold suggest_folder. split.
  - rewrite dict_get_set_same. reflexivity.
  - unfold Dict.setdefault, Dict.mem.
    destruct (Dict.get R d) as [u|] eqn:E.
    + rewrite E. reflexivity.
    + rewrite dict_get_set_same. reflexivity.
Qed.

Lemma first_suffix_rule_set (R : Rules) (d d' : string) (v : Z) :
  Str.startswith d "." = false ->
  first_suffix_rule d' (Dict.set R d v) = first_suffix_rule d' R.
Proof.
  intros Hd. induction R as [|[k u] R IH]; simpl.
  - rewrite Hd. reflexivity.
  - destruct (String.eqb_spec k d) as [->|Hk]; simpl.
    + rewrite Hd. reflexivity.
    + rewrite IH. reflexivity.
Qed.

(** X5. Recording a rule for a domain that does not begin with a dot
    changes the suggestion of no other domain. *)
Theorem record_keeps_other_suggestions (R : Rules) (d d' : string) (v : Z) :
  ~ suffix_pattern d ->
  d' <> d ->
  suggest_folder d' (Dict.set R d v) = suggest_folder d' R /\
  suggest_folder d' (Dict.setdefault R d v) = suggest_folder d' R.
Proof.
  intros Hdot Hd.
  assert (Hs : Str.startswith d "." = false).
  { destruct (Str.startswith d ".") eqn:E; [|reflexivity].
    exfalso. apply Hdot, startswith_dot, E. }
  assert (Hset : suggest_folder d' (Dict.set R d v) = suggest_folder d' R).
  { unfold suggest_folder.
    rewrite (dict_get_set_other R d d' v Hd), (first_suffix_rule_set R d d' v Hs).
    reflexivity. }
  split; [exact Hset|].
  unfold Dict.setdefault. destruct (Dict.mem R d); [reflexivity|exact Hset].
Qed.

Lemma record_keeps_other_suggestions_witness :
  let R := [(".example.com", 3)] in
  suggest_folder "blog.example.com" (Dict.set R "news.example.org" 2)
  = suggest_folder "blog.example.com" R /\
  suggest_folder "blog.example.com" (Dict.setdefault R "news.example.org" 2)
  = suggest_folder "blog.example.com" R.
Proof.
  intros R.
  apply (record_keeps_other_suggestions R "news.example.org"
           "blog.example.com" 2).
  - intros [t E]. discriminate E.
  - discriminate.
Defined.

Lemma ends_with_length (d p : string) :
  ends_with d p -> (String.length p <= String.length d)%nat.
Proof.
  intros [s ->]. rewrite DemoFacts.length_append. lia.
Qed.

(** X6. A rule whose pattern is longer than the domain never applies to
    it: a table of such rules suggests nothing. So the pattern
    [.example.com] does not cover [example.com] itself. *)
Theorem longer_pattern_never_matches (d : string) (R : Rules) :
  Forall (fun kv => (String.length d < String.length (fst kv))%nat) R ->
  suggest_folder d R = None.
Proof.
  intros HR. unfold suggest_folder.
  assert (G : Dict.get R d = None /\ first_suffix_rule d R = None).
  { induction HR as [|[k v] R Hk _ [IH1 IH2]]; [split; reflexivity|].
    simpl in Hk |- *. split.
    - destruct (String.eqb_spec k d) as [->|_]; [lia|exact IH1].
    - destruct (Str.endswith d k) eqn:E.
      + apply endswith_ends_with, ends_with_length in E. lia.
      + rewrite andb_false_r. exact IH2. }
  destruct G as [-> ->]. reflexivity.
Qed.

Lemma longer_pattern_never_matches_witness :
  suggest_folder "example.com" [(".example.com", 3)] = None.
Proof.
  apply longer_pattern_never_matches.
  repeat constructor.
Defined.

(** ** The key map *)

(** [str] of two different integers gives two different texts. *)
Lemma of_Z_inj (a b : Z) : Str.of_Z a = Str.of_Z b -> a = b.
Proof.
  intros E.
  pose proof (DemoFacts.parse_number_of_Z a EmptyString I) as Ha.
  pose proof (DemoFacts.parse_number_of_Z b EmptyString I) as Hb.
  rewrite E, Hb in Ha. congruence.
Qed.

Lemma key_inj (a b : nat) :
  Str.of_Z (Z.of_nat a + 1) = Str.of_Z (Z.of_nat b + 1) -> a = b.
Proof. intros E. apply of_Z_inj in E. lia. Qed.

Lemma uint_text_digits (d : Decimal.uint) :
  all_chars Demo.digit_char (NilEmpty.string_of_uint d) = true.
Proof. induction d; simpl; try exact IHd; reflexivity. Qed.

(** The text of a positive integer: digits, and at least one. *)
Lemma key_text (i : nat) :
  exists c s,
    Str.of_Z (Z.of_nat i + 1) = String c s /\
    all_chars Demo.digit_char (String c s) = true.
Proof.
  unfold Str.of_Z.
  replace (Z.of_nat i + 1) with (Z.pos (Pos.of_succ_nat i)) by lia.
  cbn [Z.to_int NilZero.string_of_int].
  destruct (DemoFacts.uint_text_cases (Pos.to_uint (Pos.of_succ_nat i)))
    as [E|[E (c & s & Hcs & _)]].
  - exfalso. exact (DecimalPos.Unsigned.to_uint_nonnil _ E).
  - exists c, s. rewrite E. split; [exact Hcs|].
    rewrite <- Hcs. apply uint_text_digits.
Qed.

Lemma digit_plain (c : ascii) :
  Demo.digit_char c = true -> Str.isspace c = false /\ Str.lower_char c = c.
Proof.
  unfold Demo.digit_char, Str.isspace, Str.lower_char. intros Hc.
  apply andb_true_iff in Hc. destruct Hc as [H1 H2].
  apply Nat.leb_le in H1, H2.
  split;
    repeat match goal with
           | |- context [(?a <=? ?b)%nat] => destruct (Nat.leb_spec a b)
           | |- context [(?a =? ?b)%nat] => destruct (Nat.eqb_spec a b)
           end; try reflexivity; lia.
Qed.

(** A text of digits is left as it is by [strip] and by [lower]. *)
Lemma digits_plain (s : string) :
  all_chars Demo.digit_char s = true ->
  Str.lstrip s = s /\ Str.rstrip s = s /\ Str.lower s = s.
Proof.
  induction s as [|c s IH]; [repeat split|].
  cbn [all_chars]. intros H. apply andb_true_iff in H. destruct H as [Hc Hs].
  destruct (digit_plain c Hc) as [Hsp Hlo].
  destruct (IH Hs) as (_ & Hr & Hl).
  split; [cbn [Str.lstrip]; rewrite Hsp; reflexivity|].
  split.
  - cbn [Str.rstrip]. rewrite Hr, Hsp. destruct s; reflexivity.
  - cbn [Str.lower]. rewrite Hlo, Hl. reflexivity.
Qed.

Lemma get_map_seq_hit {V} (key : nat -> string) (val : nat -> V)
  (l : list nat) (j : nat) :
  (forall a b, key a = key b -> a = b) ->
  In j l ->
  Dict.get (map (fun i => (key i, val i)) l) (key j) = Some (val j).
Proof.
  intros Hinj. induction l as [|i l IH]; intros Hj; [contradiction|].
  simpl. destruct (String.eqb_spec (key i) (key j)) as [E|E].
  - rewrite (Hinj _ _ E). reflexivity.
  - destruct Hj as [->|Hj]; [congruence|]. exact (IH Hj).
Qed.

Lemma get_map_seq_inv {V} (key : nat -> string) (val : nat -> V)
  (l : list nat) (k : string) (v : V) :
  Dict.get (map (fun i => (key i, val i)) l) k = Some v ->
  exists i, In i l /\ k = key i /\ v = val i.
Proof.
  induction l as [|i l IH]; simpl; [discriminate|].
  destruct (String.eqb_spec (key i) k) as [E|E].
  - intros [= <-]. exists i. auto.
  - intros H. destruct (IH H) as (j & Hj & Hk & Hv). exists j. auto.
Qed.

Lemma NoDup_map_inj {A B} (f : A -> B) (l : list A) :
  (forall a b, f a = f b -> a = b) -> NoDup l -> NoDup (map f l).
Proof.
  intros Hinj. induction 1 as [|x l Hx _ IH]; simpl; constructor; [|exact IH].
  intros Hin. apply in_map_iff in Hin. destruct Hin as (y & Hy & Hin).
  apply Hinj in Hy. subst y. contradiction.
Qed.

(** The keys of the key map and what they are bound to. *)
Lemma build_keymap_get_inv (folders : list Folder) (max_keys : nat)
  (k : string) (f : Folder) :
  Dict.get (build_keymap folders max_keys) k = Some f ->
  exists i,
    (i < Nat.min max_keys (List.length folders))%nat /\
    k = Str.of_Z (Z.of_nat i + 1) /\
    nth_error folders i = Some f.
Proof.
  unfold build_keymap. intros H.
  apply (get_map_seq_inv (fun i => Str.of_Z (Z.of_nat i + 1))
           (fun i => nth i folders (mkFolder 0 ""))) in H.
  destruct H as (i & Hi & -> & ->). apply in_seq in Hi.
  exists i. split; [lia|]. split; [reflexivity|].
  apply nth_error_nth'. lia.
Qed.

Lemma build_keymap_get_hit (folders : list Folder) (max_keys i : nat) :
  (i < Nat.min max_keys (List.length folders))%nat ->
  Dict.get (build_keymap folders max_keys) (Str.of_Z (Z.of_nat i + 1))
  = nth_error folders i.
Proof.
  intros Hi. unfold build_keymap.
  rewrite (get_map_seq_hit (fun i => Str.of_Z (Z.of_nat i + 1))
             (fun i => nth i folders (mkFolder 0 ""))).
  - symmetry. apply nth_error_nth'. lia.
  - intros a b. apply key_inj.
  - apply in_seq. lia.
Qed.

(** A key is read as typed and is none of the letter commands. *)
Lemma key_plain (i : nat) :
  let k := Str.of_Z (Z.of_nat i + 1) in
  command_of k = k /\ Str.strip k = k /\ other_command k.
Proof.
  cbv zeta. destruct (key_text i) as (c & s & -> & Hd).
  destruct (digits_plain _ Hd) as (Hl & Hr & Hlo).
  assert (Hstrip : Str.strip (String c s) = String c s)
    by (unfold Str.strip; rewrite Hl, Hr; reflexivity).
  split; [unfold command_of; rewrite Hstrip, Hlo; reflexivity|].
  split; [exact Hstrip|].
  cbn [all_chars] in Hd. apply andb_true_iff in Hd. destruct Hd as [Hc _].
  unfold other_command.
  repeat split; intros E; try discriminate E;
    injection E as -> _; discriminate Hc.
Qed.

(** X7. The key map binds the keys [1] to [n], [n] being the smaller of
    the number of keys asked for and the number of folders, to the
    first [n] folders in their order, and nothing else; no key is bound
    twice. *)
Theorem build_keymap_bindings (folders : list Folder) (max_keys : nat) :
  let km := build_keymap folders max_keys in
  let n := Nat.min max_keys (List.length folders) in
  List.length km = n /\
  Dict.wf km /\
  (forall i, (i < n)%nat ->
             Dict.get km (Str.of_Z (Z.of_nat i + 1)) = nth_error folders i) /\
  (forall k f, Dict.get km k = Some f ->
               exists i, (i < n)%nat /\ k = Str.of_Z (Z.of_nat i + 1) /\
                         nth_error folders i = Some f).
Proof.
  intros km n. split; [|split; [|split]].
  - unfold km, build_keymap. rewrite length_map, length_seq. reflexivity.
  - unfold Dict.wf, Dict.keys, km, build_keymap. rewrite map_map. cbn [fst].
    apply NoDup_map_inj; [intros a b; apply key_inj|apply seq_NoDup].
  - intros i Hi. apply build_keymap_get_hit, Hi.
  - intros k f. apply build_keymap_get_inv.
Qed.

(** X8. A key of the key map is read as typed, since [strip] and
    [lower] leave it as it is, and it is none of the commands [q], [n],
    the empty line, [a] and [s]: the letter commands never hide a
    folder key. *)
Theorem keymap_keys_are_plain_commands (folders : list Folder)
  (max_keys : nat) (k : string) (f : Folder) :
  Dict.get (build_keymap folders max_keys) k = Some f ->
  command_of k = k /\ Str.strip k = k /\ other_command k.
Proof.
  intros H. destruct (build_keymap_get_inv _ _ _ _ H) as (i & _ & -> & _).
  apply key_plain.
Qed.

Lemma keymap_keys_are_plain_commands_witness :
  command_of "2" = "2" /\ Str.strip "2" = "2" /\ other_command "2".
Proof.
  apply (keymap_keys_are_plain_commands Demo.folders3 9 "2" (mkFolder 2 "News")).
  reflexivity.
Defined.

Lemma build_keymap_bindings_witness :
  Dict.get (build_keymap Demo.folders3 9) (Str.of_Z (Z.of_nat 2 + 1))
  = nth_error Demo.folders3 2.
Proof.
  apply (proj1 (proj2 (proj2 (build_keymap_bindings Demo.folders3 9)))).
  simpl. lia.
Defined.

(** X9. [pick_folder_name] gives the title of the first folder of the
    catalog that has the id, and nothing exactly when no folder has
    it. *)
Theorem pick_folder_name_first (folders : list Folder) (id : Z) :
  match pick_folder_name folders id with
  | Some t =>
      exists pre f post,
        folders = (pre ++ f :: post)%list /\
        folder_id f = id /\ title f = t /\
        Forall (fun g => folder_id g <> id) pre
  | None => Forall (fun g => folder_id g <> id) folders
  end.
Proof.
  induction folders as [|f folders IH]; simpl; [constructor|].
  destruct (Z.eqb_spec (folder_id f) id) as [E|E].
  - exists [], f, folders. repeat split; [exact E|constructor].
  - destruct (pick_folder_name folders id) as [t|].
    + destruct IH as (pre & g & post & -> & Hg & Ht & Hpre).
      exists (f :: pre), g, post. repeat split; try assumption.
      constructor; assumption.
    + constructor; assumption.
Qed.

(** ** Input lines *)

Lemma isspace_lower (c : ascii) :
  Str.isspace (Str.lower_char c) = Str.isspace c.
Proof. destruct c as [[] [] [] [] [] [] [] []]; reflexivity. Qed.

Lemma lower_char_idem (c : ascii) :
  Str.lower_char (Str.lower_char c) = Str.lower_char c.
Proof. destruct c as [[] [] [] [] [] [] [] []]; reflexivity. Qed.

Lemma lower_idem (s : string) : Str.lower (Str.lower s) = Str.lower s.
Proof.
  induction s as [|c s IH]; simpl; [reflexivity|].
  rewrite lower_char_idem, IH. reflexivity.
Qed.

Lemma lstrip_lower (s : string) :
  Str.lstrip (Str.lower s) = Str.lower (Str.lstrip s).
Proof.
  induction s as [|c s IH]; simpl; [reflexivity|].
  rewrite isspace_lower. destruct (Str.isspace c); [exact IH|reflexivity].
Qed.

Lemma rstrip_lower (s : string) :
  Str.rstrip (Str.lower s) = Str.lower (Str.rstrip s).
Proof.
  induction s as [|c s IH]; simpl; [reflexivity|].
  rewrite IH, isspace_lower.
  destruct (Str.rstrip s); simpl; [destruct (Str.isspace c)|]; reflexivity.
Qed.

(** [strip] and [lower] can be done in either order. *)
Lemma strip_lower (s : string) :
  Str.strip (Str.lower s) = Str.lower (Str.strip s).
Proof. unfold Str.strip. rewrite lstrip_lower, rstrip_lower. reflexivity. Qed.

Lemma lstrip_spaces (pad s : string) :
  all_chars Str.isspace pad = true -> Str.lstrip (pad ++ s) = Str.lstrip s.
Proof.
  induction pad as [|c pad IH]; simpl; [reflexivity|].
  intros H. apply andb_true_iff in H. destruct H as [-> Hp]. exact (IH Hp).
Qed.

Lemma rstrip_all_spaces (pad : string) :
  all_chars Str.isspace pad = true -> Str.rstrip pad = EmptyString.
Proof.
  induction pad as [|c pad IH]; simpl; [reflexivity|].
  intros H. apply andb_true_iff in H. destruct H as [-> Hp].
  rewrite (IH Hp). reflexivity.
Qed.

Lemma rstrip_spaces (s pad : string) :
  all_chars Str.isspace pad = true -> Str.rstrip (s ++ pad) = Str.rstrip s.
Proof.
  intros Hp. induction s as [|c s IH]; simpl.
  - apply rstrip_all_spaces, Hp.
  - rewrite IH. reflexivity.
Qed.

Lemma lstrip_all_spaces (pad : string) :
  all_chars Str.isspace pad = true -> Str.lstrip pad = EmptyString.
Proof.
  induction pad as [|c pad IH]; simpl; [reflexivity|].
  intros H. apply andb_true_iff in H. destruct H as [-> Hp]. exact (IH Hp).
Qed.

Lemma strip_right_spaces (s pad : string) :
  all_chars Str.isspace pad = true -> Str.strip (s ++ pad) = Str.strip s.
Proof.
  intros Hp. unfold Str.strip. induction s as [|c s IH]; simpl.
  - rewrite (lstrip_all_spaces pad Hp). reflexivity.
  - destruct (Str.isspace c); [exact IH|].
    change (String c (s ++ pad)) with (String c s ++ pad)%string.
    apply rstrip_spaces, Hp.
Qed.

(** X10. The command read from a line does not depend on the white
    space around it nor on the case of its letters: white space is what
    [strip] removes (among the characters up to U+00FF, the ASCII white
    space, NEXT LINE and NO-BREAK SPACE), and two lines have the same
    letters up to case when [lower] makes them equal. *)
Theorem command_ignores_case_and_padding (before after line line' : string) :
  all_chars Str.isspace before = true ->
  all_chars Str.isspace after = true ->
  Str.lower line = Str.lower line' ->
  command_of (before ++ line ++ after) = command_of line'.
Proof.
  intros Hb Ha Hl. unfold command_of.
  assert (Hs : Str.strip (before ++ line ++ after) = Str.strip line).
  { unfold Str.strip at 1. rewrite (lstrip_spaces before _ Hb).
    fold (Str.strip (line ++ after)). apply strip_right_spaces, Ha. }
  rewrite Hs, <- !strip_lower, Hl. reflexivity.
Qed.

Lemma command_ignores_case_and_padding_witness :
  command_of (String " " (String NBSP "") ++ "Q" ++ String NEL " ")
  = command_of "q".
Proof.
  apply (command_ignores_case_and_padding
           (String " " (String NBSP "")) (String NEL " ") "Q" "q");
    reflexivity.
Defined.

Lemma rstrip_idem (s : string) : Str.rstrip (Str.rstrip s) = Str.rstrip s.
Proof.
  induction s as [|c s IH]; [reflexivity|].
  cbn [Str.rstrip]. destruct (Str.rstrip s) as [|a t] eqn:E.
  - destruct (Str.isspace c) eqn:Hc; [reflexivity|].
    cbn [Str.rstrip]. rewrite Hc. reflexivity.
  - cbn [Str.rstrip] in IH |- *.
    destruct (Str.rstrip t) as [|a' t'] eqn:Et.
    + destruct (Str.isspace a); [discriminate IH|].
      injection IH as <-. reflexivity.
    + injection IH as <-. reflexivity.
Qed.

(** What [lstrip] leaves is empty or begins with a character that is
    not white space. *)
Lemma lstrip_head (s : string) :
  match Str.lstrip s with
  | EmptyString => True
  | String c _ => Str.isspace c = false
  end.
Proof.
  induction s as [|c s IH]; simpl; [exact I|].
  destruct (Str.isspace c) eqn:E; [exact IH|exact E].
Qed.

Lemma strip_idem (s : string) : Str.strip (Str.strip s) = Str.strip s.
Proof.
  unfold Str.strip. pose proof (lstrip_head s) as Hh.
  destruct (Str.lstrip s) as [|c t]; [reflexivity|].
  assert (Hl : Str.lstrip (Str.rstrip (String c t)) = Str.rstrip (String c t)).
  { cbn [Str.rstrip]. rewrite Hh.
    destruct (Str.rstrip t); cbn [Str.lstrip]; rewrite Hh; reflexivity. }
  rewrite Hl. apply rstrip_idem.
Qed.

Section ItemFacts.
Context `{L : Library}.

(** [(x or "").strip()] for a field that is missing, null or a text. *)
Lemma strip_or_empty (s : string) :
  Py.strip (py_or (JStr s) (JStr "")) = inr (Str.strip s).
Proof. destruct s; reflexivity. Qed.

Lemma strip_blank (s : string) :
  all_chars Str.isspace s = true -> Str.strip s = "".
Proof.
  intros H. unfold Str.strip. rewrite (lstrip_all_spaces s H). reflexivity.
Qed.

(** The text [(b.get(k) or "").strip()] of a field. *)
Lemma field_text (d : Dict.t json) (k : string) :
  text_field d k ->
  Py.get (JObj d) k
  = inr (match Dict.get d k with Some v => v | None => JNull end) /\
  Py.strip (py_or (match Dict.get d k with Some v => v | None => JNull end)
              (JStr ""))
  = inr (match Dict.get d k with
         | Some (JStr s) => Str.strip s
         | _ => ""
         end).
Proof.
  cbn [Py.get].
  intros [H|[H|(s & H)]]; rewrite H; (split; [reflexivity|]).
  - reflexivity.
  - reflexivity.
  - apply strip_or_empty.
Qed.

(** X11. What the session reads from a bookmark. The title it shows is
    never empty and has no white space around it, and the URL has none
    either. A title that is missing, null or made of white space only
    becomes [(no title)]; any other text is shown stripped. A URL that
    is missing or null is read as the empty text, any other text
    stripped. The bookmark is read whenever its [bookmark_id] is
    accepted by [int] and title and URL are missing, null or texts; a
    bookmark without [bookmark_id] cannot be read: [KeyError]. *)
Theorem read_item_fields (b : json) :
  (forall it,
      read_item b = inr it ->
      item_title it <> "" /\
      Str.strip (item_title it) = item_title it /\
      Str.strip (item_url it) = item_url it) /\
  (forall d it,
      b = JObj d -> read_item b = inr it ->
      (blank_field d "title" -> item_title it = "(no title)") /\
      (forall s, Dict.get d "title" = Some (JStr s) -> Str.strip s <> "" ->
                 item_title it = Str.strip s) /\
      (Dict.get d "url" = None \/ Dict.get d "url" = Some JNull ->
       item_url it = "") /\
      (forall s, Dict.get d "url" = Some (JStr s) ->
                 item_url it = Str.strip s)) /\
  (forall d x bid,
      b = JObj d ->
      Dict.get d "bookmark_id" = Some x -> Py.int x = inr bid ->
      text_field d "title" -> text_field d "url" ->
      exists it, read_item b = inr it /\ item_id it = bid) /\
  (forall d,
      b = JObj d -> Dict.get d "bookmark_id" = None ->
      read_item b = inl (KeyError "bookmark_id")).
Proof.
  split; [|split; [|split]].
  - intros it. unfold read_item.
    destruct (Py.getitem b "bookmark_id") as [e|x]; [discriminate|].
    destruct (Py.int x) as [e|bid]; [discriminate|].
    destruct (Py.get b "title") as [e|t]; [discriminate|].
    destruct (Py.strip (py_or t (JStr ""))) as [e|t'] eqn:Et; [discriminate|].
    destruct (Py.get b "url") as [e|u]; [discriminate|].
    destruct (Py.strip (py_or u (JStr ""))) as [e|url] eqn:Eu; [discriminate|].
    intros [= <-]. cbn [item_title item_url].
    assert (Ht : Str.strip t' = t').
    { destruct (py_or t (JStr "")); try discriminate Et.
      injection Et as <-. apply strip_idem. }
    assert (Hu : Str.strip url = url).
    { destruct (py_or u (JStr "")); try discriminate Eu.
      injection Eu as <-. apply strip_idem. }
    split; [|split; [|exact Hu]].
    + destruct t'; [discriminate|]. discriminate.
    + destruct t'; [reflexivity|exact Ht].
  - intros d it ->. unfold read_item. cbn [Py.getitem Py.get].
    destruct (Dict.get d "bookmark_id") as [x|]; [|discriminate].
    destruct (Py.int x) as [e|bid]; [discriminate|].
    destruct (Py.strip (py_or match Dict.get d "title" with
                               | Some v => v | None => JNull end (JStr "")))
      as [e|t'] eqn:Et; [discriminate|].
    destruct (Py.strip (py_or match Dict.get d "url" with
                               | Some v => v | None => JNull end (JStr "")))
      as [e|url] eqn:Eu; [discriminate|].
    intros [= <-]. cbn [item_title item_url].
    split; [|split; [|split]].
    + intros [H|[H|(s & H & Hs)]]; rewrite H in Et.
      * injection Et as <-. reflexivity.
      * injection Et as <-. reflexivity.
      * rewrite strip_or_empty, (strip_blank s Hs) in Et.
        injection Et as <-. reflexivity.
    + intros s H Hne. rewrite H, strip_or_empty in Et. injection Et as <-.
      destruct (Str.strip s); [contradiction Hne; reflexivity|reflexivity].
    + intros [H|H]; rewrite H in Eu; injection Eu as <-; reflexivity.
    + intros s H. rewrite H, strip_or_empty in Eu. injection Eu as <-.
      reflexivity.
  - intros d x bid -> Hx Hbid Ht Hu. unfold read_item.
    destruct (field_text d "title" Ht) as [-> ->].
    destruct (field_text d "url" Hu) as [-> ->].
    cbn [Py.getitem]. rewrite Hx, Hbid. eexists. split; reflexivity.
  - intros d -> Hd. unfold read_item, Py.getitem. rewrite Hd. reflexivity.
Qed.

End ItemFacts.

Lemma read_item_fields_witness :
  let d := [("bookmark_id", JInt 7);
            ("title", JStr (String NBSP (String " " EmptyString)));
            ("url", JStr " https://x.org/a ")] in
  exists it,
    read_item (L := Demo.library) (JObj d) = inr it /\
    item_title it = "(no title)" /\ item_url it = "https://x.org/a".
Proof.
  intros d.
  exists (mkItem 7 "(no title)" "https://x.org/a").
  assert (E : read_item (L := Demo.library) (JObj d)
              = inr (mkItem 7 "(no title)" "https://x.org/a"))
    by (vm_compute; reflexivity).
  split; [exact E|]. split.
  - apply (proj1 (proj1 (proj2 (read_item_fields (L := Demo.library) (JObj d)))
                    d _ eq_refl E)).
    right. right. eexists. split; reflexivity.
  - reflexivity.
Defined.

Lemma typed_bookmark_object (x : json) :
  is_object x ->
  exists ty, Py.get x "type" = inr ty /\ typed_bookmark x = Py.eq_str ty "bookmark".
Proof.
  destruct x; simpl; try contradiction. intros _.
  unfold typed_bookmark. simpl. eexists. split; reflexivity.
Qed.

(** X12. From the entries of a page the session keeps those whose type
    is [bookmark], in their order, when every entry is a dictionary;
    and when some entry is not, the selection fails with
    [AttributeError], whatever the other entries are. *)
Theorem select_bookmarks_filters (entries : list json) :
  (Forall is_object entries ->
   select_bookmarks entries = inr (filter typed_bookmark entries)) /\
  (~ Forall is_object entries ->
   select_bookmarks entries = inl AttributeError).
Proof.
  induction entries as [|x entries [IH1 IH2]]; split.
  - reflexivity.
  - intros H. exfalso. apply H. constructor.
  - intros H. inversion H as [|? ? Hx Hrest]; subst.
    destruct (typed_bookmark_object x Hx) as (ty & Hty & Ht).
    cbn [select_bookmarks filter]. rewrite Hty, (IH1 Hrest), Ht.
    destruct (Py.eq_str ty "bookmark"); reflexivity.
  - intros H. cbn [select_bookmarks].
    destruct x as [| | | | | |d];
      try reflexivity.
    cbn [Py.get]. rewrite IH2; [reflexivity|].
    intros Hrest. apply H. constructor; [exact I|exact Hrest].
Qed.

Lemma select_bookmarks_filters_witness :
  let meta := JObj [("type", JStr "meta")] in
  let b := Demo.bookmark 11 "First" "https://a.example.com/1" in
  select_bookmarks [meta; b; JObj []] = inr [b] /\
  select_bookmarks [b; JStr "x"] = inl AttributeError.
Proof.
  intros meta b. split.
  - apply (proj1 (select_bookmarks_filters [meta; b; JObj []])).
    repeat constructor.
  - apply (proj2 (select_bookmarks_filters [b; JStr "x"])).
    intros H. inversion H as [|? ? _ H1]. inversion H1 as [|? ? F _]. exact F.
Defined.

(** ** The commands of the session *)

(** The two shapes of a move: [k] failed attempts and a successful one,
    or six failed attempts and [SystemExit]. *)
Lemma move_bookmark_shape (bid fid : Z) (w : world) :
  let url := API_BASE ++ "/bookmarks/move" in
  let payload := [("bookmark_id", Str.of_Z bid); ("folder_id", Str.of_Z fid)] in
  (exists k,
      (k < 6)%nat /\
      move_bookmark bid fid w
      = (inr tt,
         advance w (S k)
           (retry_events url payload (seq 0 k) ++ [EvPost url payload])))
  \/ (exists last_err,
         move_bookmark bid fid w
         = (inl (SystemExit (ApiRequestFailed "/bookmarks/move" last_err)),
            advance w 6 (retry_events url payload (seq 0 6)))).
Proof.
  intros url payload. unfold move_bookmark, bind.
  destruct (api_post_shape "/bookmarks/move" (Some payload) w)
    as [(k & v & Hk & E)|(le & E)]; fold payload; rewrite E.
  - left. exists k. split; [exact Hk|reflexivity].
  - right. exists le. reflexivity.
Qed.

Lemma advance_print (w : world) (n : nat) (ev : list event) (m : message) :
  emit (EvPrint m) (advance w n ev) = advance w n (ev ++ [EvPrint m]).
Proof. unfold emit, advance; simpl. rewrite <- app_assoc. reflexivity. Qed.

(** The [a] command with a folder to move to, by the outcome of the
    move. *)
Lemma cmd_auto_some (it : Item) (rules : Rules) (sid : option Z)
  (sname : option string) (id : Z) (w : world) :
  if_id sid = Some id ->
  cmd_auto it rules sid sname w
  = match move_bookmark (item_id it) id w with
    | (inr _, w') => (inr (Next rules), emit (EvPrint (MsgMoved sname)) w')
    | (inl (Raise e), w') =>
        (inr (Next rules), emit (EvPrint (MsgMoveFailed e)) w')
    | (inl (SystemExit m), w') => (inl (SystemExit m), w')
    end.
Proof.
  intros Hid. unfold cmd_auto. rewrite Hid.
  unfold bind, try_except, print, ret.
  destruct (move_bookmark (item_id it) id w) as [[[e|m]|[]] w']; reflexivity.
Qed.

Section Commands.
Context `{L : Library}.
Variable folders : list Folder.
Variable keymap : Dict.t Folder.

(** X13. On an item whose domain has a suggested folder other than 0,
    the [a] command asks the service to move the bookmark to that
    folder, also when the catalog has no folder of that id (no
    suggestion was shown then). When the move succeeds the table goes
    on unchanged: a move by rule learns nothing. When it fails the
    process leaves by [SystemExit]. *)
Theorem auto_moves_to_suggestion (rules : Rules) (b : json) (it : Item)
  (id : Z) (line : string) (rest : list string) (w : world) :
  read_item b = inr it ->
  let dom := domain_of (item_url it) in
  dom <> "" ->
  suggest_folder dom rules = Some id ->
  id <> 0 ->
  stdin w = line :: rest ->
  command_of line = "a" ->
  let name := pick_folder_name folders id in
  let url := API_BASE ++ "/bookmarks/move" in
  let payload := [("bookmark_id", Str.of_Z (item_id it));
                  ("folder_id", Str.of_Z id)] in
  let w1 := consume w rest (presentation it dom name ++ [EvInput "> " line]) in
  (exists k,
      (k < 6)%nat /\
      process_item folders keymap rules b w
      = (inr (Next rules),
         advance w1 (S k)
           (retry_events url payload (seq 0 k)
            ++ [EvPost url payload; EvPrint (MsgMoved name)])))
  \/ (exists last_err,
         process_item folders keymap rules b w
         = (inl (SystemExit (ApiRequestFailed "/bookmarks/move" last_err)),
            advance w1 6 (retry_events url payload (seq 0 6)))).
Proof.
  intros Hit dom Hdom Hsug Hid Hin Hcmd name url payload w1.
  assert (Hne : Str.nonempty dom = true)
    by (destruct dom; [congruence|reflexivity]).
  assert (Hsid : suggestion_for dom rules = Some id)
    by (unfold suggestion_for; rewrite Hne; exact Hsug).
  assert (Hif : if_id (Some id) = Some id).
  { unfold if_id. destruct (Z.eqb_spec id 0); [contradiction|reflexivity]. }
  assert (Hname : suggestion_name folders (Some id) = name)
    by (unfold suggestion_name; rewrite Hif; reflexivity).
  rewrite (process_item_prompted folders keymap rules b it line rest w Hit Hin).
  fold dom. rewrite Hsid, Hname, Hcmd. fold w1.
  unfold run_command. cbn [String.eqb Ascii.eqb Bool.eqb orb].
  rewrite (cmd_auto_some it rules (Some id) name id w1 Hif).
  destruct (move_bookmark_shape (item_id it) id w1) as [(k & Hk & E)|(le & E)];
    fold url payload in E; rewrite E.
  - left. exists k. split; [exact Hk|].
    rewrite advance_print, <- app_assoc. reflexivity.
  - right. exists le. reflexivity.
Qed.

(** X14. The [n] command and the empty line skip the item: a blank
    line is printed, the table is unchanged, no request is sent and no
    file is written. *)
Theorem skip_changes_nothing (rules : Rules) (b : json) (it : Item)
  (line : string) (rest : list string) (w : world) :
  read_item b = inr it ->
  stdin w = line :: rest ->
  command_of line = "n" \/ command_of line = "" ->
  let dom := domain_of (item_url it) in
  let name := suggestion_name folders (suggestion_for dom rules) in
  process_item folders keymap rules b w
  = (inr (Next rules),
     consume w rest
       (presentation it dom name ++ [EvInput "> " line; EvPrint MsgBlank])).
Proof.
  intros Hit Hin Hcmd dom name.
  rewrite (process_item_prompted folders keymap rules b it line rest w Hit Hin).
  fold dom. fold name. unfold run_command.
  destruct Hcmd as [-> | ->]; cbn [String.eqb Ascii.eqb Bool.eqb orb];
    rewrite bind_print_consume; unfold ret; rewrite <- app_assoc; reflexivity.
Qed.

Lemma cmd_save_invalid (rules : Rules) (dom key : string)
  (rest : list string) (w : world) :
  dom <> "" ->
  stdin w = key :: rest ->
  Dict.get keymap (Str.strip key) = None ->
  cmd_save keymap rules dom w
  = (inr (Next rules),
     consume w rest
       ([EvPrint MsgPickFolder] ++ key_listing keymap
        ++ [EvInput "folder key> " key; EvPrint MsgInvalidKey])).
Proof.
  intros Hdom Hin Hkey. unfold cmd_save.
  destruct dom as [|c dom]; [congruence|]. cbn [Str.nonempty negb].
  unfold bind at 1, print at 1. unfold bind at 1. rewrite print_keys_run.
  unfold bind at 1, input at 1. cbn [stdin consume emit]. rewrite Hin.
  rewrite Hkey. unfold bind, print, emit, ret, consume. simpl.
  rewrite <- !app_assoc. reflexivity.
Qed.

Lemma cmd_save_eof (rules : Rules) (dom : string) (w : world) :
  dom <> "" ->
  stdin w = [] ->
  cmd_save keymap rules dom w
  = (inl (Raise EOFError),
     consume w [] ([EvPrint MsgPickFolder] ++ key_listing keymap)).
Proof.
  intros Hdom Hin. unfold cmd_save.
  destruct dom as [|c dom]; [congruence|]. cbn [Str.nonempty negb].
  unfold bind at 1, print at 1. unfold bind at 1. rewrite print_keys_run.
  unfold bind at 1, input at 1. cbn [stdin consume emit]. rewrite Hin.
  unfold consume. simpl. rewrite ?Hin, <- ?app_assoc. reflexivity.
Qed.

(** X15. The [s] command records a rule only when a key of the key map
    follows. After another answer it reports an invalid key, and when
    the input ends at its prompt it stops with [EOFError]; in both cases
    the table is unchanged and no file is written. *)
Theorem save_needs_a_valid_key (rules : Rules) (b : json) (it : Item)
  (line : string) (rest : list string) (w : world) :
  read_item b = inr it ->
  let dom := domain_of (item_url it) in
  dom <> "" ->
  stdin w = line :: rest ->
  command_of line = "s" ->
  let name := suggestion_name folders (suggestion_for dom rules) in
  let asked := (presentation it dom name
                ++ [EvInput "> " line; EvPrint MsgPickFolder]
                ++ key_listing keymap)%list in
  (forall key rest',
      rest = key :: rest' ->
      Dict.get keymap (Str.strip key) = None ->
      process_item folders keymap rules b w
      = (inr (Next rules),
         consume w rest'
           (asked ++ [EvInput "folder key> " key; EvPrint MsgInvalidKey]))) /\
  (rest = [] ->
   process_item folders keymap rules b w
   = (inl (Raise EOFError), consume w [] asked)).
Proof.
  intros Hit dom Hdom Hin Hcmd name asked.
  pose proof (process_item_prompted folders keymap rules b it line rest w
                Hit Hin) as Hrun.
  cbv zeta in Hrun. fold dom in Hrun. fold name in Hrun.
  rewrite Hcmd in Hrun. unfold run_command in Hrun.
  cbn [String.eqb Ascii.eqb Bool.eqb orb] in Hrun.
  split.
  - intros key rest' -> Hkey. rewrite Hrun.
    rewrite (cmd_save_invalid rules dom key rest'
               (consume w (key :: rest')
                  (presentation it dom name ++ [EvInput "> " line]))
               Hdom eq_refl Hkey).
    rewrite consume_consume. unfold asked.
    rewrite <- !app_assoc. reflexivity.
  - intros ->. rewrite Hrun.
    rewrite (cmd_save_eof rules dom
               (consume w [] (presentation it dom name ++ [EvInput "> " line]))
               Hdom eq_refl).
    rewrite consume_consume. unfold asked.
    rewrite <- !app_assoc. reflexivity.
Qed.

End Commands.

Lemma auto_moves_to_suggestion_witness :
  let keymap := build_keymap Demo.folders3 9 in
  let b := Demo.bookmark 11 "A post" "https://blog.example.com/p" in
  let it := mkItem 11 "A post" "https://blog.example.com/p" in
  let w := Demo.start [Demo.ok (JObj [])] ["a"] in
  let url := API_BASE ++ "/bookmarks/move" in
  let payload := [("bookmark_id", "11"); ("folder_id", "77")] in
  let w1 := consume w [] (presentation it "blog.example.com" None
                          ++ [EvInput "> " "a"]) in
  (exists k,
      (k < 6)%nat /\
      process_item (L := Demo.library) Demo.folders3 keymap
        [(".example.com", 77)] b w
      = (inr (Next [(".example.com", 77)]),
         advance w1 (S k)
           (retry_events url payload (seq 0 k)
            ++ [EvPost url payload; EvPrint (MsgMoved None)])))
  \/ (exists last_err,
         process_item (L := Demo.library) Demo.folders3 keymap
           [(".example.com", 77)] b w
         = (inl (SystemExit (ApiRequestFailed "/bookmarks/move" last_err)),
            advance w1 6 (retry_events url payload (seq 0 6)))).
Proof.
  intros keymap b it w url payload w1.
  apply (auto_moves_to_suggestion (L := Demo.library) Demo.folders3 keymap
           [(".example.com", 77)] b it 77 "a" [] w eq_refl
           ltac:(intro E; vm_compute in E; discriminate E)
           eq_refl ltac:(discriminate) eq_refl eq_refl).
Defined.

Lemma skip_changes_nothing_witness :
  let keymap := build_keymap Demo.folders3 9 in
  let b := Demo.bookmark 11 "First" "https://a.example.com/1" in
  let w := Demo.start [] [" N "] in
  process_item (L := Demo.library) Demo.folders3 keymap [] b w
  = (inr (Next []),
     consume w []
       [EvPrint (MsgItem 11 "First"); EvPrint (MsgSource "a.example.com");
        EvInput "> " " N "; EvPrint MsgBlank]).
Proof.
  intros keymap b w.
  apply (skip_changes_nothing (L := Demo.library) Demo.folders3 keymap [] b
           (mkItem 11 "First" "https://a.example.com/1") " N " [] w
           eq_refl eq_refl (or_introl eq_refl)).
Defined.

Lemma save_needs_a_valid_key_witness :
  let keymap := build_keymap Demo.folders3 9 in
  let b := Demo.bookmark 11 "First" "https://a.example.com/1" in
  let w := Demo.start [] ["s"; "7"] in
  process_item (L := Demo.library) Demo.folders3 keymap [] b w
  = (inr (Next []),
     consume w []
       ([EvPrint (MsgItem 11 "First"); EvPrint (MsgSource "a.example.com");
         EvInput "> " "s"; EvPrint MsgPickFolder]
        ++ key_listing keymap
        ++ [EvInput "folder key> " "7"; EvPrint MsgInvalidKey])).
Proof.
  intros keymap b w.
  destruct (save_needs_a_valid_key (L := Demo.library) Demo.folders3 keymap []
              b (mkItem 11 "First" "https://a.example.com/1") "s" ["7"] w
              eq_refl ltac:(intro E; vm_compute in E; discriminate E)
              eq_refl eq_refl) as [Hbad _].
  exact (Hbad "7" [] eq_refl eq_refl).
Defined.

(** A move by a key, by the outcome of the move. *)
Lemma cmd_move_some (it : Item) (rules : Rules) (dom : string) (f : Folder)
  (w : world) :
  cmd_move it rules dom f w
  = match move_bookmark (item_id it) (folder_id f) w with
    | (inr _, w') =>
        (inr (Next (if Str.nonempty dom
                    then Dict.setdefault rules dom (folder_id f)
                    else rules)),
         emit (EvPrint (MsgMoved (Some (title f)))) w')
    | (inl (Raise e), w') =>
        (inr (Next rules), emit (EvPrint (MsgMoveFailed e)) w')
    | (inl (SystemExit m), w') => (inl (SystemExit m), w')
    end.
Proof.
  unfold cmd_move, bind, try_except, print, ret.
  destruct (move_bookmark (item_id it) (folder_id f) w) as [[[e|m]|[]] w'];
    reflexivity.
Qed.

(** X16. In the session that [main] starts, the digit shown for a
    folder, typed with or without white space around it, asks the
    service to move the bookmark to that folder, with the id of the
    bookmark and the id of the folder in the request. When the move
    succeeds the move is reported under the title of the folder; when
    it fails the process leaves by [SystemExit]. *)
Theorem digit_key_moves_to_its_folder `{L : Library} (folders : list Folder)
  (rules : Rules) (b : json) (it : Item) (i : nat) (f : Folder)
  (line : string) (rest : list string) (w : world) :
  read_item b = inr it ->
  stdin w = line :: rest ->
  (i < 9)%nat ->
  nth_error folders i = Some f ->
  command_of line = Str.of_Z (Z.of_nat i + 1) ->
  let keymap := build_keymap folders 9 in
  let dom := domain_of (item_url it) in
  let name := suggestion_name folders (suggestion_for dom rules) in
  let url := API_BASE ++ "/bookmarks/move" in
  let payload := [("bookmark_id", Str.of_Z (item_id it));
                  ("folder_id", Str.of_Z (folder_id f))] in
  let w1 := consume w rest (presentation it dom name ++ [EvInput "> " line]) in
  (exists k,
      (k < 6)%nat /\
      process_item folders keymap rules b w
      = (inr (Next (if Str.nonempty dom
                    then Dict.setdefault rules dom (folder_id f)
                    else rules)),
         advance w1 (S k)
           (retry_events url payload (seq 0 k)
            ++ [EvPost url payload; EvPrint (MsgMoved (Some (title f)))])))
  \/ (exists last_err,
         process_item folders keymap rules b w
         = (inl (SystemExit (ApiRequestFailed "/bookmarks/move" last_err)),
            advance w1 6 (retry_events url payload (seq 0 6)))).
Proof.
  intros Hit Hin Hi Hf Hcmd keymap dom name url payload w1.
  assert (Hlen : (i < List.length folders)%nat)
    by (apply nth_error_Some; rewrite Hf; discriminate).
  assert (Hkey : Dict.get keymap (command_of line) = Some f).
  { rewrite Hcmd. unfold keymap. rewrite build_keymap_get_hit by lia. exact Hf. }
  destruct (key_plain i) as (_ & _ & Hother). rewrite <- Hcmd in Hother.
  rewrite (process_item_prompted folders keymap rules b it line rest w Hit Hin).
  fold dom. fold name. fold w1.
  rewrite (run_command_other _ _ _ _ _ _ _ Hother), Hkey, cmd_move_some.
  destruct (move_bookmark_shape (item_id it) (folder_id f) w1)
    as [(k & Hk & E)|(le & E)]; fold url payload in E; rewrite E.
  - left. exists k. split; [exact Hk|].
    rewrite advance_print, <- app_assoc. reflexivity.
  - right. exists le. reflexivity.
Qed.

Lemma digit_key_moves_to_its_folder_witness :
  let b := Demo.bookmark 11 "First" "https://a.example.com/1" in
  let it := mkItem 11 "First" "https://a.example.com/1" in
  let w := Demo.start [Demo.ok (JObj [])] [" 2"] in
  let keymap := build_keymap Demo.folders3 9 in
  let url := API_BASE ++ "/bookmarks/move" in
  let payload := [("bookmark_id", "11"); ("folder_id", "2")] in
  let w1 := consume w [] (presentation it "a.example.com" None
                          ++ [EvInput "> " " 2"]) in
  (exists k,
      (k < 6)%nat /\
      process_item (L := Demo.library) Demo.folders3 keymap [] b w
      = (inr (Next [("a.example.com", 2)]),
         advance w1 (S k)
           (retry_events url payload (seq 0 k)
            ++ [EvPost url payload; EvPrint (MsgMoved (Some "News"))])))
  \/ (exists last_err,
         process_item (L := Demo.library) Demo.folders3 keymap [] b w
         = (inl (SystemExit (ApiRequestFailed "/bookmarks/move" last_err)),
            advance w1 6 (retry_events url payload (seq 0 6)))).
Proof.
  intros b it w keymap url payload w1.
  apply (digit_key_moves_to_its_folder (L := Demo.library) Demo.folders3 []
           b it 1 (mkFolder 2 "News") " 2" [] w eq_refl eq_refl
           ltac:(lia) eq_refl eq_refl).
Defined.

Section Leaving.
Context `{L : Library}.
Variable folders : list Folder.
Variable keymap : Dict.t Folder.

(** X17. The [q] command ends the pass at once: the table is written as
    it is, the items after the current one are not presented and the
    lines after the command are not read. *)
Theorem quit_stops_at_once (rules : Rules) (b : json) (it : Item)
  (more : list json) (line : string) (rest : list string) (w : world) :
  read_item b = inr it ->
  stdin w = line :: rest ->
  command_of line = "q" ->
  let dom := domain_of (item_url it) in
  let name := suggestion_name folders (suggestion_for dom rules) in
  for_items folders keymap rules (b :: more) w
  = (inr (Quit rules),
     mkWorld (net w) (posts w) rest
       (fs_saved (fs w) RULES_PATH (rules_json rules))
       (log w ++ presentation it dom name ++ [EvInput "> " line]
        ++ save_events rules)).
Proof.
  intros Hit Hin Hcmd dom name. cbn [for_items]. unfold bind at 1.
  rewrite (process_item_prompted folders keymap rules b it line rest w Hit Hin).
  fold dom. fold name. rewrite Hcmd. unfold run_command.
  cbn [String.eqb Ascii.eqb Bool.eqb]. unfold bind at 1.
  rewrite save_json_run. unfold ret, consume, save_events.
  cbn [fst snd log fs net posts stdin]. rewrite <- !app_assoc. reflexivity.
Qed.

(** X18. An answer to the list request that has no [bookmarks] entry,
    as the empty object that stands for an empty body, is an empty
    page: the session reports that nothing is unread, writes the table
    and ends. *)
Theorem page_without_bookmarks_ends_session (fuel : nat) (rules : Rules)
  (d : list (string * json)) (w : world) :
  succeeds_with (upcoming w 0) (JObj d) ->
  Dict.get d "bookmarks" = None ->
  session folders keymap (S fuel) rules w
  = (inr (Some rules),
     mkWorld (net w) (S (posts w)) (stdin w)
       (fs_saved (fs w) RULES_PATH (rules_json rules))
       (log w
        ++ [EvPost (API_BASE ++ "/bookmarks/list")
              [("folder_id", "unread"); ("limit", "25")];
            EvPrint MsgNoUnread]
        ++ save_events rules)).
Proof.
  intros Hok Hd. cbn [session]. unfold bind at 1.
  unfold list_unread_bookmarks, bind at 1. unfold api_post.
  rewrite (api_post_loop_success "/bookmarks/list" _ _ (seq 0 6) None w 0
             (JObj d));
    [|simpl; lia|intros j Hj; lia|apply succeeds_with_verdict, Hok].
  cbn [firstn retry_events flat_map app Py.get_default lift].
  rewrite Hd. unfold ret at 1.
  unfold bind at 1. cbn [Py.iter lift]. unfold ret at 1.
  unfold bind at 1. cbn [select_bookmarks lift]. unfold ret at 1.
  rewrite empty_page_run. unfold advance, save_events.
  cbn [fst snd log fs net posts stdin]. rewrite <- !app_assoc. reflexivity.
Qed.

End Leaving.

Lemma quit_stops_at_once_witness :
  let keymap := build_keymap Demo.folders3 9 in
  let b := Demo.bookmark 11 "First" "https://a.example.com/1" in
  let w := Demo.start [] ["Q"; "1"] in
  for_items (L := Demo.library) Demo.folders3 keymap [("x.org", 1)]
    [b; JNull] w
  = (inr (Quit [("x.org", 1)]),
     mkWorld (net w) (posts w) ["1"]
       (fs_saved (L := Demo.library) (fs w) RULES_PATH
          (rules_json [("x.org", 1)]))
       (log w
        ++ presentation (mkItem 11 "First" "https://a.example.com/1")
             "a.example.com" None
        ++ [EvInput "> " "Q"]
        ++ save_events (L := Demo.library) [("x.org", 1)])).
Proof.
  intros keymap b w.
  apply (quit_stops_at_once (L := Demo.library) Demo.folders3 keymap
           [("x.org", 1)] b (mkItem 11 "First" "https://a.example.com/1")
           [JNull] "Q" ["1"] w eq_refl eq_refl eq_refl).
Defined.

Lemma page_without_bookmarks_ends_session_witness :
  let keymap := build_keymap Demo.folders3 9 in
  let w := Demo.start [Responded (mkResponse 200 "" (inl JSONDecodeError))] [] in
  fst (session (L := Demo.library) Demo.folders3 keymap 1 [("x.org", 1)] w)
  = inr (Some [("x.org", 1)]).
Proof.
  intros keymap w.
  rewrite (page_without_bookmarks_ends_session (L := Demo.library)
             Demo.folders3 keymap 0 [("x.org", 1)] [] w).
  - reflexivity.
  - simpl. split; [reflexivity|]. split; [left; lia|reflexivity].
  - reflexivity.
Defined.

(** ** What a whole run keeps and never does *)

(** X19. A run that ends by an [Exception] or by [SystemExit] does not
    write the rule file on its way out: every write of the rule file it
    made is the one of an [s] command. What was learnt from moves since
    the last [s] command is not saved. *)
Theorem abort_skips_the_final_save `{L : Library} (fuel : nat)
  (folders : list Folder) (rules : Rules) (w : world) (u : unwinding) :
  let r := main fuel folders rules w in
  fst r = inl u ->
  exists ev,
    log (snd r) = (log w ++ ev)%list /\
    count is_persist ev = count is_saved_report ev.
Proof.
  intros r Hr. pose proof (main_trace fuel folders rules w) as Ht.
  cbv zeta in Ht. fold r in Ht. rewrite Hr in Ht.
  destruct Ht as [(ev & Hlog & Hbal) _]. exists ev. split; assumption.
Qed.

Lemma abort_skips_the_final_save_witness :
  let b := Demo.bookmark 11 "First" "https://a.example.com/1" in
  let w := Demo.start [Demo.page [b; b]; Demo.ok (JObj [])] ["1"] in
  let r := main (L := Demo.library) 3 Demo.folders3 [] w in
  exists ev,
    log (snd r) = (log w ++ ev)%list /\
    count is_persist ev = count is_saved_report ev.
Proof.
  intros b w r.
  apply (abort_skips_the_final_save (L := Demo.library) 3 Demo.folders3 [] w
           (Raise EOFError)).
  vm_compute. reflexivity.
Defined.

(** The run of the witness above: a rule is learnt from the move of the
    first item, the input ends at the second one, and no file is
    written. *)
Example learnt_rule_lost_at_end_of_input :
  let b := Demo.bookmark 11 "First" "https://a.example.com/1" in
  let w := Demo.start [Demo.page [b; b]; Demo.ok (JObj [])] ["1"] in
  let r := main (L := Demo.library) 3 Demo.folders3 [] w in
  fst r = inl (Raise EOFError) /\ fs (snd r) = [].
Proof. split; vm_compute; reflexivity. Qed.

Lemma dict_keys_set {V} (d : Dict.t V) (k : string) (v : V) :
  Dict.keys (Dict.set d k v)
  = if Dict.mem d k then Dict.keys d else (Dict.keys d ++ [k])%list.
Proof.
  unfold Dict.mem, Dict.keys. induction d as [|[k' v'] d IH]; simpl.
  - reflexivity.
  - destruct (String.eqb k' k); simpl; [reflexivity|].
    rewrite IH. destruct (Dict.get d k); reflexivity.
Qed.

Lemma dict_mem_keys {V} (d : Dict.t V) (k : string) :
  Dict.mem d k = true <-> In k (Dict.keys d).
Proof.
  unfold Dict.mem, Dict.keys. induction d as [|[k' v'] d IH]; simpl.
  - split; [discriminate|contradiction].
  - destruct (String.eqb_spec k' k) as [->|Hk].
    + split; auto.
    + rewrite IH. split; [auto|intros [E|H]; [congruence|exact H]].
Qed.

Lemma table_kept_refl (r : Rules) : table_kept r r.
Proof. split; auto. Qed.

Lemma table_kept_trans (r1 r2 r3 : Rules) :
  table_kept r1 r2 -> table_kept r2 r3 -> table_kept r1 r3.
Proof. intros [W1 M1] [W2 M2]. split; auto. Qed.

Lemma table_kept_set (r : Rules) (k : string) (v : Z) :
  table_kept r (Dict.set r k v).
Proof.
  split.
  - unfold Dict.wf. intros Hwf. rewrite dict_keys_set.
    destruct (Dict.mem r k) eqn:E; [exact Hwf|].
    apply NoDup_app; [exact Hwf|repeat constructor; intros []|].
    intros x Hx [<-|[]]. apply dict_mem_keys in Hx. congruence.
  - intros k0 H. apply dict_mem_keys. rewrite dict_keys_set.
    apply dict_mem_keys in H.
    destruct (Dict.mem r k); [exact H|apply in_or_app; left; exact H].
Qed.

Lemma table_kept_setdefault (r : Rules) (k : string) (v : Z) :
  table_kept r (Dict.setdefault r k v).
Proof.
  unfold Dict.setdefault. destruct (Dict.mem r k);
    [apply table_kept_refl|apply table_kept_set].
Qed.

Section Tables.
Context `{L : Library}.
Variable folders : list Folder.
Variable keymap : Dict.t Folder.

Lemma cmd_save_table (rules : Rules) (dom : string) (w : world) (c : control) :
  fst (cmd_save keymap rules dom w) = inr c -> table_kept rules (table_of c).
Proof.
  destruct dom as [|a dom].
  { unfold cmd_save. simpl. intros [= <-]. apply table_kept_refl. }
  set (d := String a dom). assert (Hd : d <> "") by discriminate.
  destruct (stdin w) as [|key rest] eqn:Hin.
  { rewrite (cmd_save_eof keymap rules d w Hd Hin). discriminate. }
  destruct (Dict.get keymap (Str.strip key)) as [f|] eqn:Hkey.
  - rewrite (cmd_save_run keymap rules d key rest f w Hd Hin Hkey).
    intros [= <-]. apply table_kept_set.
  - rewrite (cmd_save_invalid keymap rules d key rest w Hd Hin Hkey).
    intros [= <-]. apply table_kept_refl.
Qed.

Lemma run_command_table (it : Item) (rules : Rules) (dom : string)
  (sid : option Z) (sname : option string) (cmd : string) (w : world)
  (c : control) :
  fst (run_command keymap it rules dom sid sname cmd w) = inr c ->
  table_kept rules (table_of c).
Proof.
  unfold run_command.
  destruct (String.eqb cmd "q").
  { unfold bind. rewrite save_json_run. intros [= <-]. apply table_kept_refl. }
  destruct (String.eqb cmd "n" || String.eqb cmd "").
  { intros [= <-]. apply table_kept_refl. }
  destruct (String.eqb cmd "a").
  { destruct (cmd_auto_cases it rules sid sname w)
      as [[_ E]|(id & n & ev & _ & _ & _ & [E|[m E]])];
      rewrite E; intros [= <-]; apply table_kept_refl. }
  destruct (String.eqb cmd "s"); [apply cmd_save_table|].
  destruct (Dict.get keymap cmd) as [f|].
  - destruct (cmd_move_cases it rules dom f w)
      as (n & ev & _ & _ & _ & [[_ E]|(m & _ & E)]);
      rewrite E; intros [= <-]. cbn [table_of].
    destruct (Str.nonempty dom);
      [apply table_kept_setdefault|apply table_kept_refl].
  - intros [= <-]. apply table_kept_refl.
Qed.

Lemma process_item_table (rules : Rules) (b : json) (w : world) (c : control) :
  fst (process_item folders keymap rules b w) = inr c ->
  table_kept rules (table_of c).
Proof.
  destruct (read_item b) as [e|it] eqn:Hit.
  { unfold process_item. rewrite Hit. discriminate. }
  destruct (stdin w) as [|line rest] eqn:Hin.
  { rewrite (process_item_eof folders keymap rules b it w Hit Hin).
    discriminate. }
  rewrite (process_item_prompted folders keymap rules b it line rest w Hit Hin).
  apply run_command_table.
Qed.

Lemma for_items_table (items : list json) :
  forall (rules : Rules) (w : world) (c : control),
    fst (for_items folders keymap rules items w) = inr c ->
    table_kept rules (table_of c).
Proof.
  induction items as [|b items IH]; intros rules w c.
  - intros [= <-]. apply table_kept_refl.
  - cbn [for_items]. unfold bind.
    pose proof (process_item_table rules b w) as Hb.
    destruct (process_item folders keymap rules b w) as [[u|[r1|r1]] w1];
      cbn [fst] in Hb |- *.
    + discriminate.
    + intros H. apply (table_kept_trans _ r1); [exact (Hb _ eq_refl)|].
      exact (IH r1 w1 c H).
    + intros [= <-]. exact (Hb _ eq_refl).
Qed.

Lemma session_table (fuel : nat) :
  forall (rules rules' : Rules) (w : world),
    fst (session folders keymap fuel rules w) = inr (Some rules') ->
    table_kept rules rules'.
Proof.
  induction fuel as [|fuel IH]; intros rules rules' w; [discriminate|].
  cbn [session]. unfold bind at 1.
  destruct (list_unread_bookmarks 25 w) as [[u|bookmarks] w1]; [discriminate|].
  unfold bind at 1.
  destruct (Py.iter bookmarks) as [e|entries]; [discriminate|].
  cbn [lift ret]. unfold bind at 1.
  destruct (select_bookmarks entries) as [e|items]; [discriminate|].
  cbn [lift ret]. destruct items as [|b items].
  - rewrite empty_page_run. intros [= <-]. apply table_kept_refl.
  - unfold bind.
    pose proof (for_items_table (b :: items) rules w1) as Hf.
    destruct (for_items folders keymap rules (b :: items) w1)
      as [[u|[r1|r1]] w2]; cbn [fst] in Hf |- *.
    + discriminate.
    + intros H. apply (table_kept_trans _ r1); [exact (Hf _ eq_refl)|].
      exact (IH r1 rules' w2 H).
    + intros [= <-]. exact (Hf _ eq_refl).
Qed.

End Tables.

(** X20. The session loses no rule and keeps the keys of the table
    different from one another: the table a run ends with has every key
    of the table it started with, and no key twice if the first one had
    none twice. *)
Theorem session_keeps_the_rules `{L : Library} (fuel : nat)
  (folders : list Folder) (rules rules' : Rules) (w : world) :
  fst (main fuel folders rules w) = inr (Some rules') ->
  (Dict.wf rules -> Dict.wf rules') /\
  (forall k, Dict.mem rules k = true -> Dict.mem rules' k = true).
Proof.
  unfold main. destruct folders as [|f folders]; [discriminate|].
  unfold bind.
  destruct (print MsgFoldersHeader w) as [[u|[]] w1]; [discriminate|].
  destruct (print_folder_keys (build_keymap (f :: folders) 9) w1)
    as [[u|[]] w2]; [discriminate|].
  destruct (print MsgControls w2) as [[u|[]] w3]; [discriminate|].
  apply session_table.
Qed.

Lemma session_keeps_the_rules_witness :
  let b := Demo.bookmark 11 "First" "https://a.example.com/1" in
  let w := Demo.start [Demo.page [b; b]; Demo.ok (JObj [])] ["1"; "q"] in
  let rules := [("x.org", 3)] in
  let rules' := [("x.org", 3); ("a.example.com", 1)] in
  (Dict.wf rules -> Dict.wf rules') /\
  (forall k, Dict.mem rules k = true -> Dict.mem rules' k = true).
Proof.
  intros b w rules rules'.
  apply (session_keeps_the_rules (L := Demo.library) 3 Demo.folders3
           rules rules' w).
  vm_compute. reflexivity.
Defined.

Section Emits.
Variable P : event -> Prop.

Lemma emits_ret {A} (a : A) : emits P (ret a).
Proof. intros w. exists []. rewrite app_nil_r. split; [reflexivity|constructor]. Qed.

Lemma emits_throw {A} (u : unwinding) : emits P (@throw A u).
Proof. intros w. exists []. rewrite app_nil_r. split; [reflexivity|constructor]. Qed.

Lemma emits_lift {A} (r : exn + A) : emits P (lift r).
Proof. destruct r; [apply emits_throw|apply emits_ret]. Qed.

Lemma emits_bind {A B} (c : M A) (k : A -> M B) :
  emits P c -> (forall a, emits P (k a)) -> emits P (bind c k).
Proof.
  intros Hc Hk w. unfold bind. destruct (Hc w) as (e1 & H1 & F1).
  destruct (c w) as [[u|a] w1]; cbn [snd] in *; [exists e1; auto|].
  destruct (Hk a w1) as (e2 & H2 & F2). exists (e1 ++ e2)%list.
  rewrite H2, H1, app_assoc. split; [reflexivity|].
  apply Forall_app. auto.
Qed.

Lemma emits_try {A} (c : M A) (h : exn -> M A) :
  emits P c -> (forall e, emits P (h e)) -> emits P (try_except c h).
Proof.
  intros Hc Hh w. unfold try_except. destruct (Hc w) as (e1 & H1 & F1).
  destruct (c w) as [[[e|m]|a] w1]; cbn [snd] in H1 |- *.
  - destruct (Hh e w1) as (e2 & H2 & F2). exists (e1 ++ e2)%list.
    rewrite H2, H1, app_assoc. split; [reflexivity|].
    apply Forall_app. auto.
  - exists e1. auto.
  - exists e1. auto.
Qed.

Lemma emits_print (m : message) : P (EvPrint m) -> emits P (print m).
Proof.
  intros Hm w. exists [EvPrint m]. split; [reflexivity|repeat constructor; exact Hm].
Qed.

Lemma emits_input (prompt : string) :
  (forall line, P (EvInput prompt line)) -> emits P (input prompt).
Proof.
  intros Hp w. unfold input. destruct (stdin w) as [|line rest].
  - exists []. rewrite app_nil_r. split; [reflexivity|constructor].
  - exists [EvInput prompt line]. split; [reflexivity|repeat constructor; apply Hp].
Qed.

Lemma emits_api_post (path : string) (data : option (Dict.t string)) :
  (forall e,
      call_event (API_BASE ++ path)
        match data with Some d => d | None => [] end e -> P e) ->
  emits P (api_post path data).
Proof.
  intros Hp w.
  destruct (api_post_repeats_one_request_shape path data w)
    as (n & ev & E & Hev).
  exists ev. rewrite E. split; [reflexivity|].
  apply (Forall_impl P Hp Hev).
Qed.

End Emits.

Section SessionEvents.
Context `{L : Library}.
Variable folders : list Folder.
Variable keymap : Dict.t Folder.

Local Abbreviation told := (emits session_event).

Lemma told_print (m : message) : told (print m).
Proof. apply emits_print. exact I. Qed.

Lemma told_move_bookmark (bid fid : Z) : told (move_bookmark bid fid).
Proof.
  unfold move_bookmark. apply emits_bind; [|intros _; apply emits_ret].
  apply emits_api_post. intros e [->|(j & Hj & ->)].
  - right. split; [reflexivity|]. exists bid, fid. reflexivity.
  - exists j. auto.
Qed.

Lemma told_list_unread_bookmarks : told (list_unread_bookmarks 25).
Proof.
  unfold list_unread_bookmarks. apply emits_bind; [|intros res; apply emits_lift].
  apply emits_api_post. intros e [->|(j & Hj & ->)].
  - left. split; reflexivity.
  - exists j. auto.
Qed.

Lemma told_save_rules (rules : Rules) :
  told (save_json RULES_PATH (rules_json rules)).
Proof.
  intros w. rewrite save_json_run. eexists. split; [reflexivity|].
  repeat constructor. exists rules. reflexivity.
Qed.

Lemma told_print_keys (items : list (string * Folder)) : told (print_keys items).
Proof.
  induction items as [|[k f] items IH]; simpl; [apply emits_ret|].
  apply emits_bind; [apply told_print|intros _; exact IH].
Qed.

Lemma told_print_folder_keys (items : list (string * Folder)) :
  told (print_folder_keys items).
Proof.
  induction items as [|[k f] items IH]; simpl; [apply emits_ret|].
  apply emits_bind; [apply told_print|intros _; exact IH].
Qed.

Ltac told_step :=
  first [ apply emits_ret | apply told_print | apply told_move_bookmark
        | apply told_save_rules | apply told_print_keys
        | apply emits_lift
        | apply emits_input; intros; simpl; auto
        | apply emits_bind; [|intros ?]
        | apply emits_try; [|intros ?] ].

Lemma told_run_command (it : Item) (rules : Rules) (dom : string)
  (sid : option Z) (sname : option string) (cmd : string) :
  told (run_command keymap it rules dom sid sname cmd).
Proof.
  unfold run_command, cmd_auto, cmd_save, cmd_move.
  repeat match goal with
         | |- told (if ?c then _ else _) => destruct c
         | |- told (match ?x with _ => _ end) => destruct x
         | |- _ => told_step
         end.
Qed.

Lemma told_process_item (rules : Rules) (b : json) :
  told (process_item folders keymap rules b).
Proof.
  unfold process_item, show_item.
  repeat match goal with
         | |- told (run_command _ _ _ _ _ _ _) => apply told_run_command
         | |- told (if ?c then _ else _) => destruct c
         | |- told (match ?x with _ => _ end) => destruct x
         | |- _ => told_step
         end.
Qed.

Lemma told_for_items (items : list json) :
  forall rules, told (for_items folders keymap rules items).
Proof.
  induction items as [|b items IH]; intros rules; simpl; [apply emits_ret|].
  apply emits_bind; [apply told_process_item|].
  intros [r|r]; [apply IH|apply emits_ret].
Qed.

Lemma told_session (fuel : nat) :
  forall rules, told (session folders keymap fuel rules).
Proof.
  induction fuel as [|fuel IH]; intros rules; simpl; [apply emits_ret|].
  apply emits_bind; [apply told_list_unread_bookmarks|]. intros bookmarks.
  apply emits_bind; [apply emits_lift|]. intros entries.
  apply emits_bind; [apply emits_lift|]. intros [|b items].
  - repeat told_step.
  - apply emits_bind; [apply told_for_items|].
    intros [r|r]; [apply IH|apply emits_ret].
Qed.

End SessionEvents.

(** X21. Whatever the answers of the service and the lines of input, a
    run of the session only does this: it asks the service for the page
    of 25 unread bookmarks and for moves, sleeps delays of the retry
    schedule, prints, reads at its two prompts, and writes the rule file
    through its temporary file. It sends no other request and touches
    no other file. *)
Theorem session_does_nothing_else `{L : Library} (fuel : nat)
  (folders : list Folder) (rules : Rules) (w : world) :
  exists ev,
    log (snd (main fuel folders rules w)) = (log w ++ ev)%list /\
    Forall session_event ev.
Proof.
  assert (H : emits session_event (main fuel folders rules)).
  { unfold main. destruct folders as [|f folders]; [apply emits_throw|].
    apply emits_bind; [apply told_print|]. intros _.
    apply emits_bind; [apply told_print_folder_keys|]. intros _.
    apply emits_bind; [apply told_print|]. intros _.
    apply told_session. }
  exact (H w).
Qed.

(** ** Configuration files, again *)

Lemma fs_remove_get_same (files : Dict.t string) (p : string) :
  Dict.get (fs_remove files p) p = None.
Proof.
  induction files as [|[q c] files IH]; simpl; [reflexivity|].
  destruct (String.eqb_spec q p) as [->|Hq]; [exact IH|].
  simpl. destruct (String.eqb_spec q p); [contradiction|exact IH].
Qed.

Lemma fs_remove_get_other (files : Dict.t string) (p q : string) :
  q <> p -> Dict.get (fs_remove files p) q = Dict.get files q.
Proof.
  intros Hq. induction files as [|[r c] files IH]; simpl; [reflexivity|].
  destruct (String.eqb_spec r p) as [->|Hr].
  - destruct (String.eqb_spec p q); [congruence|exact IH].
  - simpl. destruct (String.eqb r q); [reflexivity|exact IH].
Qed.

Lemma tmp_of_differs (path : string) : tmp_of path <> path.
Proof.
  unfold tmp_of. intros E.
  apply (f_equal String.length) in E.
  rewrite DemoFacts.length_append in E. simpl in E. lia.
Qed.

(** X22. [save_json] puts the text of the data at the path and changes
    no other file; the temporary file it wrote is gone afterwards (and
    so is a file that was there under that name before). It reads no
    input and sends no request. *)
Theorem save_json_replaces_one_file `{L : Library} (path : string)
  (data : json) (w : world) :
  let r := save_json path data w in
  fst r = inr tt /\
  Dict.get (fs (snd r)) path = Some (json_dump data) /\
  Dict.get (fs (snd r)) (tmp_of path) = None /\
  (forall p, p <> path -> p <> tmp_of path ->
             Dict.get (fs (snd r)) p = Dict.get (fs w) p) /\
  stdin (snd r) = stdin w /\ posts (snd r) = posts w.
Proof.
  cbv zeta. rewrite save_json_run. cbn [fst snd fs stdin posts].
  split; [reflexivity|]. split; [apply fs_saved_get|].
  unfold fs_saved, fs_replace. rewrite dict_get_set_same.
  split; [|split; [|split; reflexivity]].
  - rewrite dict_get_set_other by (apply tmp_of_differs).
    apply fs_remove_get_same.
  - intros p Hp Ht.
    rewrite dict_get_set_other by exact Hp.
    rewrite fs_remove_get_other by exact Ht.
    apply dict_get_set_other. exact Ht.
Qed.

Lemma save_json_replaces_one_file_witness :
  let w := mkWorld (Demo.script []) 0 []
             [(CRED_PATH, "secret"); (tmp_of RULES_PATH, "old")] [] in
  let r := save_json (L := Demo.library) RULES_PATH (rules_json [("x.org", 1)]) w in
  Dict.get (fs (snd r)) CRED_PATH = Dict.get (fs w) CRED_PATH.
Proof.
  intros w r.
  apply (proj1 (proj2 (proj2 (proj2
           (save_json_replaces_one_file (L := Demo.library) RULES_PATH
              (rules_json [("x.org", 1)]) w))))).
  - intro E. vm_compute in E. discriminate E.
  - intro E. vm_compute in E. discriminate E.
Defined.

(** ** Credentials *)

Lemma split_no_sep (sep : ascii) (s : string) :
  no_char sep s -> Text.split sep s = [s].
Proof.
  unfold no_char. induction s as [|c s IH]; simpl; [reflexivity|].
  intros H. apply andb_true_iff in H. destruct H as [Hc Hs].
  apply negb_true_iff in Hc. rewrite Hc, (IH Hs). reflexivity.
Qed.

Lemma split_at_sep (sep : ascii) (a b : string) :
  no_char sep a ->
  Text.split sep (a ++ String sep b) = a :: Text.split sep b.
Proof.
  unfold no_char. induction a as [|c a IH]; simpl.
  - rewrite Ascii.eqb_refl. reflexivity.
  - intros H. apply andb_true_iff in H. destruct H as [Hc Ha].
    apply negb_true_iff in Hc. rewrite Hc, (IH Ha). reflexivity.
Qed.

Lemma split1_at_sep (sep : ascii) (k v : string) :
  no_char sep k -> Text.split1 sep (k ++ String sep v) = [k; v].
Proof.
  unfold no_char. induction k as [|c k IH]; simpl.
  - rewrite Ascii.eqb_refl. reflexivity.
  - intros H. apply andb_true_iff in H. destruct H as [Hc Hk].
    apply negb_true_iff in Hc. rewrite Hc, (IH Hk). reflexivity.
Qed.

Lemma no_char_app (c : ascii) (a b : string) :
  no_char c a -> no_char c b -> no_char c (a ++ b).
Proof.
  unfold no_char. induction a as [|x a IH]; simpl; [auto|].
  intros Ha Hb. apply andb_true_iff in Ha. destruct Ha as [Hx Ha].
  rewrite Hx. apply IH; assumption.
Qed.

(** The body [oauth_token=T&oauth_token_secret=S] is read as the two
    values. *)
Lemma parse_token_body_pair (body T S : string) :
  Str.strip body = "oauth_token=" ++ T ++ "&oauth_token_secret=" ++ S ->
  no_char "&" T -> no_char "&" S ->
  parse_token_body body
  = inr [("oauth_token", T); ("oauth_token_secret", S)].
Proof.
  intros Hb HT HS. unfold parse_token_body. rewrite Hb.
  change ("oauth_token=" ++ T ++ "&oauth_token_secret=" ++ S)
    with (("oauth_token=" ++ T) ++ String "&" ("oauth_token_secret=" ++ S)).
  rewrite split_at_sep
    by (apply no_char_app; [reflexivity|exact HT]).
  rewrite split_no_sep
    by (apply no_char_app; [reflexivity|exact HS]).
  cbn [map].
  change ("oauth_token=" ++ T) with ("oauth_token" ++ String "=" T).
  change ("oauth_token_secret=" ++ S)
    with ("oauth_token_secret" ++ String "=" S).
  rewrite !split1_at_sep by reflexivity.
  reflexivity.
Qed.

(** What one call of [oauth_access_token_xauth] does to the world. *)
Lemma xauth_world (username password : string) (w : world) :
  snd (oauth_access_token_xauth username password w)
  = advance w 1 [token_request username password].
Proof.
  unfold oauth_access_token_xauth, bind, requests_post, raise_for_status,
    token_request, advance.
  destruct (net w (posts w)) as [r|e]; cbn [snd]; [|reflexivity].
  destruct ((400 <=? status_code r) && (status_code r <? 600));
    unfold throw, ret; cbn [snd]; [reflexivity|].
  destruct (parse_token_body (text r)) as [e|parts]; cbn [lift];
    unfold throw, ret; cbn [snd]; [reflexivity|].
  destruct (Text.getitem parts "oauth_token"); cbn [lift];
    unfold throw, ret; cbn [snd]; [reflexivity|].
  destruct (Text.getitem parts "oauth_token_secret"); cbn [lift];
    unfold throw, ret; reflexivity.
Qed.

Lemma xauth_pair (username password : string) (w : world) (r : response)
  (T S : string) :
  upcoming w 0 = Responded r ->
  (status_code r < 400 \/ 600 <= status_code r) ->
  Str.strip (text r) = "oauth_token=" ++ T ++ "&oauth_token_secret=" ++ S ->
  no_char "&" T -> no_char "&" S ->
  oauth_access_token_xauth username password w
  = (inr (T, S), advance w 1 [token_request username password]).
Proof.
  intros Hr Hs Hb HT HS.
  rewrite <- xauth_world.
  unfold upcoming in Hr. cbn [Nat.add] in Hr.
  unfold oauth_access_token_xauth, bind, requests_post, raise_for_status.
  rewrite Hr.
  replace ((400 <=? status_code r) && (status_code r <? 600)) with false
    by (symmetry; apply andb_false_iff; destruct Hs;
        [left; apply Z.leb_gt; lia|right; apply Z.ltb_ge; lia]).
  unfold ret. rewrite (parse_token_body_pair _ T S Hb HT HS).
  reflexivity.
Qed.

(** X23. When the token endpoint answers, with a status that is no error,
    the text [oauth_token=T&oauth_token_secret=S] (white space around
    it is dropped; [T] and [S] hold no [&]; they may hold [=]),
    [oauth_access_token_xauth] returns the pair [(T, S)] after that one
    request. *)
Theorem xauth_reads_the_token_pair (username password : string) (w : world)
  (r : response) (T S : string) :
  upcoming w 0 = Responded r ->
  (status_code r < 400 \/ 600 <= status_code r) ->
  Str.strip (text r) = "oauth_token=" ++ T ++ "&oauth_token_secret=" ++ S ->
  no_char "&" T -> no_char "&" S ->
  oauth_access_token_xauth username password w
  = (inr (T, S), advance w 1 [token_request username password]).
Proof. apply xauth_pair. Qed.

Lemma xauth_reads_the_token_pair_witness :
  oauth_access_token_xauth "me@example.org" "pw"
    (Demo.start
       [DemoCred.token_answer "oauth_token=a=b&oauth_token_secret=cd "] [])
  = (inr ("a=b", "cd"),
     advance
       (Demo.start
          [DemoCred.token_answer "oauth_token=a=b&oauth_token_secret=cd "] [])
       1 [token_request "me@example.org" "pw"]).
Proof.
  apply (xauth_reads_the_token_pair "me@example.org" "pw" _
           (mkResponse 200 "oauth_token=a=b&oauth_token_secret=cd " (inl JSONDecodeError)) "a=b" "cd").
  - reflexivity.
  - left. vm_compute. reflexivity.
  - vm_compute. reflexivity.
  - reflexivity.
  - reflexivity.
Defined.

(** X24. [oauth_access_token_xauth] sends exactly one request, with the
    user's name, the password and the mode [client_auth], and never
    sleeps or tries again: a fault of the transport and an error status
    (also 429 and the 5xx that [api_post] retries) come out at once as
    the exception, never as [SystemExit]. *)
Theorem xauth_asks_once (username password : string) (w : world) :
  let r := oauth_access_token_xauth username password w in
  snd r = advance w 1 [token_request username password] /\
  (forall m, fst r <> inl (SystemExit m)) /\
  (forall e, upcoming w 0 = Faulted e -> fst r = inl (Raise e)) /\
  (forall resp, upcoming w 0 = Responded resp ->
                400 <= status_code resp < 600 ->
                fst r = inl (Raise (HTTPError (status_code resp)))).
Proof.
  cbv zeta. split; [apply xauth_world|].
  unfold upcoming. cbn [Nat.add].
  unfold oauth_access_token_xauth, bind, requests_post, raise_for_status.
  destruct (net w (posts w)) as [r|e]; cbn [fst].
  - destruct ((400 <=? status_code r) && (status_code r <? 600)) eqn:Es;
      unfold throw, ret; cbn [fst].
    + split; [discriminate|]. split; [discriminate|].
      intros resp E _. injection E as <-. reflexivity.
    + split.
      * destruct (parse_token_body (text r)) as [e|parts]; cbn [lift];
          unfold throw, ret; cbn [fst]; [discriminate|].
        destruct (Text.getitem parts "oauth_token"); cbn [lift];
          unfold throw, ret; cbn [fst]; [discriminate|].
        destruct (Text.getitem parts "oauth_token_secret"); cbn [lift];
          unfold throw, ret; cbn [fst]; discriminate.
      * split; [discriminate|].
        intros resp E Hs. injection E as <-.
        apply andb_false_iff in Es. destruct Es as [Es|Es];
          [apply Z.leb_gt in Es|apply Z.ltb_ge in Es]; lia.
  - split; [discriminate|]. split; [|discriminate].
    intros e' E. injection E as <-. reflexivity.
Qed.

Lemma ensure_credentials_cached `{L : Library} (env : Env) (w : world)
  (content : string) (d : Dict.t json) (t s : json) :
  Dict.get (fs w) CRED_PATH = Some content ->
  json_load content = inr (JObj d) ->
  Dict.get d "oauth_token" = Some t ->
  Dict.get d "oauth_token_secret" = Some s ->
  ensure_credentials env w = (inr (t, s), w).
Proof.
  intros Hf Hl Ht Hs.
  unfold ensure_credentials, setup_bind, call, load_json.
  rewrite Hf, Hl. cbn [lift]. unfold ret.
  unfold has_tokens, py_in, Dict.mem. rewrite Ht, Hs.
  assert (Hd : Py.truthy (JObj d) = true)
    by (destruct d; [discriminate Ht|reflexivity]).
  rewrite Hd. cbn [lift]. unfold ret.
  unfold Py.getitem. rewrite Ht, Hs. reflexivity.
Qed.

Lemma ensure_credentials_fresh `{L : Library} (env : Env) (w w1 : world)
  (u p T S : string) :
  Dict.get (fs w) CRED_PATH = None ->
  env "INSTAPAPER_USERNAME" = Some u -> Str.nonempty u = true ->
  env "INSTAPAPER_PASSWORD" = Some p ->
  oauth_access_token_xauth u p w = (inr (T, S), w1) ->
  ensure_credentials env w
  = (inr (JStr T, JStr S), snd (save_json CRED_PATH (token_json T S) w1)).
Proof.
  intros Hf Hu Hn Hp Hx.
  unfold ensure_credentials, setup_bind, call, load_json.
  rewrite Hf. cbn [has_tokens Py.truthy lift]. unfold ret.
  rewrite Hu, Hp, Hn, Hx. cbn [fst snd].
  rewrite save_json_run. reflexivity.
Qed.

(** X25. With a credentials file that holds an object with the two
    tokens, [ensure_credentials] returns them as they are stored and
    does nothing else: no request, no write, and the user name and the
    password of the environment play no part. *)
Theorem cached_token_needs_no_login `{L : Library} (env : Env) (w : world)
  (content : string) (d : Dict.t json) (t s : json) :
  Dict.get (fs w) CRED_PATH = Some content ->
  json_load content = inr (JObj d) ->
  Dict.get d "oauth_token" = Some t ->
  Dict.get d "oauth_token_secret" = Some s ->
  ensure_credentials env w = (inr (t, s), w).
Proof. apply ensure_credentials_cached. Qed.

Lemma cached_token_needs_no_login_witness :
  let w := mkWorld (Demo.script []) 0 []
             [(CRED_PATH,
               json_dump (Library := DemoCred.library) (token_json "tok" "sec"))]
             [] in
  ensure_credentials (L := DemoCred.library) (fun _ => None) w
  = (inr (JStr "tok", JStr "sec"), w).
Proof.
  intros w.
  apply (cached_token_needs_no_login (L := DemoCred.library) (fun _ => None) w
           (json_dump (Library := DemoCred.library) (token_json "tok" "sec"))
           [("oauth_token", JStr "tok"); ("oauth_token_secret", JStr "sec")]).
  - reflexivity.
  - vm_compute. reflexivity.
  - reflexivity.
  - reflexivity.
Defined.

(** X26. The first login is cached. Without a credentials file, with a
    user name that is not empty and a password (which may be empty), and
    a token endpoint that answers [oauth_token=T&oauth_token_secret=S],
    [ensure_credentials] sends the one token request, writes the pair
    to the credentials file and returns it; as soon as the JSON library
    reads its text of the pair back, a later call returns the same pair
    from the file, whatever the environment, and leaves the world as
    it is. *)
Theorem first_login_is_cached `{L : Library} (env env' : Env) (w : world)
  (r : response) (u p T S : string) :
  Dict.get (fs w) CRED_PATH = None ->
  env "INSTAPAPER_USERNAME" = Some u -> Str.nonempty u = true ->
  env "INSTAPAPER_PASSWORD" = Some p ->
  upcoming w 0 = Responded r ->
  (status_code r < 400 \/ 600 <= status_code r) ->
  Str.strip (text r) = "oauth_token=" ++ T ++ "&oauth_token_secret=" ++ S ->
  no_char "&" T -> no_char "&" S ->
  json_load (json_dump (token_json T S)) = inr (token_json T S) ->
  exists w2,
    ensure_credentials env w = (inr (JStr T, JStr S), w2) /\
    posts w2 = (1 + posts w)%nat /\
    filter is_post (skipn (List.length (log w)) (log w2))
    = [token_request u p] /\
    Dict.get (fs w2) CRED_PATH = Some (json_dump (token_json T S)) /\
    ensure_credentials env' w2 = (inr (JStr T, JStr S), w2).
Proof.
  intros Hf Hu Hn Hp Hr Hs Hb HT HS Hcodec.
  pose proof (xauth_pair u p w r T S Hr Hs Hb HT HS) as Hx.
  eexists. split; [exact (ensure_credentials_fresh env w _ u p T S Hf Hu Hn Hp Hx)|].
  rewrite save_json_run. cbn [snd posts fs log advance].
  split; [reflexivity|].
  split.
  - rewrite <- app_assoc.
    rewrite skipn_app, skipn_all, Nat.sub_diag. reflexivity.
  - split; [apply fs_saved_get|].
    eapply ensure_credentials_cached.
    + cbn [fs]. apply fs_saved_get.
    + exact Hcodec.
    + reflexivity.
    + reflexivity.
Qed.

Lemma first_login_is_cached_witness :
  let w := Demo.start
             [DemoCred.token_answer "oauth_token=tok&oauth_token_secret=sec"]
             [] in
  exists w2,
    ensure_credentials (L := DemoCred.library) DemoCred.env w
    = (inr (JStr "tok", JStr "sec"), w2) /\
    posts w2 = (1 + posts w)%nat /\
    filter is_post (skipn (List.length (log w)) (log w2))
    = [token_request "me@example.org" "pw"] /\
    Dict.get (fs w2) CRED_PATH
    = Some (json_dump (Library := DemoCred.library) (token_json "tok" "sec")) /\
    ensure_credentials (L := DemoCred.library) DemoCred.env_consumer w2
    = (inr (JStr "tok", JStr "sec"), w2).
Proof.
  intros w.
  apply (first_login_is_cached (L := DemoCred.library)
           DemoCred.env DemoCred.env_consumer w
           (mkResponse 200 "oauth_token=tok&oauth_token_secret=sec"
              (inl JSONDecodeError))
           "me@example.org" "pw" "tok" "sec").
  - reflexivity.
  - reflexivity.
  - reflexivity.
  - reflexivity.
  - reflexivity.
  - left. vm_compute. reflexivity.
  - vm_compute. reflexivity.
  - reflexivity.
  - reflexivity.
  - vm_compute. reflexivity.
Defined.

(** X27. Without a credentials file, and with no user name, an empty
    user name or no password in the environment, [ensure_credentials]
    stops the program with the message about the missing token before
    any request is sent and before anything is written. *)
Theorem no_token_no_login_stops `{L : Library} (env : Env) (w : world) :
  Dict.get (fs w) CRED_PATH = None ->
  unset env "INSTAPAPER_USERNAME" \/ env "INSTAPAPER_PASSWORD" = None ->
  ensure_credentials env w = (inl (SetupExit NoCachedToken), w).
Proof.
  intros Hf Hm.
  unfold ensure_credentials, setup_bind, call, load_json.
  rewrite Hf. cbn [has_tokens Py.truthy lift]. unfold ret.
  destruct Hm as [[Hu|Hu]|Hp].
  - rewrite Hu. reflexivity.
  - rewrite Hu. destruct (env "INSTAPAPER_PASSWORD"); reflexivity.
  - rewrite Hp. destruct (env "INSTAPAPER_USERNAME"); reflexivity.
Qed.

Lemma no_token_no_login_stops_witness :
  ensure_credentials (L := DemoCred.library) DemoCred.env_consumer
    (Demo.start [] [])
  = (inl (SetupExit NoCachedToken), Demo.start [] []).
Proof.
  apply (no_token_no_login_stops (L := DemoCred.library)).
  - reflexivity.
  - right. reflexivity.
Defined.

(** ** The folder catalog *)

Lemma collect_folders_sound `{L : Library} (repr : json -> string)
  (entries : list json) :
  forall out fs,
    collect_folders repr entries out = inr fs ->
    exists more,
      fs = (out ++ more)%list /\
      Forall2 (folder_of_entry repr) (filter typed_folder entries) more.
Proof.
  induction entries as [|x rest IH]; intros out fs H.
  - injection H as <-. exists []. rewrite app_nil_r. split; constructor.
  - cbn [collect_folders] in H. cbn [filter]. unfold typed_folder at 1.
    destruct x as [| | | | | |d]; try discriminate H.
    cbn [Py.get] in H |- *.
    destruct (Py.eq_str _ "folder").
    + cbn [Py.getitem] in H.
      destruct (Dict.get d "folder_id") as [i|] eqn:Ei; [|discriminate H].
      destruct (Py.int i) as [e|id] eqn:Eid; [discriminate H|].
      destruct (Dict.get d "title") as [t|] eqn:Et; [|discriminate H].
      destruct (IH _ _ H) as (more & -> & Hmore).
      exists (mkFolder id (py_str repr t) :: more).
      split; [rewrite <- app_assoc; reflexivity|].
      constructor; [|exact Hmore].
      exists d, i, t. repeat split; assumption.
    + exact (IH _ _ H).
Qed.

Lemma collect_folders_total `{L : Library} (repr : json -> string)
  (entries : list json) :
  Forall is_object entries ->
  (forall x, In x entries -> typed_folder x = true ->
             exists f, folder_of_entry repr x f) ->
  forall out, exists fs, collect_folders repr entries out = inr fs.
Proof.
  induction 1 as [|x rest Hx Hrest IH]; intros Hok out.
  - exists out. reflexivity.
  - assert (Hrest' : forall y, In y rest -> typed_folder y = true ->
                               exists f, folder_of_entry repr y f)
      by (intros y Hy; apply Hok; right; exact Hy).
    specialize (IH Hrest').
    pose proof (Hok x (or_introl eq_refl)) as Hfold.
    cbn [collect_folders]. unfold typed_folder in Hfold.
    destruct x as [| | | | | |d]; try contradiction.
    cbn [Py.get] in Hfold |- *.
    destruct (Py.eq_str _ "folder"); [|apply IH].
    destruct (Hfold eq_refl) as (f & d' & i & t & Ed & Ei & Eid & Et & _).
    injection Ed as <-.
    cbn [Py.getitem]. rewrite Ei, Eid, Et. apply IH.
Qed.

Lemma list_folders_world `{L : Library} (repr : json -> string) (w : world) :
  snd (list_folders repr w) = snd (api_post "/folders/list" (Some []) w).
Proof.
  unfold list_folders, bind.
  destruct (api_post "/folders/list" (Some []) w) as [[u|raw] w1];
    [reflexivity|].
  destruct (Py.iter raw) as [e|entries]; cbn [lift]; unfold throw, ret;
    [reflexivity|].
  destruct (collect_folders repr entries []); reflexivity.
Qed.

(** X28. [list_folders] makes of the answer to [/folders/list] the
    folders of its entries of type [folder], in their order, each with
    the number [int] makes of its [folder_id] and the text [str] makes
    of its [title]; the other entries are left out. It returns whenever
    the entries are objects and those of type [folder] carry the two
    fields, the first one convertible by [int]. *)
Theorem list_folders_keeps_typed_entries `{L : Library}
  (repr : json -> string) (w w1 : world) (entries : list json) :
  api_post "/folders/list" (Some []) w = (inr (JList entries), w1) ->
  (forall fs w',
      list_folders repr w = (inr fs, w') ->
      w' = w1 /\
      Forall2 (folder_of_entry repr) (filter typed_folder entries) fs) /\
  (Forall is_object entries ->
   (forall x, In x entries -> typed_folder x = true ->
              exists f, folder_of_entry repr x f) ->
   exists fs, list_folders repr w = (inr fs, w1)).
Proof.
  intros Hp. unfold list_folders, bind. rewrite Hp.
  cbn [Py.iter lift]. unfold ret. split.
  - intros fs w' H.
    destruct (collect_folders repr entries []) as [e|fs0] eqn:E;
      cbn [lift] in H; unfold throw, ret in H; [discriminate H|].
    injection H as <- <-. split; [reflexivity|].
    destruct (collect_folders_sound repr entries _ _ E) as (more & -> & Hm).
    exact Hm.
  - intros Hobj Hok.
    destruct (collect_folders_total repr entries Hobj Hok []) as (fs & ->).
    exists fs. reflexivity.
Qed.

Lemma list_folders_keeps_typed_entries_witness :
  let entries := [DemoCred.entry "folder" 11 "Tech";
                  JObj [("type", JStr "meta")];
                  DemoCred.entry "folder" 12 "News"] in
  let w := Demo.start [Demo.ok (JList entries)] [] in
  let w1 := advance w 1 [EvPost (API_BASE ++ "/folders/list") []] in
  list_folders (L := Demo.library) DemoCred.repr w
  = (inr [mkFolder 11 "Tech"; mkFolder 12 "News"], w1) /\
  Forall2 (folder_of_entry (L := Demo.library) DemoCred.repr)
    (filter typed_folder entries)
    [mkFolder 11 "Tech"; mkFolder 12 "News"].
Proof.
  intros entries w w1.
  assert (E : list_folders (L := Demo.library) DemoCred.repr w
              = (inr [mkFolder 11 "Tech"; mkFolder 12 "News"], w1))
    by (vm_compute; reflexivity).
  split; [exact E|].
  apply (proj1 (list_folders_keeps_typed_entries (L := Demo.library)
                  DemoCred.repr w w1 entries
                  ltac:(vm_compute; reflexivity))
           [mkFolder 11 "Tech"; mkFolder 12 "News"] w1 E).
Defined.

(** ** Before the session *)

(** X29. With the two variables of the consumer set and the two tokens
    in the credentials file, the program reaches the folder list
    without a login: all it does before the session is the call of
    [/folders/list] with an empty payload (with the retries of
    [api_post]). *)
Theorem setup_with_cached_token `{L : Library} (repr : json -> string)
  (env : Env) (w : world) (key secret content : string) (d : Dict.t json)
  (t s : json) :
  env "INSTAPAPER_CONSUMER_KEY" = Some key -> Str.nonempty key = true ->
  env "INSTAPAPER_CONSUMER_SECRET" = Some secret ->
  Str.nonempty secret = true ->
  Dict.get (fs w) CRED_PATH = Some content ->
  json_load content = inr (JObj d) ->
  Dict.get d "oauth_token" = Some t ->
  Dict.get d "oauth_token_secret" = Some s ->
  main_setup repr env w = call (list_folders repr) w /\
  exists n ev,
    snd (main_setup repr env w) = advance w n ev /\
    Forall (call_event (API_BASE ++ "/folders/list") []) ev.
Proof.
  intros Hk Hkn Hs Hsn Hf Hl Ht Hts.
  assert (E : main_setup repr env w = call (list_folders repr) w).
  { unfold main_setup, setup_bind, require_env.
    rewrite Hk, Hkn, Hs, Hsn. unfold setup_ret.
    rewrite (ensure_credentials_cached env w content d t s Hf Hl Ht Hts).
    reflexivity. }
  split; [exact E|].
  rewrite E.
  destruct (api_post_repeats_one_request_shape "/folders/list" (Some []) w)
    as (n & ev & Hw & Hev).
  exists n, ev. split; [|exact Hev].
  rewrite <- Hw, <- (list_folders_world repr).
  unfold call. destruct (list_folders repr w) as [[u|fs] w']; reflexivity.
Qed.

Lemma setup_with_cached_token_witness :
  let w := mkWorld
             (Demo.script [Demo.ok (JList [DemoCred.entry "folder" 11 "Tech"])])
             0 []
             [(CRED_PATH,
               json_dump (Library := DemoCred.library) (token_json "tok" "sec"))]
             [] in
  main_setup (L := DemoCred.library) DemoCred.repr DemoCred.env_consumer w
  = call (list_folders (L := DemoCred.library) DemoCred.repr) w /\
  exists n ev,
    snd (main_setup (L := DemoCred.library) DemoCred.repr
           DemoCred.env_consumer w)
    = advance w n ev /\
    Forall (call_event (API_BASE ++ "/folders/list") []) ev.
Proof.
  intros w.
  apply (setup_with_cached_token (L := DemoCred.library) DemoCred.repr
           DemoCred.env_consumer w "key" "secret"
           (json_dump (Library := DemoCred.library) (token_json "tok" "sec"))
           [("oauth_token", JStr "tok"); ("oauth_token_secret", JStr "sec")]
           (JStr "tok") (JStr "sec")).
  - reflexivity.
  - reflexivity.
  - reflexivity.
  - reflexivity.
  - reflexivity.
  - vm_compute. reflexivity.
  - reflexivity.
  - reflexivity.
Defined.

(** X30. Without [INSTAPAPER_CONSUMER_KEY] (not set, or empty) the
    program stops with the message that names it; with it and without
    [INSTAPAPER_CONSUMER_SECRET] it stops with the message that names
    the secret. In both cases nothing has been read, written or sent,
    whether or not a token is cached. *)
Theorem missing_consumer_variable_stops_setup `{L : Library}
  (repr : json -> string) (env : Env) (w : world) (name : string) :
  (unset env "INSTAPAPER_CONSUMER_KEY" /\ name = "INSTAPAPER_CONSUMER_KEY") \/
  ((exists key, env "INSTAPAPER_CONSUMER_KEY" = Some key /\
                Str.nonempty key = true) /\
   unset env "INSTAPAPER_CONSUMER_SECRET" /\
   name = "INSTAPAPER_CONSUMER_SECRET") ->
  main_setup repr env w = (inl (SetupExit (MissingEnv name)), w).
Proof.
  unfold main_setup, setup_bind, require_env, unset.
  intros [[[H|H] ->]|[(key & Hk & Hn) [[H|H] ->]]].
  - rewrite H. reflexivity.
  - rewrite H. reflexivity.
  - rewrite Hk, Hn, H. reflexivity.
  - rewrite Hk, Hn, H. reflexivity.
Qed.

Lemma missing_consumer_variable_stops_setup_witness :
  let w := mkWorld (Demo.script []) 0 []
             [(CRED_PATH,
               json_dump (Library := DemoCred.library) (token_json "tok" "sec"))]
             [] in
  main_setup (L := DemoCred.library) DemoCred.repr
    (fun name => if String.eqb name "INSTAPAPER_CONSUMER_KEY"
                 then Some "key" else None) w
  = (inl (SetupExit (MissingEnv "INSTAPAPER_CONSUMER_SECRET")), w).
Proof.
  intros w.
  apply (missing_consumer_variable_stops_setup (L := DemoCred.library)).
  right. split; [exists "key"; split; reflexivity|].
  split; [left; reflexivity|reflexivity].
Defined.

(** ** Lines, titles and domains with characters beyond ASCII *)

(** NO-BREAK SPACE around a command or a folder key is white space for
    [strip], and a capital letter beyond ASCII has its small letter. *)
Example command_with_no_break_space :
  command_of (String " " (String "Q" (String NBSP ""))) = "q" /\
  Str.strip (String "2" (String NBSP "")) = "2" /\
  domain_of (L := Demo.library)
    ("https://" ++ String E_ACUTE "xample.com/a")
  = String e_acute "xample.com".
Proof. repeat split; vm_compute; reflexivity. Qed.

(** The line [" Q"] followed by NO-BREAK SPACE quits, and the answer [2]
    followed by NO-BREAK SPACE at the prompt of the [s] command is the
    key [2]: the rule is recorded and the rule file written twice. *)
Example session_with_no_break_space :
  let b := Demo.bookmark 11 "First" "https://a.example.com/1" in
  let w := Demo.start [Demo.page [b; b]]
             ["s"; String "2" (String NBSP "");
              String " " (String "Q" (String NBSP ""))] in
  let r := main (L := Demo.library) 4 Demo.folders3 [] w in
  fst r = inr (Some [("a.example.com", 2)]) /\
  count is_persist (log (snd r)) = 2%nat /\
  stdin (snd r) = [].
Proof. repeat split; vm_compute; reflexivity. Qed.
